(** * SapAIWithTraining dashboards: a shallow embedding and its properties

    The two browser scripts of the repository are embedded here:
    - [admin_dashboard.js]: the knowledge table (filter, pagination, the
      outcomes of a load) and the keyword editor of the admin page, as a list
      of keywords and as the elements the HTML parser builds;
    - [dashboard.js] (the Vue application): [safeFetch], [sendMessage],
      [trainModel], [formatMessage] and the computed property
      [canTrainModel].

    JavaScript strings are sequences of UTF-16 code units; they are modelled
    as lists of [N].  DOM elements and module-level variables become record
    fields of an explicit state, and every handler becomes a function on that
    state.  Asynchronous handlers are cut at their [await] points. *)

From Stdlib Require Import String Ascii DecimalString.
From Stdlib Require Import QArith Qround.
From Stdlib Require Import List ZArith NArith Lia Bool.
Import ListNotations.
Close Scope Q_scope.

Set Implicit Arguments.

(** ** JavaScript strings *)

Module JS.

Definition codeunit := N.
Definition jsstring := list codeunit.

(** An ASCII literal as a sequence of code units. *)
Definition lit (s : string) : jsstring :=
  map N_of_ascii (list_ascii_of_string s).

(** The double quote character, and a double-quoted attribute value. *)
Definition dquote : codeunit := 34%N.
Definition quoted (s : string) : jsstring := dquote :: lit s ++ [dquote].

(** ECMAScript [LineTerminator]: LF, CR, LS, PS. *)
Definition isLineTerminator (c : codeunit) : bool :=
  ((c =? 10) || (c =? 13) || (c =? 8232) || (c =? 8233))%N.

(** ECMAScript [WhiteSpace] together with [LineTerminator]: what
    [String.prototype.trim] strips and what [\s] matches. *)
Definition isWhiteSpace (c : codeunit) : bool :=
  ((c =? 9) || (c =? 11) || (c =? 12) || (c =? 32) || (c =? 160)
   || (c =? 5760) || ((8192 <=? c) && (c <=? 8202))
   || (c =? 8239) || (c =? 8287) || (c =? 12288) || (c =? 65279))%N
  || isLineTerminator c.

Definition isDigit (c : codeunit) : bool := ((48 <=? c) && (c <=? 57))%N.

(** [.] without the [s] flag, and with it. *)
Definition dot (c : codeunit) : bool := negb (isLineTerminator c).
Definition dotAll (_ : codeunit) : bool := true.

Fixpoint trimStart (s : jsstring) : jsstring :=
  match s with
  | c :: s' => if isWhiteSpace c then trimStart s' else s
  | [] => []
  end.

Definition trimEnd (s : jsstring) : jsstring := rev (trimStart (rev s)).

(** [String.prototype.trim]. *)
Definition trim (s : jsstring) : jsstring := trimEnd (trimStart s).

(** Truthiness of a string: only the empty string is falsy. *)
Definition truthy (s : jsstring) : bool :=
  match s with [] => false | _ :: _ => true end.

Fixpoint eqb (a b : jsstring) : bool :=
  match a, b with
  | [], [] => true
  | x :: a', y :: b' => (x =? y)%N && eqb a' b'
  | _, _ => false
  end.

(** [s.startsWith(q)], and the remainder of [s] behind [q]. *)
Fixpoint stripPrefix (q s : jsstring) : option jsstring :=
  match q, s with
  | [], _ => Some s
  | x :: q', y :: s' => if (x =? y)%N then stripPrefix q' s' else None
  | _ :: _, [] => None
  end.

Definition startsWith (s q : jsstring) : bool :=
  match stripPrefix q s with Some _ => true | None => false end.

(** [s.includes(q)]: [q] occurs in [s] at some position. *)
Fixpoint includes (s q : jsstring) : bool :=
  startsWith s q ||
  match s with
  | [] => false
  | _ :: s' => includes s' q
  end.

(** [q] occurs in [s], as a proposition. *)
Definition occursIn (q s : jsstring) : Prop :=
  exists pre post, s = pre ++ q ++ post.

(** [Array.prototype.slice(start, end)] with its relative indices: a
    negative index counts from the end of the array, and both are clamped to
    the array. *)
Definition relIndex (len i : Z) : Z :=
  if (i <? 0)%Z then Z.max (len + i) 0 else Z.min i len.

Definition slice {A} (a : list A) (start stop : Z) : list A :=
  let len := Z.of_nat (length a) in
  let k := relIndex len start in
  let final := relIndex len stop in
  firstn (Z.to_nat (Z.max (final - k) 0)) (skipn (Z.to_nat k) a).

End JS.

Import JS.

(** ** Regular expressions as [dashboard.js] uses them

    The patterns of [formatMessage] are built from literals, character
    classes, a class under [*] or [*?], sequence, alternation, capturing
    groups, a positive lookahead and [$].  The matcher is the backtracking
    matcher of ECMAScript in continuation-passing style: a quantifier tries
    its alternatives in priority order and the first one whose continuation
    succeeds wins. *)

Module Regex.

Inductive regex : Type :=
| Lit (s : jsstring)
| Cls (p : codeunit -> bool)
| Rep (greedy : bool) (p : codeunit -> bool)
| Seq (r1 r2 : regex)
| Alt (r1 r2 : regex)
| Group (n : nat) (r : regex)
| Ahead (r : regex)
| Eos.

Declare Scope regex_scope.
Delimit Scope regex_scope with re.
Bind Scope regex_scope with regex.
Infix ">>" := Seq (at level 61, right associativity) : regex_scope.
Infix "<|>" := Alt (at level 62, right associativity) : regex_scope.

(** [p+] is [p p*]. *)
Definition Plus (p : codeunit -> bool) : regex := Seq (Cls p) (Rep true p).

(** Captures, most recent first. *)
Definition caps := list (nat * jsstring).

Fixpoint capture (n : nat) (c : caps) : option jsstring :=
  match c with
  | [] => None
  | (i, v) :: c' => if Nat.eqb i n then Some v else capture n c'
  end.

Definition mresult := option (jsstring * caps).

Section Repeat.
Variable p : codeunit -> bool.
Variable k : jsstring -> mresult.

(** Greedy: one more character first, the continuation second. *)
Fixpoint repGreedy (s : jsstring) : mresult :=
  match s with
  | x :: s' =>
      if p x then
        match repGreedy s' with
        | Some res => Some res
        | None => k s
        end
      else k s
  | [] => k []
  end.

(** Lazy: the continuation first, one more character second. *)
Fixpoint repLazy (s : jsstring) : mresult :=
  match k s with
  | Some res => Some res
  | None =>
      match s with
      | x :: s' => if p x then repLazy s' else None
      | [] => None
      end
  end.
End Repeat.

(** A character that does not satisfy [p], or the end, stops [p*]. *)
Definition stops (p : codeunit -> bool) (s : jsstring) : Prop :=
  match s with
  | [] => True
  | x :: _ => p x = false
  end.

(** [run r s c k]: match [r] at the front of [s] (the rest of the input)
    with captures [c], then continue with [k] on what is left. *)
Fixpoint run (r : regex) (s : jsstring) (c : caps)
         (k : jsstring -> caps -> mresult) : mresult :=
  match r with
  | Lit l =>
      match stripPrefix l s with
      | Some s' => k s' c
      | None => None
      end
  | Cls p =>
      match s with
      | x :: s' => if p x then k s' c else None
      | [] => None
      end
  | Rep true p => repGreedy p (fun s' => k s' c) s
  | Rep false p => repLazy p (fun s' => k s' c) s
  | Seq r1 r2 => run r1 s c (fun s' c' => run r2 s' c' k)
  | Alt r1 r2 =>
      match run r1 s c k with
      | Some res => Some res
      | None => run r2 s c k
      end
  | Group n r' =>
      run r' s c
          (fun s' c' =>
             k s' ((n, firstn (length s - length s') s) :: c'))
  | Ahead r' =>
      match run r' s c (fun s' c' => Some (s', c')) with
      | Some (_, c') => k s c'
      | None => None
      end
  | Eos =>
      match s with
      | [] => k [] c
      | _ :: _ => None
      end
  end.

(** A bound on how a match can begin: [mayStart r x] is [false] only if [r]
    cannot match at a position whose next character is [x] ([None] at the end
    of the input). *)
Fixpoint mayStart (r : regex) (x : option codeunit) : bool :=
  match r with
  | Lit [] => true
  | Lit (a :: _) =>
      match x with
      | Some c => (a =? c)%N
      | None => false
      end
  | Cls p =>
      match x with
      | Some c => p c
      | None => false
      end
  | Rep _ _ => true
  | Seq r1 _ => mayStart r1 x
  | Alt r1 r2 => mayStart r1 x || mayStart r2 x
  | Group _ r' => mayStart r' x
  | Ahead _ => true
  | Eos => true
  end.

(** A match attempt at the current position. *)
Definition exec (r : regex) (s : jsstring) : mresult :=
  run r s [] (fun s' c => Some (s', c)).

(** Replacement templates: literal text and [$n]. *)
Inductive piece : Type :=
| Text (s : jsstring)
| Cap (n : nat).

Definition template := list piece.

Fixpoint expand (t : template) (c : caps) : jsstring :=
  match t with
  | [] => []
  | Text s :: t' => s ++ expand t' c
  | Cap n :: t' =>
      match capture n c with
      | Some v => v ++ expand t' c
      | None => expand t' c
      end
  end.

Section Replace.
Variable r : regex.
Variable t : template.

(** [s.replace(/r/g, t)].  [skip] is the number of characters of the
    current position that the previous match has already consumed
    ([lastIndex] minus the position); an empty match advances by one
    character, which is copied to the output. *)
Fixpoint replaceFrom (s : jsstring) (skip : nat) : jsstring :=
  let copy :=
    match s with
    | x :: s' => x :: replaceFrom s' 0
    | [] => []
    end in
  match skip with
  | S n =>
      match s with
      | _ :: s' => replaceFrom s' n
      | [] => []
      end
  | O =>
      match exec r s with
      | Some (rest, c) =>
          expand t c ++
          match length s - length rest with
          | O => copy
          | S n =>
              match s with
              | _ :: s' => replaceFrom s' n
              | [] => []
              end
          end
      | None => copy
      end
  end.

Definition replaceAll (s : jsstring) : jsstring := replaceFrom s 0.

(** [s.replace(/r/, t)]: the first match only. *)
Fixpoint replaceFirst (s : jsstring) : jsstring :=
  match exec r s with
  | Some (rest, c) => expand t c ++ rest
  | None =>
      match s with
      | x :: s' => x :: replaceFirst s'
      | [] => []
      end
  end.
End Replace.

(** Every character of the captures, of the rest of the input and of the
    texts of a template satisfies [P]. *)
Section Within.
Variable P : codeunit -> bool.

Definition capsWithin (c : caps) : bool :=
  forallb (fun kv => forallb P (snd kv)) c.

Definition resultWithin (res : mresult) : Prop :=
  match res with
  | Some (rest, c) => forallb P rest = true /\ capsWithin c = true
  | None => True
  end.

Definition templateWithin (t : template) : bool :=
  forallb (fun x => match x with Text s => forallb P s | Cap _ => true end) t.
End Within.

End Regex.

Import Regex.
Open Scope regex_scope.

(** ** [formatMessage] of [dashboard.js] *)

Module Formatter.

(** The glyphs of the patterns, as UTF-16 code units. *)
Definition target : jsstring := [55356; 57263]%N.          (* U+1F3AF *)
Definition moneyBag : jsstring := [55357; 56496]%N.        (* U+1F4B0 *)
Definition people : jsstring := [55357; 56421]%N.          (* U+1F465 *)
Definition desktop : jsstring := [55357; 56741; 65039]%N.  (* U+1F5A5 U+FE0F *)
Definition bulb : jsstring := [55357; 56481]%N.            (* U+1F4A1 *)
Definition alarm : jsstring := [9200]%N.                   (* U+23F0 *)
Definition checkMark : jsstring := [9989]%N.               (* U+2705 *)
Definition pin : jsstring := [55357; 56525]%N.             (* U+1F4CD *)
Definition bullet : jsstring := [8226]%N.                  (* U+2022 *)

Definition br : jsstring := lit "<br>".

Definition divOpen (cls : string) : jsstring :=
  lit "<div class=" ++ quoted cls ++ lit ">".

(** [/\*\*(.*?)\*\*/g] and ['<strong>$1</strong>']. *)
Definition boldRe : regex :=
  Lit (lit "**") >> Group 1 (Rep false dot) >> Lit (lit "**").
Definition boldT : template :=
  [Text (lit "<strong>"); Cap 1; Text (lit "</strong>")].

(** [/\n/g] and ['<br>']. *)
Definition newlineRe : regex := Lit [10%N].
Definition newlineT : template := [Text br].

(** The section header rule. *)
Definition headerRe : regex :=
  Group 1 (Lit target <|> Lit moneyBag <|> Lit people <|> Lit desktop
           <|> Lit bulb <|> Lit alarm)
  >> Rep true isWhiteSpace
  >> Lit (lit "<strong>") >> Group 2 (Rep false dot) >> Lit (lit "</strong>").
Definition headerT : template :=
  [Text (divOpen "section-header"); Cap 1; Text (lit " <strong>"); Cap 2;
   Text (lit "</strong></div>")].

(** [/(\d+)\.\s*(.*?)(?=<br>|$)/g]: the numbered step rule. *)
Definition stepRe : regex :=
  Group 1 (Plus isDigit) >> Lit (lit ".") >> Rep true isWhiteSpace
  >> Group 2 (Rep false dot) >> Ahead (Lit br <|> Eos).
Definition stepT : template :=
  [Text (divOpen "step-item" ++ lit "<strong>"); Cap 1;
   Text (lit ".</strong> "); Cap 2; Text (lit "</div>")].

(** The bullet rule. *)
Definition tipRe : regex :=
  Lit bullet >> Rep true isWhiteSpace
  >> Group 1 (Rep false dot) >> Ahead (Lit br <|> Eos).
Definition tipT : template :=
  [Text (divOpen "tip-item"); Cap 1; Text (lit "</div>")].

(** The two section rules, with the [s] flag. *)
Definition sectionRe (head : jsstring) : regex :=
  Lit (lit "**" ++ head ++ lit "**" ++ br)
  >> Group 1 (Rep false dotAll) >> Ahead (Lit (br ++ br) <|> Eos).
Definition sectionT (cls : string) (head : jsstring) : template :=
  [Text (divOpen cls ++ lit "<strong>" ++ head ++ lit "</strong>" ++ br);
   Cap 1; Text (lit "</div>")].

Definition proTips : jsstring := bulb ++ lit " Pro Tips:".
Definition important : jsstring := checkMark ++ lit " Important:".

(** The footer rule, without the [g] flag. *)
Definition footerRe : regex := Lit pin >> Group 1 (Rep false dot) >> Eos.
Definition footerT : template :=
  [Text (divOpen "footer-note" ++ pin ++ lit " "); Cap 1; Text (lit "</div>")].

(** The chain of [replace] calls. *)
Definition pipeline (content : jsstring) : jsstring :=
  let s1 := replaceAll boldRe boldT content in
  let s2 := replaceAll newlineRe newlineT s1 in
  let s3 := replaceAll headerRe headerT s2 in
  let s4 := replaceAll stepRe stepT s3 in
  let s5 := replaceAll tipRe tipT s4 in
  let s6 := replaceAll (sectionRe proTips) (sectionT "tips-section" proTips) s5 in
  let s7 := replaceAll (sectionRe important)
                       (sectionT "important-section" important) s6 in
  replaceFirst footerRe footerT s7.

(** [formatMessage(content)]; [None] is a missing ([undefined] or [null])
    argument. *)
Definition formatMessage (content : option jsstring) : jsstring :=
  match content with
  | None => []
  | Some s => if truthy s then pipeline s else []
  end.

(** *** Texts made of plain lines

    A line is some prose, then possibly a number, a dot, white space and a
    text.  The characters of prose and text are plain: none starts another
    rule of the pipeline, none is a line terminator or [<].  The number is
    the first of its line that a dot follows: in the prose no digit stands
    before a dot, and the prose does not end in a digit when the number
    follows it. *)

Definition quiet (c : codeunit) : bool :=
  negb (42 =? c)%N && negb (55356 =? c)%N && negb (55357 =? c)%N
  && negb (9200 =? c)%N && negb (8226 =? c)%N.

Definition plain (c : codeunit) : bool :=
  quiet c && negb (isLineTerminator c) && negb (60 =? c)%N.

Definition plainProse (c : codeunit) : bool := plain c && negb (isDigit c).

(** White space between the dot and the text, on the same line. *)
Definition gap (c : codeunit) : bool := isWhiteSpace c && negb (10 =? c)%N.

Record numberedText : Type := mkNumbered {
  digits : jsstring;
  spacing : jsstring;
  text : jsstring
}.

Record line : Type := mkLine {
  prose : jsstring;
  numbered : option numberedText
}.

Definition wfNumbered (n : numberedText) : bool :=
  truthy (digits n) && forallb isDigit (digits n)
  && forallb gap (spacing n)
  && forallb plain (text n)
  && match text n with
     | [] => true
     | c :: _ => negb (isWhiteSpace c)
     end.

(** No digit of the text stands before a dot. *)
Fixpoint dotless (s : jsstring) : bool :=
  match s with
  | [] => true
  | c :: s' =>
      negb (isDigit c && match s' with
                         | d :: _ => (46 =? d)%N
                         | [] => false
                         end)
      && dotless s'
  end.

Fixpoint endsWithDigit (s : jsstring) : bool :=
  match s with
  | [] => false
  | [c] => isDigit c
  | _ :: s' => endsWithDigit s'
  end.

(** What follows the digits at the front of the text is not a dot. *)
Fixpoint afterDigits (s : jsstring) : bool :=
  match s with
  | [] => true
  | c :: s' => if isDigit c then afterDigits s' else negb (46 =? c)%N
  end.

Definition wfLine (l : line) : bool :=
  forallb plain (prose l) && dotless (prose l)
  && match numbered l with
     | Some n => wfNumbered n && negb (endsWithDigit (prose l))
     | None => true
     end.

(** The line as it is typed, and as the formatter shows it. *)
Definition raw (l : line) : jsstring :=
  prose l ++
  match numbered l with
  | Some n => digits n ++ lit "." ++ spacing n ++ text n
  | None => []
  end.

Definition stepItem (n : numberedText) : jsstring :=
  divOpen "step-item" ++ lit "<strong>" ++ digits n ++ lit ".</strong> "
  ++ text n ++ lit "</div>".

Definition shown (l : line) : jsstring :=
  prose l ++
  match numbered l with
  | Some n => stepItem n
  | None => []
  end.

(** A character at which no rule of the pipeline can begin. *)
Definition inert (c : codeunit) : bool :=
  quiet c && negb (isDigit c) && negb (10 =? c)%N.

Definition rules : list regex :=
  [boldRe; newlineRe; headerRe; stepRe; tipRe; sectionRe proTips;
   sectionRe important; footerRe].

Definition notLineFeed (c : codeunit) : bool := negb (10 =? c)%N.

(** Every line feed turned into a line-break marker. *)
Definition withBreaks (s : jsstring) : jsstring :=
  flat_map (fun c => if (10 =? c)%N then br else [c]) s.

(** A character that is inert or a line feed. *)
Definition mild (c : codeunit) : bool := quiet c && negb (isDigit c).

(** Prose with emphasized spans: each span has prose before it. *)
Record emphasized : Type := mkEmphasized {
  before : jsstring;
  strong : jsstring
}.

Definition wfEmphasized (e : emphasized) : bool :=
  forallb plainProse (before e) && forallb plainProse (strong e).

Definition starred (e : emphasized) : jsstring :=
  before e ++ lit "**" ++ strong e ++ lit "**".

Definition strengthened (e : emphasized) : jsstring :=
  before e ++ lit "<strong>" ++ strong e ++ lit "</strong>".

(** A line with a bullet item: prose, then possibly a bullet, white space
    and a text. *)
Record bulletText : Type := mkBullet {
  bulletSpacing : jsstring;
  bulletBody : jsstring
}.

Record bulletLine : Type := mkBulletLine {
  lead : jsstring;
  bulleted : option bulletText
}.

Definition wfBullet (b : bulletText) : bool :=
  forallb gap (bulletSpacing b)
  && forallb plainProse (bulletBody b)
  && match bulletBody b with
     | [] => true
     | c :: _ => negb (isWhiteSpace c)
     end.

Definition wfBulletLine (l : bulletLine) : bool :=
  forallb plainProse (lead l)
  && match bulleted l with
     | Some b => wfBullet b
     | None => true
     end.

Definition rawBullet (l : bulletLine) : jsstring :=
  lead l ++
  match bulleted l with
  | Some b => bullet ++ bulletSpacing b ++ bulletBody b
  | None => []
  end.

Definition shownBullet (l : bulletLine) : jsstring :=
  lead l ++
  match bulleted l with
  | Some b => divOpen "tip-item" ++ bulletBody b ++ lit "</div>"
  | None => []
  end.

(** The glyphs that open a section header. *)
Definition headerGlyphs : list jsstring :=
  [target; moneyBag; people; desktop; bulb; alarm].

(** What may follow a line: the end of the text, or a line break. *)
Definition lineEnd (tail : jsstring) : Prop :=
  tail = [] \/ exists tail', tail = br ++ tail'.

Fixpoint join (sep : jsstring) (ls : list jsstring) : jsstring :=
  match ls with
  | [] => []
  | [l] => l
  | l :: ls' => l ++ sep ++ join sep ls'
  end.

End Formatter.

(** ** [admin_dashboard.js]: the knowledge table *)

Module Admin.

Definition itemsPerPage : Z := 10.

Record KnowledgeItem : Type := mkItem {
  id : Z;
  module : jsstring;
  question : jsstring;
  answer : jsstring;
  keywords : option (list jsstring);   (* [None]: the field is missing *)
  usage_count : Z
}.

(** What [renderKnowledgeTable] leaves in [#knowledgeTableBody]: the
    "No knowledge items found" row, or one row per item of the page. *)
Inductive tableBody : Type :=
| EmptyState
| Rows (items : list KnowledgeItem).

(** A button of [#knowledgePagination]; [onclick] is the argument of the
    [changeKnowledgePage] call in its handler. *)
Inductive buttonLabel : Type :=
| Previous
| PageNumber (i : Z)
| Next.

Record pageButton : Type := mkButton {
  label : buttonLabel;
  disabled : bool;
  active : bool;
  onclick : Z
}.

(** The module-level variables and the DOM elements the script reads and
    writes. *)
Record state : Type := mkState {
  currentKnowledgePage : Z;
  knowledgeData : list KnowledgeItem;
  filteredKnowledgeData : list KnowledgeItem;
  searchKnowledgeValue : jsstring;     (* [#searchKnowledge].value *)
  moduleFilterValue : jsstring;        (* [#moduleFilter].value *)
  knowledgeTableBody : tableBody;
  knowledgePagination : list pageButton
}.

Definition initial : state :=
  mkState 1 [] [] [] [] (Rows []) [].

(** [Math.ceil(a / b)] on integers; the quotient is exact in the rationals
    (and the double of the script agrees with it for every array length). *)
Definition ceilDiv (a b : Z) : Z := Qceiling (inject_Z a / inject_Z b).

(** The page that [renderKnowledgeTable] cuts out of the filtered data. *)
Definition pageData (st : state) : list KnowledgeItem :=
  let startIndex := ((currentKnowledgePage st - 1) * itemsPerPage)%Z in
  let endIndex := (startIndex + itemsPerPage)%Z in
  slice (filteredKnowledgeData st) startIndex endIndex.

Definition setTableBody (b : tableBody) (st : state) : state :=
  mkState (currentKnowledgePage st) (knowledgeData st)
          (filteredKnowledgeData st) (searchKnowledgeValue st)
          (moduleFilterValue st) b (knowledgePagination st).

Definition setPagination (bs : list pageButton) (st : state) : state :=
  mkState (currentKnowledgePage st) (knowledgeData st)
          (filteredKnowledgeData st) (searchKnowledgeValue st)
          (moduleFilterValue st) (knowledgeTableBody st) bs.

Definition renderKnowledgeTable (st : state) : state :=
  let page := pageData st in
  match page with
  | [] => setTableBody EmptyState st
  | _ :: _ => setTableBody (Rows page) st
  end.

Definition totalPages (st : state) : Z :=
  ceilDiv (Z.of_nat (length (filteredKnowledgeData st))) itemsPerPage.

Definition updateKnowledgePagination (st : state) : state :=
  let total := totalPages st in
  let current := currentKnowledgePage st in
  if (total <=? 1)%Z then setPagination [] st
  else
    setPagination
      (mkButton Previous (current =? 1)%Z false (current - 1)%Z
       :: map (fun i => mkButton (PageNumber i) false (i =? current)%Z i)
              (map Z.of_nat (seq 1 (Z.to_nat total)))
       ++ [mkButton Next (current =? total)%Z false (current + 1)%Z])
      st.

Definition changeKnowledgePage (page : Z) (st : state) : state :=
  renderKnowledgeTable
    (mkState page (knowledgeData st) (filteredKnowledgeData st)
             (searchKnowledgeValue st) (moduleFilterValue st)
             (knowledgeTableBody st) (knowledgePagination st)).

(** The continuation of [loadKnowledgeBase] once an array of items has
    arrived.  The other outcomes of the request are in
    [loadKnowledgeBaseOn] below. *)
Definition loadKnowledgeBase (data : list KnowledgeItem) (st : state) : state :=
  updateKnowledgePagination
    (renderKnowledgeTable
       (mkState (currentKnowledgePage st) data data
                (searchKnowledgeValue st) (moduleFilterValue st)
                (knowledgeTableBody st) (knowledgePagination st))).

Section Search.
(** [String.prototype.toLowerCase] is the engine's case mapping. *)
Variable toLowerCase : jsstring -> jsstring.

Definition matchesSearch (query : jsstring) (item : KnowledgeItem) : bool :=
  negb (truthy query)
  || includes (toLowerCase (question item)) query
  || includes (toLowerCase (answer item)) query
  || match keywords item with
     | Some kws => existsb (fun kw => includes (toLowerCase kw) query) kws
     | None => false
     end.

Definition matchesModule (moduleFilter : jsstring) (item : KnowledgeItem)
  : bool :=
  negb (truthy moduleFilter) || JS.eqb (module item) moduleFilter.

Definition searchKnowledge (st : state) : state :=
  let query := toLowerCase (searchKnowledgeValue st) in
  let moduleFilter := moduleFilterValue st in
  let filtered :=
    filter (fun item => matchesSearch query item
                        && matchesModule moduleFilter item)
           (knowledgeData st) in
  updateKnowledgePagination
    (renderKnowledgeTable
       (mkState 1 (knowledgeData st) filtered
                (searchKnowledgeValue st) (moduleFilterValue st)
                (knowledgeTableBody st) (knowledgePagination st))).

Definition filterByModule (st : state) : state := searchKnowledge st.

(** The user edits the search box, or picks a module: the input changes
    and its handler runs. *)
Definition typeSearch (text : jsstring) (st : state) : state :=
  searchKnowledge
    (mkState (currentKnowledgePage st) (knowledgeData st)
             (filteredKnowledgeData st) text (moduleFilterValue st)
             (knowledgeTableBody st) (knowledgePagination st)).

Definition selectModule (m : jsstring) (st : state) : state :=
  filterByModule
    (mkState (currentKnowledgePage st) (knowledgeData st)
             (filteredKnowledgeData st) (searchKnowledgeValue st) m
             (knowledgeTableBody st) (knowledgePagination st)).

(** What can happen to the page. *)
Inductive action : Type :=
| TypeSearch (text : jsstring)
| SelectModule (m : jsstring)
| ClickPage (n : nat)              (* the n-th pagination button *)
| Loaded (data : list KnowledgeItem).   (* a load answered with an array *)

(** A click reaches the handler only on an enabled button. *)
Definition clickPage (n : nat) (st : state) : state :=
  match nth_error (knowledgePagination st) n with
  | Some b => if disabled b then st else changeKnowledgePage (onclick b) st
  | None => st
  end.

Definition step (a : action) (st : state) : state :=
  match a with
  | TypeSearch text => typeSearch text st
  | SelectModule m => selectModule m st
  | ClickPage n => clickPage n st
  | Loaded data => loadKnowledgeBase data st
  end.

Inductive reachable : state -> Prop :=
| reach_initial : reachable initial
| reach_step a st : reachable st -> reachable (step a st).

(** The filter predicate in words: [text] occurs in [field] when case is
    ignored, [text] matches an item, and an item passes the filter. *)
Definition ciOccurs (text field : jsstring) : Prop :=
  occursIn (toLowerCase text) (toLowerCase field).

Definition keywordList (item : KnowledgeItem) : list jsstring :=
  match keywords item with
  | Some kws => kws
  | None => []
  end.

Definition textMatches (text : jsstring) (item : KnowledgeItem) : Prop :=
  text = []
  \/ ciOccurs text (question item)
  \/ ciOccurs text (answer item)
  \/ exists kw, In kw (keywordList item) /\ ciOccurs text kw.

Definition passes (text moduleFilter : jsstring) (item : KnowledgeItem)
  : Prop :=
  textMatches text item
  /\ (moduleFilter = [] \/ module item = moduleFilter).
End Search.

(** Sample data: [count] items numbered from 1, and two items of which only
    the first has the keyword "Salary" while the second has "salary" in its
    question. *)
Definition numbered (count : nat) : list KnowledgeItem :=
  map (fun i => mkItem (Z.of_nat i) (lit "payroll") (lit "question")
                       (lit "answer") (Some []) 0)
      (seq 1 count).

Definition payItem : KnowledgeItem :=
  mkItem 1 (lit "payroll") (lit "How do I pay staff?")
         (lit "Run the monthly cycle.") (Some [lit "Salary"; lit "wages"]) 0.

Definition slipItem : KnowledgeItem :=
  mkItem 2 (lit "payroll") (lit "Where is my salary slip?")
         (lit "In the portal.") (Some [lit "payslip"]) 0.

Definition leaveItem : KnowledgeItem :=
  mkItem 3 (lit "hr") (lit "How do I book leave?")
         (lit "Use the calendar.") None 0.

(** [l[i:j]] for [0 <= i <= j]: the elements at positions [i] to [j - 1]
    that exist, nothing wrapping around. *)
Definition segment {A} (l : list A) (i j : nat) : list A :=
  firstn (j - i) (skipn i l).

(** ASCII case mapping, an instance of [toLowerCase] on ASCII text. *)
Definition asciiLower (s : jsstring) : jsstring :=
  map (fun c => if ((65 <=? c) && (c <=? 90))%N then (c + 32)%N else c) s.

(** Sample states: 25 items loaded and page 3 clicked; three items loaded
    and "leave" typed; a search for "SALARY" within the payroll module; a
    search for "salary" in all modules. *)
Definition thirdPageOf25 : state :=
  changeKnowledgePage 3 (loadKnowledgeBase (numbered 25) initial).


Definition payrollSalaryQuery : state :=
  mkState 4 [leaveItem; payItem] [] (lit "SALARY") (lit "payroll")
          EmptyState [].

Definition salaryQuery : state :=
  mkState 1 [payItem; slipItem] [payItem; slipItem] (lit "salary") []
          (Rows [payItem; slipItem]) [].

(** *** The outcomes of a load

    [loadKnowledgeBase] does not read [response.ok]: whatever the status, the
    body is parsed and assigned to [knowledgeData] before it is copied into
    [filteredKnowledgeData]. *)

(** What [response.json()] gives: an array of items, or a value that cannot
    be spread, such as the object of an error answer, a number, a boolean or
    [null].  (A string, which can be spread, and an array of other things
    are left out.) *)
Inductive knowledgeJson : Type :=
| ItemArray (items : list KnowledgeItem)
| NotIterable.

(** What the network does with the request: [fetch] or [response.json()]
    rejects, or a body arrives. *)
Inductive loadOutcome : Type :=
| Rejects
| Answers (json : knowledgeJson).

(** The page with [knowledgeData] as any load can leave it.  [vars] holds
    the variables and elements as before, with the items of [knowledgeData]
    in its field (none when the value is not an array);
    [knowledgeIsArray] tells whether [knowledgeData] holds an array, and
    [alert] is the text of [#alert]. *)
Record page : Type := mkPage {
  vars : state;
  knowledgeIsArray : bool;
  alert : option jsstring
}.

Definition initialPage : page := mkPage initial true None.

(** [loadKnowledgeBase()] with the outcome of its request.  When the body
    cannot be spread, [knowledgeData] has taken it already and
    [[...knowledgeData]] throws: the filtered collection, the table and the
    pagination stay as they were, and the [catch] block raises the alert, as
    it does when the request is rejected. *)
Definition loadKnowledgeBaseOn (o : loadOutcome) (p : page) : page :=
  let failed := Some (lit "Failed to load knowledge base") in
  match o with
  | Rejects => mkPage (vars p) (knowledgeIsArray p) failed
  | Answers (ItemArray data) =>
      mkPage (loadKnowledgeBase data (vars p)) true (alert p)
  | Answers NotIterable =>
      mkPage (mkState (currentKnowledgePage (vars p)) []
                      (filteredKnowledgeData (vars p))
                      (searchKnowledgeValue (vars p))
                      (moduleFilterValue (vars p))
                      (knowledgeTableBody (vars p))
                      (knowledgePagination (vars p)))
             false failed
  end.

Section Page.
Variable toLowerCase : jsstring -> jsstring.

(** [searchKnowledge()]: [knowledgeData.filter] throws when [knowledgeData]
    is not an array, before the handler has written anything. *)
Definition searchKnowledgeOn (p : page) : page :=
  if knowledgeIsArray p then
    mkPage (searchKnowledge toLowerCase (vars p)) true (alert p)
  else p.

Definition typeSearchOn (text : jsstring) (p : page) : page :=
  searchKnowledgeOn
    (mkPage (mkState (currentKnowledgePage (vars p)) (knowledgeData (vars p))
                     (filteredKnowledgeData (vars p)) text
                     (moduleFilterValue (vars p))
                     (knowledgeTableBody (vars p))
                     (knowledgePagination (vars p)))
            (knowledgeIsArray p) (alert p)).

Definition selectModuleOn (m : jsstring) (p : page) : page :=
  searchKnowledgeOn
    (mkPage (mkState (currentKnowledgePage (vars p)) (knowledgeData (vars p))
                     (filteredKnowledgeData (vars p))
                     (searchKnowledgeValue (vars p)) m
                     (knowledgeTableBody (vars p))
                     (knowledgePagination (vars p)))
            (knowledgeIsArray p) (alert p)).

(** [changeKnowledgePage] reads the filtered collection only. *)
Definition clickPageOn (n : nat) (p : page) : page :=
  mkPage (clickPage n (vars p)) (knowledgeIsArray p) (alert p).

Inductive pageEvent : Type :=
| SearchTyped (text : jsstring)
| ModuleSelected (m : jsstring)
| PageClicked (n : nat)
| LoadSettled (o : loadOutcome).

Definition stepOn (e : pageEvent) (p : page) : page :=
  match e with
  | SearchTyped text => typeSearchOn text p
  | ModuleSelected m => selectModuleOn m p
  | PageClicked n => clickPageOn n p
  | LoadSettled o => loadKnowledgeBaseOn o p
  end.

Inductive reachableOn : page -> Prop :=
| reachOn_initial : reachableOn initialPage
| reachOn_step e p : reachableOn p -> reachableOn (stepOn e p).

End Page.

(** A sample state: 25 items loaded and page 3 open, then a reload that is
    answered with a value that cannot be spread. *)
Definition reloadFailed : page :=
  loadKnowledgeBaseOn (Answers NotIterable) (mkPage thirdPageOf25 true None).

(** [truncateText(text, maxLength)]; [substring(0, n)] takes a negative [n]
    for 0. *)
Definition truncateText (text : jsstring) (maxLength : Z) : jsstring :=
  if (Z.of_nat (length text) <=? maxLength)%Z then text
  else firstn (Z.to_nat maxLength) text ++ lit "...".

(** [Array.prototype.sort(compare)]: the order of the result is fixed by the
    comparator and by stability, so it is the order an insertion sort that
    keeps equal elements in place gives. *)
Section Sort.
Variable A : Type.
Variable compare : A -> A -> Z.

Fixpoint insertSorted (x : A) (sorted : list A) : list A :=
  match sorted with
  | [] => [x]
  | y :: rest =>
      if (compare x y >? 0)%Z then y :: insertSorted x rest
      else x :: sorted
  end.

Definition sort (a : list A) : list A := fold_right insertSorted [] a.
End Sort.

(** [getTopModule(moduleBreakdown)]; the argument is [None] when it is
    missing, and otherwise the entries of the object as [Object.entries]
    lists them. *)
Definition getTopModule (moduleBreakdown : option (list (jsstring * Z)))
  : jsstring :=
  match moduleBreakdown with
  | None => lit "-"
  | Some modules =>
      match modules with
      | [] => lit "-"
      | _ :: _ =>
          match sort (fun a b => (snd b - snd a)%Z) modules with
          | top :: _ => fst top
          | [] => lit "-"
          end
      end
  end.

(** What [renderKnowledgeTable] shows for a page. *)
Definition bodyOf (page : list KnowledgeItem) : tableBody :=
  match page with
  | [] => EmptyState
  | _ :: _ => Rows page
  end.

(** The pages the pagination offers: 1 to [totalPages]. *)
Definition pagesOf (st : state) : list Z :=
  map Z.of_nat (seq 1 (Z.to_nat (totalPages st))).

(** A run of clicks on pagination buttons. *)
Definition clicks (ns : list nat) (st : state) : state :=
  fold_left (fun s n => clickPage n s) ns st.

End Admin.

(** ** [admin_dashboard.js]: the keyword editor *)

Module KeywordEditor.

(** [#keywordInput] and the [keyword-tag] children of [#keywordsContainer],
    each standing for the keyword it was made from.  The list is the picture
    of the container for keywords that the HTML parser takes as text; the
    elements themselves, which the script builds through [innerHTML], are in
    [KeywordTags] below, where the two are compared. *)
Record editor : Type := mkEditor {
  keywordInput : jsstring;
  keywordsContainer : list jsstring
}.

Definition empty : editor := mkEditor [] [].

(** The tag of [keyword] is appended.  The list follows the container as
    long as every keyword is text to the HTML parser. *)
Definition addKeywordToContainer (keyword : jsstring) (e : editor) : editor :=
  mkEditor (keywordInput e) (keywordsContainer e ++ [keyword]).

Inductive key : Type :=
| Enter
| OtherKey.

(** The [keypress] listener of [#keywordInput]. *)
Definition keypress (k : key) (e : editor) : editor :=
  match k with
  | Enter =>
      let keyword := trim (keywordInput e) in
      if truthy keyword then
        let e' := addKeywordToContainer keyword e in
        mkEditor [] (keywordsContainer e')
      else e
  | OtherKey => e
  end.

Fixpoint removeAt {A} (i : nat) (l : list A) : list A :=
  match l, i with
  | [], _ => []
  | _ :: l', O => l'
  | x :: l', S i' => x :: removeAt i' l'
  end.

(** The remove button of the tag at position [index], when the tag is
    the parent of its button: [this.parentElement.remove()]. *)
Definition remove (index : nat) (e : editor) : editor :=
  mkEditor (keywordInput e) (removeAt index (keywordsContainer e)).

(** The user types [keyword] into the input and presses Enter. *)
Definition add (keyword : jsstring) (e : editor) : editor :=
  keypress Enter (mkEditor keyword (keywordsContainer e)).

(** The string is empty or begins with a character that is not white
    space. *)
Definition startsBlack (x : jsstring) : Prop :=
  match x with
  | [] => True
  | a :: _ => isWhiteSpace a = false
  end.

(** The multiplication sign of the remove button, [&times;]. *)
Definition times : codeunit := 215%N.

(** Characters that the HTML parser copies into the text as they are: not
    [<], [&], carriage return or NUL. *)
Definition htmlText (s : jsstring) : bool :=
  forallb (fun c => negb (60 =? c)%N && negb (38 =? c)%N
                    && negb (13 =? c)%N && negb (0 =? c)%N) s.

Definition indent (n : nat) : jsstring := 10%N :: repeat 32%N n.

(** [tag.textContent] of the tag that [addKeywordToContainer] builds from
    its template: a line break and eight blanks, the keyword, the same
    again, the sign of the button, a line break and four blanks.  The
    keyword goes through [innerHTML]; the text is given for keywords the
    parser copies, and [None] stands for the others. *)
Definition textContent (keyword : jsstring) : option jsstring :=
  if htmlText keyword then
    Some (indent 8 ++ keyword ++ indent 8 ++ [times] ++ indent 4)
  else None.

(** [s.replace(c, '')] for a one-character string [c]: the first
    occurrence goes. *)
Fixpoint removeFirst (c : codeunit) (s : jsstring) : jsstring :=
  match s with
  | [] => []
  | x :: s' => if (x =? c)%N then s' else x :: removeFirst c s'
  end.

Fixpoint readTags (tags : list jsstring) : option (list jsstring) :=
  match tags with
  | [] => Some []
  | keyword :: rest =>
      match textContent keyword, readTags rest with
      | Some t, Some ks => Some (trim (removeFirst times t) :: ks)
      | _, _ => None
      end
  end.

(** [getKeywordsFromContainer()]. *)
Definition getKeywordsFromContainer (e : editor) : option (list jsstring) :=
  readTags (keywordsContainer e).

(** The user enters one keyword after the other. *)
Definition enter (keywords : list jsstring) (e : editor) : editor :=
  fold_left (fun e' keyword => add keyword e') keywords e.

(** A keyword that the parser copies and that holds no multiplication
    sign. *)
Definition clean (keyword : jsstring) : bool :=
  htmlText keyword && forallb (fun c => negb (c =? times)%N) keyword.

End KeywordEditor.

(** ** [admin_dashboard.js]: the tags of the keyword editor as elements

    [addKeywordToContainer] assigns a template with the keyword in it to
    [innerHTML], so the tag is what the HTML parser makes of the keyword.
    The parser is embedded for the markup that the template and a keyword
    of text, [<b>] and [</b>] give; other markup has no answer here. *)

Module KeywordTags.
Import KeywordEditor.

#[local] Unset Elimination Schemes.

(** A node of the document: a text node, or an element with its tag name,
    its class and its children. *)
Inductive node : Type :=
| TextNode (data : jsstring)
| Element (tagName : string) (className : string) (children : list node).

#[local] Set Elimination Schemes.

(** The start tag of the remove button, as the template of
    [addKeywordToContainer] spells it. *)
Definition buttonOpen : jsstring :=
  lit "<button type=" ++ quoted "button" ++ lit " class="
  ++ quoted "remove-keyword" ++ lit " onclick="
  ++ quoted "this.parentElement.remove()" ++ lit ">".

(** The template literal assigned to [keywordElement.innerHTML]. *)
Definition markup (keyword : jsstring) : jsstring :=
  indent 8 ++ keyword ++ indent 8 ++ buttonOpen ++ lit "&times;"
  ++ lit "</button>" ++ indent 4.

(** The tokens of the HTML tokenizer that this markup can hold when the
    keyword is text with [<b>] and [</b>] tags in it. *)
Inductive token : Type :=
| Character (c : codeunit)
| StartTagB
| EndTagB
| StartTagButton
| EndTagButton.

Definition literals : list (jsstring * token) :=
  [(lit "<b>", StartTagB); (lit "</b>", EndTagB);
   (buttonOpen, StartTagButton); (lit "</button>", EndTagButton);
   (lit "&times;", Character times)].

Fixpoint firstLiteral (ls : list (jsstring * token)) (s : jsstring)
  : option (nat * token) :=
  match ls with
  | [] => None
  | (l, t) :: ls' =>
      if startsWith s l then Some (length l, t) else firstLiteral ls' s
  end.

(** The tokenizer on this fragment of HTML; [skip] counts the characters
    of the current token that are still to be passed.  [None]: the markup
    holds a [<] or [&] that begins none of the literals, a carriage return
    or NUL, and is outside the fragment. *)
Fixpoint tokenize (s : jsstring) (skip : nat) : option (list token) :=
  match skip with
  | S n =>
      match s with
      | _ :: s' => tokenize s' n
      | [] => Some []
      end
  | O =>
      match s with
      | [] => Some []
      | c :: s' =>
          if ((c =? 60) || (c =? 38))%N then
            match firstLiteral literals s with
            | Some (len, t) => option_map (cons t) (tokenize s' (len - 1))
            | None => None
            end
          else if ((c =? 13) || (c =? 0))%N then None
          else option_map (cons (Character c)) (tokenize s' 0)
      end
  end.

(** An open element of the tree builder: its tag name, its class and the
    children inserted so far, the last one first. *)
Record frame : Type := mkFrame {
  frameTag : string;
  frameClass : string;
  built : list node
}.

(** A character goes to the text node that ends the children, or to a new
    text node. *)
Definition insertCharacter (c : codeunit) (f : frame) : frame :=
  match built f with
  | TextNode t :: before =>
      mkFrame (frameTag f) (frameClass f) (TextNode (t ++ [c]) :: before)
  | before => mkFrame (frameTag f) (frameClass f) (TextNode [c] :: before)
  end.

Definition insertNode (n : node) (f : frame) : frame :=
  mkFrame (frameTag f) (frameClass f) (n :: built f).

Definition close (f : frame) : node :=
  Element (frameTag f) (frameClass f) (rev (built f)).

(** At the end of the markup every open element is closed. *)
Fixpoint closeAll (top : frame) (below : list frame) : frame :=
  match below with
  | [] => top
  | f :: below' => closeAll (insertNode (close top) f) below'
  end.

(** The tree builder, "in body", on the tokens above: [top] is the current
    node and [below] the open elements around it.  A [b] element stays open
    until its end tag or the end of the markup; an end tag [</b>] with no
    [b] open is ignored.  Inside the button only characters and the end tag
    of the button are taken ([None] otherwise). *)
Fixpoint construct (ts : list token) (top : frame) (below : list frame)
  : option (list node) :=
  match ts with
  | [] => Some (rev (built (closeAll top below)))
  | t :: ts' =>
      let inButton := String.eqb (frameTag top) "button" in
      match t with
      | Character c => construct ts' (insertCharacter c top) below
      | StartTagB =>
          if inButton then None
          else construct ts' (mkFrame "b" "" []) (top :: below)
      | EndTagB =>
          if inButton then None
          else if String.eqb (frameTag top) "b" then
            match below with
            | f :: below' => construct ts' (insertNode (close top) f) below'
            | [] => None
            end
          else construct ts' top below
      | StartTagButton =>
          if inButton then None
          else construct ts' (mkFrame "button" "remove-keyword" [])
                         (top :: below)
      | EndTagButton =>
          if inButton then
            match below with
            | f :: below' => construct ts' (insertNode (close top) f) below'
            | [] => None
            end
          else None
      end
  end.

Definition isStartTagButton (t : token) : bool :=
  match t with
  | StartTagButton => true
  | _ => false
  end.

(** [keywordElement.innerHTML = markup]: the children the parser gives the
    [div], for markup of the fragment with one button. *)
Definition parseFragment (html : jsstring) : option (list node) :=
  match tokenize html 0 with
  | Some ts =>
      if length (filter isStartTagButton ts) <=? 1 then
        construct ts (mkFrame "div" "keyword-tag" []) []
      else None
  | None => None
  end.

(** [#keywordInput] and the children of [#keywordsContainer]. *)
Record dom : Type := mkDom {
  inputValue : jsstring;
  container : list node
}.

(** [addKeywordToContainer(keyword)]. *)
Definition addKeywordToContainer (keyword : jsstring) (d : dom)
  : option dom :=
  match parseFragment (markup keyword) with
  | Some children =>
      let keywordElement := Element "div" "keyword-tag" children in
      Some (mkDom (inputValue d) (container d ++ [keywordElement]))
  | None => None
  end.

(** The [keypress] listener of [#keywordInput]. *)
Definition keypress (k : key) (d : dom) : option dom :=
  match k with
  | Enter =>
      let keyword := trim (inputValue d) in
      if truthy keyword then
        match addKeywordToContainer keyword d with
        | Some d' => Some (mkDom [] (container d'))
        | None => None
        end
      else Some d
  | OtherKey => Some d
  end.

Definition isRemoveButton (n : node) : bool :=
  match n with
  | Element t c _ => String.eqb t "button" && String.eqb c "remove-keyword"
  | TextNode _ => false
  end.

Definition withChildren (n : node) (children : list node) : node :=
  match n with
  | Element t c _ => Element t c children
  | TextNode s => TextNode s
  end.

(** What a click on the remove button below a node does to the node:
    [this.parentElement.remove()] takes the node away when the button is its
    child, and changes its children when the parent of the button lies
    below it. *)
Inductive pressed : Type :=
| NoButton
| ParentGoes
| Rebuilt (children : list node).

Fixpoint press (n : node) : pressed :=
  match n with
  | TextNode _ => NoButton
  | Element _ _ children =>
      (fix within (l : list node) : pressed :=
         match l with
         | [] => NoButton
         | c :: rest =>
             if isRemoveButton c then ParentGoes
             else
               match press c with
               | ParentGoes => Rebuilt rest
               | Rebuilt sub => Rebuilt (withChildren c sub :: rest)
               | NoButton =>
                   match within rest with
                   | Rebuilt rest' => Rebuilt (c :: rest')
                   | other => other
                   end
               end
         end) children
  end.

Fixpoint replaceAt {A} (i : nat) (x : A) (l : list A) : list A :=
  match l, i with
  | [], _ => []
  | _ :: l', O => x :: l'
  | y :: l', S i' => y :: replaceAt i' x l'
  end.

(** A click on the remove button of the tag at position [index]. *)
Definition clickRemove (index : nat) (d : dom) : dom :=
  match nth_error (container d) index with
  | Some tag =>
      match press tag with
      | ParentGoes => mkDom (inputValue d) (removeAt index (container d))
      | Rebuilt sub =>
          mkDom (inputValue d)
                (replaceAt index (withChildren tag sub) (container d))
      | NoButton => d
      end
  | None => d
  end.

(** [node.textContent]. *)
Fixpoint textContent (n : node) : jsstring :=
  match n with
  | TextNode t => t
  | Element _ _ children => flat_map textContent children
  end.

Definition hasClass (cls : string) (n : node) : bool :=
  match n with
  | Element _ c _ => String.eqb c cls
  | TextNode _ => false
  end.

(** [getElementsByClassName(cls)] below a node, in tree order. *)
Fixpoint byClassName (cls : string) (n : node) : list node :=
  match n with
  | TextNode _ => []
  | Element _ _ children =>
      flat_map (fun c => (if hasClass cls c then [c] else [])
                         ++ byClassName cls c)
               children
  end.

(** [getKeywordsFromContainer()]. *)
Definition getKeywordsFromContainer (d : dom) : list jsstring :=
  map (fun tag => trim (removeFirst times (textContent tag)))
      (byClassName "keyword-tag"
         (Element "div" "keywords-container" (container d))).

(** The user types [keyword] and presses Enter. *)
Definition add (keyword : jsstring) (d : dom) : option dom :=
  keypress Enter (mkDom keyword (container d)).

(** The tag of a keyword that the parser copies as text. *)
Definition textTag (keyword : jsstring) : node :=
  Element "div" "keyword-tag"
    [TextNode (indent 8 ++ keyword ++ indent 8);
     Element "button" "remove-keyword" [TextNode [times]];
     TextNode (indent 4)].

(** "<b>x" entered into the empty editor, and the click on the remove
    button of its tag. *)
Definition boldEntered : option dom := add (lit "<b>x") (mkDom [] []).

Definition boldRemoved : option dom := option_map (clickRemove 0) boldEntered.

(** The tags of keywords that are text, for the editor that lists them. *)
Definition shows (e : editor) : dom :=
  mkDom (keywordInput e) (map textTag (keywordsContainer e)).

End KeywordTags.

(** ** [admin_dashboard.js]: the knowledge form *)

Module KnowledgeForm.

Definition API_BASE : jsstring := lit "http://localhost:8000".

(** The inputs of the form and the keyword editor. *)
Record form : Type := mkForm {
  knowledgeId : jsstring;
  knowledgeModule : jsstring;
  knowledgeQuestion : jsstring;
  knowledgeAnswer : jsstring;
  tags : KeywordEditor.editor
}.

Record formData : Type := mkFormData {
  module : jsstring;
  question : jsstring;
  answer : jsstring;
  keywords : list jsstring
}.

Inductive method : Type :=
| POST
| PUT.

Inductive alertType : Type :=
| success
| error.

(** What a listener does before its first [await]: requests with their
    JSON body, and alerts. *)
Inductive effect : Type :=
| Fetch (m : method) (url : jsstring) (body : formData)
| ShowAlert (message : jsstring) (type : alertType).

Definition readForm (f : form) : option formData :=
  match KeywordEditor.getKeywordsFromContainer (tags f) with
  | Some ks =>
      Some (mkFormData (knowledgeModule f) (knowledgeQuestion f)
                       (knowledgeAnswer f) ks)
  | None => None
  end.

(** The first [submit] listener of [#knowledgeForm]. *)
Definition submitListener1 (f : form) : option (list effect) :=
  match readForm f with
  | Some formData =>
      let itemId := knowledgeId f in
      if truthy itemId then
        Some [ShowAlert (lit "Update functionality coming soon!") error]
      else Some [Fetch POST (API_BASE ++ lit "/knowledge") formData]
  | None => None
  end.

(** The second [submit] listener, registered further down the script. *)
Definition submitListener2 (f : form) : option (list effect) :=
  match readForm f with
  | Some formData =>
      let itemId := knowledgeId f in
      if truthy itemId then
        Some [Fetch PUT (API_BASE ++ lit "/knowledge/" ++ itemId) formData]
      else Some [Fetch POST (API_BASE ++ lit "/knowledge") formData]
  | None => None
  end.

(** A [submit] event runs the listeners in the order of registration. *)
Definition submit (f : form) : option (list effect) :=
  match submitListener1 f, submitListener2 f with
  | Some e1, Some e2 => Some (e1 ++ e2)
  | _, _ => None
  end.

Definition isFetch (m : method) (e : effect) : bool :=
  match e, m with
  | Fetch POST _ _, POST => true
  | Fetch PUT _ _, PUT => true
  | _, _ => false
  end.

End KnowledgeForm.

(** ** [dashboard.js]: [safeFetch] *)

Module Api.

(** The exceptions that reach [safeFetch]: the [Error] objects the script
    builds itself, the [TypeError] with which [fetch] rejects when the
    network fails, and the [SyntaxError] with which [response.json()] rejects
    on a malformed body. *)
Inductive exn : Type :=
| Error (message : jsstring)
| TypeError (message : jsstring)
| SyntaxError (message : jsstring).

Definition message (e : exn) : jsstring :=
  match e with
  | Error m | TypeError m | SyntaxError m => m
  end.

(** A number inside a template literal. *)
Definition numberToString (n : Z) : jsstring :=
  lit (DecimalString.NilZero.string_of_int (Z.to_int n)).

Section SafeFetch.
(** Parsed JSON values. *)
Variable json : Type.

(** A response: its status, its [content-type] header ([None] when
    [headers.get] answers [null]) and what [response.json()] settles to. *)
Record response : Type := mkResponse {
  status : Z;
  contentType : option jsstring;
  body : exn + json
}.

(** [response.ok]. *)
Definition ok (r : response) : bool :=
  ((200 <=? status r) && (status r <=? 299))%Z.

(** What a call does, in order. *)
Inductive effect : Type :=
| CallFetch (url : jsstring)
| ReadHeader (name : jsstring)
| ParseJson
| ConsoleError (url : jsstring) (e : exn).

(** Computations that log their effects and either throw or return. *)
Definition M (A : Type) : Type := list effect * (exn + A).

Definition ret {A} (a : A) : M A := ([], inr a).
Definition throw {A} (e : exn) : M A := ([], inl e).
Definition tell (x : effect) : M unit := ([x], inr tt).
Definition bind {A B} (m : M A) (f : A -> M B) : M B :=
  match m with
  | (t, inl e) => (t, inl e)
  | (t, inr a) => let (t', r) := f a in (t ++ t', r)
  end.
Definition tryCatch {A} (m : M A) (h : exn -> M A) : M A :=
  match m with
  | (t, inl e) => let (t', r) := h e in (t ++ t', r)
  | (t, inr a) => (t, inr a)
  end.
Definition settle {A} (r : exn + A) : M A := ([], r).

(** The response declares a JSON content type. *)
Definition declaresJson (r : response) : bool :=
  match contentType r with
  | Some ct => includes ct (lit "application/json")
  | None => false
  end.

Notation "x <- m ;; f" := (bind m (fun x => f))
  (at level 61, m at next level, right associativity).
Notation "m ;;; f" := (bind m (fun _ => f))
  (at level 61, right associativity).

(** [safeFetch(url)], against what the network does with the request:
    [fetch] rejects, or resolves to a response. *)
Definition safeFetch (url : jsstring) (network : exn + response) : M json :=
  tryCatch
    (tell (CallFetch url) ;;;
     response <- settle network ;;
     if negb (ok response) then
       throw (Error (lit "HTTP error! status: "
                       ++ numberToString (status response)))
     else
       tell (ReadHeader (lit "content-type")) ;;;
       match contentType response with
       | Some ct =>
           if includes ct (lit "application/json") then
             tell ParseJson ;;; settle (body response)
           else throw (Error (lit "Response is not JSON"))
       | None => throw (Error (lit "Response is not JSON"))
       end)
    (fun error => tell (ConsoleError url error) ;;; throw error).
End SafeFetch.

End Api.

(** ** [dashboard.js]: the Vue application *)

Module Dashboard.

Inductive role : Type :=
| user
| ai.

(** The answer of [POST /chat]. *)
Record chatData : Type := mkChatData {
  answer : jsstring;
  source : jsstring;
  module : jsstring;
  detected_module : jsstring;
  confidence : Q
}.

Record ChatMessage : Type := mkMessage {
  id : Z;
  type : role;
  sender : jsstring;
  content : jsstring;
  provenance : option (jsstring * jsstring * jsstring * Q)
}.

(** The body of a chat request. *)
Record payload : Type := mkPayload {
  payloadQuestion : jsstring;
  payloadModule : jsstring
}.

Record stats : Type := mkStats {
  knowledgeCount : Z;
  trainingCount : Z;
  conversationCount : Z;
  aiStatus : bool
}.

(** Where a running [sendMessage] call is suspended. *)
Inductive suspended : Type :=
| AwaitFetch
| AwaitJson.

(** The reactive data of the application, together with the chat requests
    sent so far, the [sendMessage] calls that are suspended at an [await],
    and the number of conversation reloads that were triggered. *)
Record app : Type := mkApp {
  loading : bool;
  appStats : stats;
  userInput : jsstring;
  selectedModule : jsstring;
  messages : list ChatMessage;
  autoDetectModule : bool;
  chatRequests : list payload;
  running : list suspended;
  conversationReloads : nat
}.

Definition data : app :=
  mkApp false (mkStats 0 0 0 false) [] (lit "general") [] true [] [] 0.


(** The body of [GET /admin/stats]; a count may be missing. *)
Record statsData : Type := mkStatsData {
  knowledge_count : option Z;
  training_count : option Z;
  conversation_count : option Z
}.

Record ollamaStatus : Type := mkOllama {
  ollamaState : jsstring;
  deepseek_available : bool
}.

(** [x || 0] on a count. *)
Definition orZero (x : option Z) : Z :=
  match x with
  | Some v => v
  | None => 0
  end.

Definition setStats (s : stats) (a : app) : app :=
  mkApp (loading a) s (userInput a) (selectedModule a) (messages a)
        (autoDetectModule a) (chatRequests a) (running a)
        (conversationReloads a).

(** [loadStats] once [safeFetch] and [checkOllamaStatus] have settled. *)
Definition loadStats (fetched : Api.exn + statsData) (ollama : ollamaStatus)
           (a : app) : app :=
  match fetched with
  | inr d =>
      setStats
        (mkStats (orZero (knowledge_count d)) (orZero (training_count d))
                 (orZero (conversation_count d))
                 (JS.eqb (ollamaState ollama) (lit "running")
                  && deepseek_available ollama))
        a
  | inl _ => setStats (mkStats 0 0 0 false) a
  end.

(** [sendMessage] up to its first [await]; [now] is [Date.now()]. *)
Definition sendMessage (now : Z) (a : app) : app :=
  if negb (truthy (trim (userInput a))) || loading a then a
  else
    let userMessage :=
      mkMessage now user (lit "You") (trim (userInput a)) None in
    let currentInput := userInput a in
    let request :=
      mkPayload currentInput
                (if autoDetectModule a then lit "auto" else selectedModule a) in
    mkApp true (appStats a) [] (selectedModule a)
          (messages a ++ [userMessage]) (autoDetectModule a)
          (chatRequests a ++ [request]) (running a ++ [AwaitFetch])
          (conversationReloads a).

Fixpoint setNth {A} (i : nat) (x : A) (l : list A) : list A :=
  match l, i with
  | [], _ => []
  | _ :: l', O => x :: l'
  | y :: l', S i' => y :: setNth i' x l'
  end.

(** The [finally] block, which ends the call. *)
Definition finish (i : nat) (msgs : list ChatMessage) (reloads : nat)
           (a : app) : app :=
  mkApp false (appStats a) (userInput a) (selectedModule a) msgs
        (autoDetectModule a) (chatRequests a)
        (KeywordEditor.removeAt i (running a)) reloads.

(** [fetch] resolves for the call at position [i]: it goes on to
    [await response.json()]. *)
Definition fetchResolved (i : nat) (a : app) : app :=
  match nth_error (running a) i with
  | Some AwaitFetch =>
      mkApp (loading a) (appStats a) (userInput a) (selectedModule a)
            (messages a) (autoDetectModule a) (chatRequests a)
            (setNth i AwaitJson (running a)) (conversationReloads a)
  | _ => a
  end.

(** [response.json()] resolves for the call at position [i]. *)
Definition jsonResolved (i : nat) (d : chatData) (now : Z) (a : app) : app :=
  match nth_error (running a) i with
  | Some AwaitJson =>
      let aiMessage :=
        mkMessage (now + 1) ai (lit "AI Assistant") (answer d)
                  (Some (source d, module d, detected_module d, confidence d)) in
      finish i (messages a ++ [aiMessage]) (S (conversationReloads a)) a
  | _ => a
  end.

(** Either [await] of the call at position [i] throws, or the answer
    cannot be read from the body: the [catch] block. *)
Definition rejected (i : nat) (now : Z) (a : app) : app :=
  match nth_error (running a) i with
  | Some _ =>
      let errorMessage :=
        mkMessage (now + 1) ai (lit "System")
                  (lit "Sorry, I encountered an error. Please try again.")
                  None in
      finish i (messages a ++ [errorMessage]) (conversationReloads a) a
  | None => a
  end.

Definition setUserInput (text : jsstring) (a : app) : app :=
  mkApp (loading a) (appStats a) text (selectedModule a) (messages a)
        (autoDetectModule a) (chatRequests a) (running a)
        (conversationReloads a).

Definition setModule (m : jsstring) (auto : bool) (a : app) : app :=
  mkApp (loading a) (appStats a) (userInput a) m (messages a) auto
        (chatRequests a) (running a) (conversationReloads a).

(** What can happen to the application. *)
Inductive event : Type :=
| Typed (text : jsstring)
| ModuleChosen (m : jsstring) (auto : bool)
| SendClicked (now : Z)
| FetchResolved (i : nat)
| JsonResolved (i : nat) (d : chatData) (now : Z)
| Rejected (i : nat) (now : Z)
| StatsLoaded (fetched : Api.exn + statsData) (ollama : ollamaStatus).

Definition step (e : event) (a : app) : app :=
  match e with
  | Typed text => setUserInput text a
  | ModuleChosen m auto => setModule m auto a
  | SendClicked now => sendMessage now a
  | FetchResolved i => fetchResolved i a
  | JsonResolved i d now => jsonResolved i d now a
  | Rejected i now => rejected i now a
  | StatsLoaded fetched ollama => loadStats fetched ollama a
  end.

Inductive reachable : app -> Prop :=
| reach_data : reachable data
| reach_step e a : reachable a -> reachable (step e a).

(** The loading flag is set exactly while one call is suspended. *)
Definition oneAtATime (a : app) : Prop :=
  (loading a = true /\ exists ph, running a = [ph])
  \/ (loading a = false /\ running a = []).

(** The events that end a suspended call. *)
Definition settles (e : event) : bool :=
  match e with
  | JsonResolved _ _ _ | Rejected _ _ => true
  | _ => false
  end.

Definition isUser (m : ChatMessage) : bool :=
  match type m with
  | user => true
  | ai => false
  end.

(** A sample state: "hello" typed and sent, the answer not yet there. *)
Definition helloSent : app :=
  step (SendClicked 100) (step (Typed (lit "hello")) data).

(** A sample answer of the chat service. *)
Definition helloAnswer : chatData :=
  mkChatData (lit "Hi there") (lit "knowledge_base") (lit "general")
             (lit "general") (9 # 10)%Q.

(** The turns of a conversation: [n] questions with their answers, and one
    more question when an answer is pending. *)
Fixpoint dialogue (n : nat) (pending : bool) : list role :=
  match n with
  | O => if pending then [user] else []
  | S n' => user :: ai :: dialogue n' pending
  end.

(** [s.split(sep)] for a separator of one character. *)
Fixpoint split (sep : codeunit) (s : jsstring) : list jsstring :=
  match s with
  | [] => [[]]
  | c :: s' =>
      if (c =? sep)%N then [] :: split sep s'
      else
        match split sep s' with
        | piece :: rest => (c :: piece) :: rest
        | [] => [[c]]
        end
  end.

Definition comma : codeunit := 44%N.

(** The form of the knowledge tab, and the body [addKnowledgeItem] posts. *)
Record newKnowledge : Type := mkNewKnowledge {
  newModule : jsstring;
  newQuestion : jsstring;
  newAnswer : jsstring;
  newKeywords : jsstring
}.

Record knowledgePayload : Type := mkKnowledgePayload {
  postedModule : jsstring;
  postedQuestion : jsstring;
  postedAnswer : jsstring;
  postedKeywords : list jsstring
}.

Definition addKnowledgeItemPayload (k : newKnowledge) : knowledgePayload :=
  mkKnowledgePayload
    (newModule k) (newQuestion k) (newAnswer k)
    (if truthy (newKeywords k) then map trim (split comma (newKeywords k))
     else []).

(** An object with numbers as values: its own properties. *)
Definition object : Type := list (jsstring * Z).

Fixpoint objGet (k : jsstring) (o : object) : option Z :=
  match o with
  | [] => None
  | (k', v) :: o' => if JS.eqb k' k then Some v else objGet k o'
  end.

Fixpoint objSet (k : jsstring) (v : Z) (o : object) : object :=
  match o with
  | [] => [(k, v)]
  | (k', v') :: o' =>
      if JS.eqb k' k then (k', v) :: o' else (k', v') :: objSet k v o'
  end.

Definition objTotal (o : object) : Z :=
  fold_right (fun kv acc => (snd kv + acc)%Z) 0%Z o.

(** The properties every object inherits from [Object.prototype]; a read of
    one of them on an empty object does not give [undefined]. *)
Definition objectPrototypeKeys : list jsstring :=
  map lit ["constructor"; "__defineGetter__"; "__defineSetter__";
           "hasOwnProperty"; "__lookupGetter__"; "__lookupSetter__";
           "isPrototypeOf"; "propertyIsEnumerable"; "toString"; "valueOf";
           "__proto__"; "toLocaleString"]%string.

Definition inherited (k : jsstring) : bool :=
  existsb (JS.eqb k) objectPrototypeKeys.

Section Breakdown.
Variable item : Type.
Variable itemModule : item -> jsstring.

(** [breakdown[item.module] = (breakdown[item.module] || 0) + 1]. *)
Definition countItem (breakdown : object) (it : item) : object :=
  objSet (itemModule it) (orZero (objGet (itemModule it) breakdown) + 1)
         breakdown.

(** The computed property [moduleBreakdown], for items whose modules are
    not names of inherited properties; [None] stands for the others.  The
    keys are kept in the order of their first item; JavaScript lists keys
    that are array indices first, which [objGet] and [objTotal] do not
    see. *)
Definition moduleBreakdown (knowledgeItems : list item) : option object :=
  if existsb (fun it => inherited (itemModule it)) knowledgeItems then None
  else Some (fold_left countItem knowledgeItems []).

(** The number of items of a module. *)
Definition itemsOf (m : jsstring) (knowledgeItems : list item) : Z :=
  Z.of_nat (length (filter (fun it => JS.eqb (itemModule it) m)
                           knowledgeItems)).

(** The object holds the counts of the items of [l]. *)
Definition counted (o : object) (l : list item) : Prop :=
  (forall m, objGet m o
             = if (itemsOf m l =? 0)%Z then None
               else Some (itemsOf m l))
  /\ objTotal o = Z.of_nat (length l)
  /\ NoDup (map fst o).
End Breakdown.

(** The object [checkOllamaStatus] answers with when anything fails. *)
Definition ollamaUnreachable : ollamaStatus := mkOllama (lit "error") false.

Definition API_BASE : jsstring := lit "http://localhost:5000".





(** [checkOllamaStatus()], against what the network does with its
    request. *)
Definition checkOllamaStatus (network : Api.exn + Api.response ollamaStatus)
  : Api.M ollamaStatus :=
  Api.tryCatch
    (Api.bind (Api.tell (Api.CallFetch (API_BASE ++ lit "/ollama/status")))
       (fun _ =>
          Api.bind (Api.settle network)
            (fun response =>
               if negb (Api.ok response) then
                 Api.throw
                   (Api.Error (lit "HTTP error! status: "
                                 ++ Api.numberToString (Api.status response)))
               else
                 Api.bind (Api.tell Api.ParseJson)
                          (fun _ => Api.settle (Api.body response)))))
    (fun error =>
       Api.bind
         (Api.tell (Api.ConsoleError (lit "Error checking Ollama status:")
                                     error))
         (fun _ => Api.ret ollamaUnreachable)).

(** The whole of [loadStats()]: [safeFetch], then [checkOllamaStatus], then
    the assignment of the stats; the [catch] block logs and assigns
    zeros. *)
Definition runLoadStats (statsNetwork : Api.exn + Api.response statsData)
           (ollamaNetwork : Api.exn + Api.response ollamaStatus) (a : app)
  : list Api.effect * app :=
  let failed t e :=
    (t ++ [Api.ConsoleError (lit "Error loading stats:") e],
     loadStats (inl e) ollamaUnreachable a) in
  match Api.safeFetch (API_BASE ++ lit "/admin/stats") statsNetwork with
  | (t, inr statsData) =>
      match checkOllamaStatus ollamaNetwork with
      | (t', inr ollama) => (t ++ t', loadStats (inr statsData) ollama a)
      | (t', inl e) => failed (t ++ t') e
      end
  | (t, inl e) => failed t e
  end.

End Dashboard.

(** * Properties *)

Import Formatter.

(** ** Strings *)

Section StringFacts.

Lemma trimStart_nil_iff (s : jsstring) :
  trimStart s = [] <-> forallb isWhiteSpace s = true.
Proof.
  induction s as [|c s IH]; simpl.
  - tauto.
  - destruct (isWhiteSpace c) eqn:E; simpl.
    + exact IH.
    + split; discriminate.
Qed.

Lemma trimStart_head (s : jsstring) :
  match trimStart s with
  | [] => True
  | c :: _ => isWhiteSpace c = false
  end.
Proof.
  induction s as [|c s IH]; simpl; auto.
  destruct (isWhiteSpace c) eqn:E; auto.
Qed.

Lemma trimStart_suffix (s : jsstring) :
  exists pad, s = pad ++ trimStart s /\ forallb isWhiteSpace pad = true.
Proof.
  induction s as [|c s (pad & E & W)]; simpl.
  - exists []; auto.
  - destruct (isWhiteSpace c) eqn:C.
    + exists (c :: pad); simpl; rewrite C, W; split; [f_equal; exact E | reflexivity].
    + exists []; auto.
Qed.

Lemma forallb_rev {A} (f : A -> bool) (l : list A) :
  forallb f (rev l) = forallb f l.
Proof.
  induction l as [|x l IH]; simpl; auto.
  rewrite forallb_app, IH; simpl.
  rewrite andb_true_r, andb_comm; reflexivity.
Qed.

(** A string trims to nothing exactly when it is made of white space. *)
Lemma trim_nil_iff (s : jsstring) :
  trim s = [] <-> forallb isWhiteSpace s = true.
Proof.
  unfold trim, trimEnd. split.
  - intros H.
    assert (E : trimStart (rev (trimStart s)) = []).
    { apply (f_equal (@rev _)) in H. rewrite rev_involutive in H.
      exact H. }
    apply trimStart_nil_iff in E. rewrite forallb_rev in E.
    pose proof (trimStart_head s) as Hd.
    destruct (trimStart s) as [|c t] eqn:T.
    + now apply trimStart_nil_iff.
    + simpl in E. rewrite Hd in E. discriminate.
  - intros H. apply trimStart_nil_iff in H. rewrite H. reflexivity.
Qed.

Lemma trimStart_pad (pad s : jsstring) :
  forallb isWhiteSpace pad = true -> trimStart (pad ++ s) = trimStart s.
Proof.
  induction pad as [|c pad IH]; simpl; auto.
  intros H. apply andb_prop in H as [C W]. rewrite C. auto.
Qed.

(** [trim] removes the white space around a core that neither starts nor
    ends with white space. *)
Lemma trim_core (l r core : jsstring) (a b : codeunit) (mid : jsstring) :
  forallb isWhiteSpace l = true ->
  forallb isWhiteSpace r = true ->
  core = a :: mid ->
  last core a = b ->
  isWhiteSpace a = false ->
  isWhiteSpace b = false ->
  trim (l ++ core ++ r) = core.
Proof.
  intros Hl Hr Hc Hb Ha Hb'.
  unfold trim, trimEnd.
  rewrite trimStart_pad by assumption.
  assert (E1 : trimStart (core ++ r) = core ++ r).
  { subst core. simpl. rewrite Ha. reflexivity. }
  rewrite E1, rev_app_distr.
  rewrite trimStart_pad by (rewrite forallb_rev; assumption).
  assert (E2 : exists t, rev core = b :: t).
  { assert (core <> []) as NE by (subst core; discriminate).
    destruct (exists_last NE) as (t & z & E).
    rewrite E in Hb. rewrite last_last in Hb. subst z.
    exists (rev t). rewrite E, rev_app_distr. reflexivity. }
  destruct E2 as (t & E2).
  assert (E3 : trimStart (rev core) = rev core).
  { rewrite E2. simpl. rewrite Hb'. reflexivity. }
  rewrite E3. apply rev_involutive.
Qed.

Lemma eqb_eq (a b : jsstring) : JS.eqb a b = true <-> a = b.
Proof.
  revert b; induction a as [|x a IH]; intros [|y b]; simpl;
    try (split; (reflexivity || discriminate)).
  rewrite andb_true_iff, N.eqb_eq, IH.
  split; [intros [-> ->]; reflexivity | intros E; inversion E; auto].
Qed.

Lemma stripPrefix_Some (q s rest : jsstring) :
  stripPrefix q s = Some rest <-> s = q ++ rest.
Proof.
  revert s; induction q as [|x q IH]; intros s; simpl.
  - split; [intros E; inversion E; reflexivity | intros ->; reflexivity].
  - destruct s as [|y s].
    + split; discriminate.
    + destruct (N.eqb_spec x y) as [->|NE].
      * rewrite IH. split; [intros ->; reflexivity | intros E; inversion E; auto].
      * split; [discriminate | intros E; inversion E; congruence].
Qed.

Lemma stripPrefix_app (q rest : jsstring) : stripPrefix q (q ++ rest) = Some rest.
Proof. now apply stripPrefix_Some. Qed.

Lemma startsWith_iff (s q : jsstring) :
  startsWith s q = true <-> exists post, s = q ++ post.
Proof.
  unfold startsWith. destruct (stripPrefix q s) as [rest|] eqn:E.
  - apply stripPrefix_Some in E. split; eauto.
  - split; [discriminate|]. intros (post & H).
    apply stripPrefix_Some in H. congruence.
Qed.

(** [includes] decides occurrence. *)
Lemma includes_iff (s q : jsstring) :
  includes s q = true <-> occursIn q s.
Proof.
  induction s as [|c s IH]; simpl; rewrite orb_true_iff, startsWith_iff.
  - split.
    + intros [(post & H)|H]; [|discriminate]. exists [], post. exact H.
    + intros (pre & post & H). left.
      destruct pre; simpl in H; [eauto | discriminate].
  - rewrite IH. split.
    + intros [(post & H)|(pre & post & H)].
      * exists [], post. exact H.
      * exists (c :: pre), post. simpl. congruence.
    + intros ([|x pre] & post & H); simpl in H.
      * left; eauto.
      * right. inversion H. exists pre, post. reflexivity.
Qed.

End StringFacts.

(** ** The keyword editor *)

Section KeywordEditorFacts.
Import KeywordEditor.

Lemma removeAt_firstn_skipn {A} (i : nat) (l : list A) :
  removeAt i l = firstn i l ++ skipn (S i) l.
Proof.
  revert i; induction l as [|x l IH]; intros [|i]; simpl; auto.
  now rewrite IH.
Qed.

Lemma add_blank (e : editor) (keyword : jsstring) :
  forallb isWhiteSpace keyword = true -> add keyword e = mkEditor keyword (keywordsContainer e).
Proof.
  intros H. apply trim_nil_iff in H. unfold add, keypress; simpl.
  rewrite H. reflexivity.
Qed.

Lemma add_keyword (e : editor) (keyword : jsstring) :
  forallb isWhiteSpace keyword = false ->
  add keyword e = mkEditor [] (keywordsContainer e ++ [trim keyword]).
Proof.
  intros H. unfold add, keypress; simpl.
  destruct (trim keyword) eqn:T.
  - apply trim_nil_iff in T. congruence.
  - reflexivity.
Qed.

End KeywordEditorFacts.

(** ** [safeFetch] *)

Section SafeFetchFacts.
Import Api.

Variable json : Type.

Let httpError (r : response json) : exn :=
  Error (lit "HTTP error! status: " ++ numberToString (status r)).
Let notJson : exn := Error (lit "Response is not JSON").

(** What [safeFetch] does in each of its five cases. *)
Lemma safeFetch_cases (url : jsstring) (network : exn + response json) :
  safeFetch url network =
  match network with
  | inl e => ([CallFetch url; ConsoleError url e], inl e)
  | inr r =>
      if negb (ok r) then
        ([CallFetch url; ConsoleError url (httpError r)], inl (httpError r))
      else if declaresJson r then
        match body r with
        | inl e =>
            ([CallFetch url; ReadHeader (lit "content-type"); ParseJson;
              ConsoleError url e], inl e)
        | inr v =>
            ([CallFetch url; ReadHeader (lit "content-type"); ParseJson],
             inr v)
        end
      else
        ([CallFetch url; ReadHeader (lit "content-type");
          ConsoleError url notJson], inl notJson)
  end.
Proof.
  unfold safeFetch, declaresJson, httpError, notJson.
  destruct network as [e|r]; [reflexivity|].
  unfold settle, bind at 1 2; cbn [tell].
  destruct (ok r); cbn [negb]; [|reflexivity].
  destruct (contentType r) as [ct|]; [|reflexivity].
  destruct (includes ct (lit "application/json")); [|reflexivity].
  destruct (body r); reflexivity.
Qed.

(** C4, as the script has it: the status is checked before anything is
    parsed and the content type before the JSON is parsed; a status outside
    200-299 and a content type that is not JSON each throw an [Error] with a
    message; a network failure and a malformed body throw the exception of
    [fetch] or of [response.json()] itself; every exception is logged and
    thrown again unchanged, and each carries a message. *)
Theorem safeFetch_failures (url : jsstring) (network : exn + response json) :
  let trace := fst (safeFetch url network) in
  let result := snd (safeFetch url network) in
  (In ParseJson trace ->
     exists r, network = inr r /\ ok r = true /\ declaresJson r = true
               /\ result = body r)
  /\ (forall e, network = inl e -> result = inl e)
  /\ (forall r, network = inr r -> ok r = false ->
         result = inl (Error (lit "HTTP error! status: "
                                ++ numberToString (status r)))
         /\ ~ In (ReadHeader (lit "content-type")) trace)
  /\ (forall r, network = inr r -> ok r = true -> declaresJson r = false ->
         result = inl (Error (lit "Response is not JSON")))
  /\ (forall e, result = inl e ->
         last trace (CallFetch url) = ConsoleError url e
         /\ exists m, message e = m).
Proof.
  cbv zeta. rewrite safeFetch_cases.
  destruct network as [e|r];
    [|destruct (ok r) eqn:O; cbn [negb];
      [destruct (declaresJson r) eqn:D; [destruct (body r) as [e|v] eqn:B|]|]];
    cbn [fst snd];
    (split; [|split; [|split; [|split]]]).
  all: try (intros e' E; inversion E; subst; reflexivity).
  all: try (intros r' E; inversion E; subst; intros; congruence).
  all: try (intros r' E; discriminate E).
  all: try (intros H; simpl in H; exfalso;
            repeat (destruct H as [H|H]; [discriminate H|]); exact H).
  all: try (intros _; exists r; rewrite ?B; auto).
  all: try (intros e' E; inversion E; subst; split; [reflexivity|solve [eauto]]).
  all: try (intros e' E; discriminate E).
  - intros r' E O'. inversion E; subst. split; [reflexivity|].
    intros H; simpl in H.
    repeat (destruct H as [H|H]; [discriminate H|]); exact H.
Qed.

End SafeFetchFacts.

Lemma safeFetch_failures_witness :
  snd (Api.safeFetch (lit "/admin/stats")
         (inr (Api.mkResponse 404 None (inr 0%Z))))
  = inl (Api.Error (lit "HTTP error! status: 404")).
Proof.
  destruct (safeFetch_failures (lit "/admin/stats")
              (inr (Api.mkResponse 404 None (inr 0%Z))))
    as (_ & _ & H & _).
  exact (proj1 (H _ eq_refl eq_refl)).
Defined.

(** A network failure reaches the caller as the [TypeError] of [fetch], and a
    malformed body as the [SyntaxError] of [response.json()]: neither is
    wrapped into an error of the script's own. *)
Lemma safeFetch_raw_exception :
  snd (Api.safeFetch (json:=Z) (lit "/admin/stats")
         (inl (Api.TypeError (lit "Failed to fetch"))))
  = inl (Api.TypeError (lit "Failed to fetch"))
  /\ snd (Api.safeFetch (json:=Z) (lit "/admin/stats")
            (inr (Api.mkResponse 200 (Some (lit "application/json"))
                    (inl (Api.SyntaxError (lit "Unexpected token <"))))))
     = inl (Api.SyntaxError (lit "Unexpected token <"))
  /\ (forall m, Api.TypeError (lit "Failed to fetch") <> Api.Error m)
  /\ (forall m, Api.SyntaxError (lit "Unexpected token <") <> Api.Error m).
Proof.
  repeat split; try reflexivity; intros m; discriminate.
Qed.

(** ** The chat of the Vue application *)

Section ChatFacts.
Import Dashboard.



(** C9: when the input is empty or made of white space only, [sendMessage]
    changes nothing: no message, no request, the same input and the same
    loading flag. *)
Theorem sendMessage_blank_input (now : Z) (a : app) :
  forallb isWhiteSpace (userInput a) = true ->
  sendMessage now a = a
  /\ messages (sendMessage now a) = messages a
  /\ chatRequests (sendMessage now a) = chatRequests a
  /\ userInput (sendMessage now a) = userInput a
  /\ loading (sendMessage now a) = loading a.
Proof.
  intros H. apply trim_nil_iff in H.
  assert (E : sendMessage now a = a).
  { unfold sendMessage. rewrite H. reflexivity. }
  rewrite E. auto.
Qed.

Lemma sendMessage_blank_input_witness :
  sendMessage 7 (setUserInput (lit "  ") data) = setUserInput (lit "  ") data.
Proof.
  exact (proj1 (sendMessage_blank_input 7 (setUserInput (lit "  ") data) eq_refl)).
Defined.


Lemma oneAtATime_step (e : event) (a : app) :
  oneAtATime a -> oneAtATime (step e a).
Proof.
  unfold oneAtATime.
  intros [(L & ph & R)|(L & R)]; destruct e; cbn [step]; auto.
  - left; simpl; eauto.
  - left; simpl; eauto.
  - (* send while loading *)
    unfold sendMessage. rewrite L, orb_true_r. eauto.
  - unfold fetchResolved. rewrite R.
    destruct i as [|[|i]]; simpl; eauto.
    destruct ph; simpl; rewrite ?R; simpl; eauto.
  - unfold jsonResolved. rewrite R.
    destruct i as [|[|i]]; simpl; eauto.
    destruct ph; simpl; rewrite ?R; simpl; eauto.
  - unfold rejected. rewrite R.
    destruct i as [|[|i]]; simpl; rewrite ?R; simpl; eauto.
  - destruct fetched; simpl; eauto.
  - unfold sendMessage. rewrite L, orb_false_r.
    destruct (truthy (trim (userInput a))); simpl; rewrite ?R; simpl; eauto.
  - unfold fetchResolved. rewrite R. destruct i; simpl; auto.
  - unfold jsonResolved. rewrite R. destruct i; simpl; auto.
  - unfold rejected. rewrite R. destruct i; simpl; auto.
  - destruct fetched; simpl; eauto.
Qed.

Lemma reachable_oneAtATime (a : app) : reachable a -> oneAtATime a.
Proof.
  induction 1 as [|e a _ IH].
  - right; split; reflexivity.
  - now apply oneAtATime_step.
Qed.

Lemma sendMessage_loading (now : Z) (a : app) :
  loading a = true -> sendMessage now a = a.
Proof.
  intros L. unfold sendMessage. rewrite L, orb_true_r. reflexivity.
Qed.

Lemma sendMessage_idle (now : Z) (a : app) :
  loading a = false -> truthy (trim (userInput a)) = true ->
  sendMessage now a =
  mkApp true (appStats a) [] (selectedModule a)
        (messages a ++ [mkMessage now user (lit "You") (trim (userInput a)) None])
        (autoDetectModule a)
        (chatRequests a
           ++ [mkPayload (userInput a)
                 (if autoDetectModule a then lit "auto" else selectedModule a)])
        (running a ++ [AwaitFetch]) (conversationReloads a).
Proof.
  intros L T. unfold sendMessage. rewrite L, T. reflexivity.
Qed.

Lemma step_while_loading (e : event) (a : app) (ph : suspended) :
  loading a = true -> running a = [ph] ->
  (settles e = false /\ loading (step e a) = true
   /\ chatRequests (step e a) = chatRequests a
   /\ messages (step e a) = messages a)
  \/ (settles e = true /\ step e a = a)
  \/ (settles e = true
      /\ exists m n, isUser m = false
                     /\ step e a = finish 0 (messages a ++ [m]) n a).
Proof.
  intros L P. destruct e; cbn [step settles].
  - left. simpl. auto.
  - left. simpl. auto.
  - left. rewrite sendMessage_loading by assumption. auto.
  - left. unfold fetchResolved. rewrite P.
    destruct i as [|[|i]]; simpl; auto. destruct ph; simpl; auto.
  - right. unfold jsonResolved. rewrite P.
    destruct i as [|[|i]]; simpl; auto. destruct ph; simpl; auto.
    right. split; [reflexivity|]. eexists _, _. split; [|reflexivity].
    reflexivity.
  - right. unfold rejected. rewrite P.
    destruct i as [|[|i]]; simpl; auto.
    right. split; [reflexivity|]. eexists _, _. split; [|reflexivity].
    reflexivity.
  - left. destruct fetched; simpl; auto.
Qed.

(** C8: in every state the application can reach, while the loading flag is
    set exactly one chat request is outstanding and a further send is
    rejected: [sendMessage] changes nothing.  No event issues a request or
    appends a user message, and the flag stays set, until an event settles
    the outstanding call.  When the pending request resolves (its [fetch]
    resolves if it is still awaited and then the body arrives) or one of its
    awaits throws, the reply is appended and the flag is cleared, and the
    next send with a non-blank input appends its message and issues its
    request. *)
Theorem send_rejected_while_loading (a : app) :
  reachable a -> loading a = true ->
  (exists ph, running a = [ph])
  /\ (forall now, sendMessage now a = a)
  /\ (forall e,
        chatRequests (step e a) = chatRequests a
        /\ filter isUser (messages (step e a)) = filter isUser (messages a)
        /\ (settles e = false -> loading (step e a) = true)
        /\ (settles e = true -> step e a <> a ->
            loading (step e a) = false
            /\ running (step e a) = []
            /\ forall now text,
                truthy (trim text) = true ->
                let a' := sendMessage now (setUserInput text (step e a)) in
                messages a'
                = messages (step e a)
                  ++ [mkMessage now user (lit "You") (trim text) None]
                /\ length (chatRequests a') = S (length (chatRequests a))
                /\ loading a' = true))
  /\ (forall settled,
        (exists now, settled = step (Rejected 0 now) a)
        \/ (exists d now,
              settled
              = step (JsonResolved 0 d now) (step (FetchResolved 0) a)) ->
        loading settled = false
        /\ running settled = []
        /\ (exists reply, isUser reply = false
                          /\ messages settled = messages a ++ [reply])
        /\ chatRequests settled = chatRequests a
        /\ forall now text,
             truthy (trim text) = true ->
             let a' := sendMessage now (setUserInput text settled) in
             messages a'
             = messages settled
               ++ [mkMessage now user (lit "You") (trim text) None]
             /\ length (chatRequests a') = S (length (chatRequests a))
             /\ loading a' = true).
Proof.
  intros R L.
  destruct (reachable_oneAtATime R) as [(_ & ph & P)|(L' & _)]; [|congruence].
  split; [eauto|]. split; [intros; now apply sendMessage_loading|].
  split.
  - intros e.
    destruct (@step_while_loading e a ph L P)
      as [(S & L1 & C1 & M1)|[(S & E)|(S & m & n & U & E)]].
    + rewrite S, L1, C1, M1. repeat split; auto; discriminate.
    + rewrite S, E. split; [reflexivity|]. split; [reflexivity|].
      split; [discriminate|]. intros _ NE; now elim NE.
    + rewrite S, E. cbn [finish chatRequests messages loading running].
      rewrite P. split; [reflexivity|]. split.
      { rewrite filter_app. simpl. rewrite U. apply app_nil_r. }
      split; [discriminate|]. intros _ _.
      split; [reflexivity|]. split; [reflexivity|].
      intros now text T. cbv zeta.
      rewrite sendMessage_idle by (simpl; auto). simpl.
      rewrite length_app, Nat.add_comm. auto.
  - intros settled H.
    assert (E : exists m n, isUser m = false
                            /\ settled = finish 0 (messages a ++ [m]) n a).
    { destruct H as [(now & ->)|(d & now & ->)]; cbn [step].
      - unfold rejected. rewrite P. cbn [nth_error].
        eexists _, _. split; [|reflexivity]. reflexivity.
      - unfold fetchResolved, jsonResolved. rewrite P. cbn [nth_error].
        destruct ph; cbn [running setNth nth_error messages];
          rewrite ?P; cbn [setNth nth_error];
          (eexists _, _; split;
           [|unfold finish; cbn; rewrite ?P; reflexivity]);
          reflexivity. }
    destruct E as (m & n & U & ->).
    cbn [finish chatRequests messages loading running]. rewrite P.
    split; [reflexivity|]. split; [reflexivity|].
    split; [exists m; auto|]. split; [reflexivity|].
    intros now text T. cbv zeta.
    rewrite sendMessage_idle by (simpl; auto). simpl.
    rewrite length_app, Nat.add_comm. auto.
Qed.

Lemma reachable_helloSent : reachable helloSent.
Proof. unfold helloSent. repeat apply reach_step. apply reach_data. Qed.

Lemma send_rejected_while_loading_witness :
  sendMessage 101 (step (Typed (lit "again")) helloSent)
  = step (Typed (lit "again")) helloSent
  /\ loading (step (Rejected 0 102) helloSent) = false
  /\ map content
         (messages
            (sendMessage 103
               (setUserInput (lit " again ")
                  (step (JsonResolved 0 helloAnswer 102)
                        (step (FetchResolved 0) helloSent)))))
     = [lit "hello"; lit "Hi there"; lit "again"].
Proof.
  split; [|split].
  - apply (@send_rejected_while_loading
             (step (Typed (lit "again")) helloSent)).
    + apply reach_step. apply reachable_helloSent.
    + reflexivity.
  - apply (@send_rejected_while_loading helloSent reachable_helloSent eq_refl).
    left. exists 102%Z. reflexivity.
  - destruct (@send_rejected_while_loading helloSent reachable_helloSent
                eq_refl) as (_ & _ & _ & H).
    destruct (H (step (JsonResolved 0 helloAnswer 102)
                      (step (FetchResolved 0) helloSent)))
      as (_ & _ & _ & _ & S).
    + right. exists helloAnswer, 102%Z. reflexivity.
    + destruct (S 103%Z (lit " again ") eq_refl) as (M & _).
      rewrite M. reflexivity.
Defined.

End ChatFacts.

(** ** The knowledge table *)

Section TableFacts.
Import Admin.

Lemma ceilDiv_10 (n : Z) : ceilDiv n itemsPerPage = ((n + 9) / 10)%Z.
Proof.
  unfold ceilDiv, itemsPerPage, Qceiling, Qfloor, Qdiv, Qinv, Qmult, Qopp,
    inject_Z; simpl.
  rewrite Z.mul_1_r.
  pose proof (Z.div_mod (- n) 10 ltac:(lia)) as D1.
  pose proof (Z.mod_pos_bound (- n) 10 ltac:(lia)) as B1.
  pose proof (Z.div_mod (n + 9) 10 ltac:(lia)) as D2.
  pose proof (Z.mod_pos_bound (n + 9) 10 ltac:(lia)) as B2.
  lia.
Qed.

Lemma slice_segment {A} (a : list A) (i p : nat) :
  slice a (Z.of_nat i) (Z.of_nat i + Z.of_nat p) = segment a i (i + p).
Proof.
  unfold slice, segment, relIndex.
  replace (i + p - i) with p by lia.
  destruct (Z.ltb_spec (Z.of_nat i) 0); [lia|].
  destruct (Z.ltb_spec (Z.of_nat i + Z.of_nat p) 0); [lia|].
  destruct (Nat.le_gt_cases (length a) i) as [Hge|Hlt].
  - rewrite Z.min_r by lia. rewrite Z.min_r by lia.
    rewrite Z.sub_diag. change (Z.to_nat (Z.max 0 0)) with 0.
    rewrite firstn_0, skipn_all2 by lia. now rewrite firstn_nil.
  - rewrite (Z.min_l (Z.of_nat i)) by lia. rewrite Nat2Z.id.
    destruct (Nat.le_gt_cases (i + p) (length a)) as [Hfit|Hcut].
    + rewrite Z.min_l by lia. f_equal. lia.
    + rewrite Z.min_r by lia.
      rewrite !firstn_all2; auto; rewrite length_skipn; lia.
Qed.

Lemma nth_error_segment {A} (l : list A) (i p k : nat) :
  nth_error (segment l i (i + p)) k =
  if k <? p then nth_error l (i + k) else None.
Proof.
  unfold segment. replace (i + p - i) with p by lia.
  destruct (Nat.ltb_spec k p).
  - rewrite nth_error_firstn. destruct (Nat.ltb_spec k p); [|lia].
    apply nth_error_skipn.
  - apply nth_error_None. rewrite length_firstn. lia.
Qed.

Lemma pageData_segment (st : state) :
  (1 <= currentKnowledgePage st)%Z ->
  let p := Z.to_nat (currentKnowledgePage st) in
  pageData st = segment (filteredKnowledgeData st) ((p - 1) * 10) (p * 10).
Proof.
  intros Hp p. unfold pageData, itemsPerPage.
  replace ((currentKnowledgePage st - 1) * 10)%Z
    with (Z.of_nat ((p - 1) * 10)) by (unfold p; lia).
  change 10%Z with (Z.of_nat 10).
  rewrite slice_segment. f_equal. unfold p. lia.
Qed.

Lemma totalPages_ceiling (st : state) :
  let n := Z.of_nat (length (filteredKnowledgeData st)) in
  totalPages st = ((n + 9) / 10)%Z
  /\ (10 * (totalPages st - 1) < n <= 10 * totalPages st)%Z.
Proof.
  intros n. unfold totalPages. fold n. rewrite ceilDiv_10.
  split; [reflexivity|].
  pose proof (Z.div_mod (n + 9) 10 ltac:(lia)) as D.
  pose proof (Z.mod_pos_bound (n + 9) 10 ltac:(lia)) as B.
  lia.
Qed.

Lemma changeKnowledgePage_fields (page : Z) (st : state) :
  currentKnowledgePage (changeKnowledgePage page st) = page
  /\ knowledgeData (changeKnowledgePage page st) = knowledgeData st
  /\ filteredKnowledgeData (changeKnowledgePage page st)
     = filteredKnowledgeData st
  /\ searchKnowledgeValue (changeKnowledgePage page st)
     = searchKnowledgeValue st
  /\ moduleFilterValue (changeKnowledgePage page st) = moduleFilterValue st
  /\ knowledgePagination (changeKnowledgePage page st)
     = knowledgePagination st.
Proof.
  unfold changeKnowledgePage, renderKnowledgeTable.
  match goal with |- context [pageData ?x] => destruct (pageData x) end;
    repeat split; reflexivity.
Qed.

Lemma pageData_changeKnowledgePage (page : Z) (st : state) :
  (1 <= page)%Z ->
  pageData (changeKnowledgePage page st)
  = segment (filteredKnowledgeData st)
            ((Z.to_nat page - 1) * 10) (Z.to_nat page * 10).
Proof.
  intros Hp.
  destruct (changeKnowledgePage_fields page st) as (Ep & _ & Ef & _).
  rewrite pageData_segment by (rewrite Ep; exact Hp).
  rewrite Ep, Ef. reflexivity.
Qed.

(** [renderKnowledgeTable] writes the page into the table body and leaves
    the page as it is. *)
Lemma rendered_page (st : state) :
  knowledgeTableBody (renderKnowledgeTable st) = bodyOf (pageData st)
  /\ pageData (renderKnowledgeTable st) = pageData st.
Proof.
  unfold renderKnowledgeTable.
  destruct (pageData st) eqn:E; (split; [reflexivity|]);
    match goal with |- pageData (setTableBody ?b st) = _ =>
      change (pageData (setTableBody b st)) with (pageData st) end;
    exact E.
Qed.

Lemma changed_page (page : Z) (st : state) :
  knowledgeTableBody (changeKnowledgePage page st)
  = bodyOf (pageData (changeKnowledgePage page st)).
Proof.
  unfold changeKnowledgePage.
  match goal with |- context [renderKnowledgeTable ?x] =>
    destruct (rendered_page x) as (-> & ->) end.
  reflexivity.
Qed.

Lemma pagination_buttons (st : state) :
  ((totalPages st <= 1)%Z ->
   knowledgePagination (updateKnowledgePagination st) = [])
  /\ ((1 < totalPages st)%Z ->
      map label (knowledgePagination (updateKnowledgePagination st))
      = Previous :: map PageNumber (pagesOf st) ++ [Next]).
Proof.
  unfold updateKnowledgePagination, pagesOf.
  destruct (Z.leb_spec (totalPages st) 1);
    cbn [knowledgePagination setPagination]; split; intros; try lia.
  - reflexivity.
  - cbn [map label]. rewrite map_app, map_map. reflexivity.
Qed.

(** C1: with a page size of 10 the page count is the ceiling of N / 10, the
    least number of pages that hold N items and 0 for an empty collection;
    on page [p >= 1] the visible items are those at positions [(p-1)*10] to
    [p*10 - 1] of the filtered collection that exist, with no wraparound (a
    page behind the last one is empty);
    25 items give 3 pages, the first 10 items on page 1 and the last 5 on
    page 3.  The table body shows that page, and the pagination has a
    button for each page from 1 to the page count when there is more than
    one page. *)
Theorem paginator_page_slice (st : state) :
  (1 <= currentKnowledgePage st)%Z ->
  let filtered := filteredKnowledgeData st in
  let n := length filtered in
  let p := Z.to_nat (currentKnowledgePage st) in
  totalPages st = Z.of_nat ((n + 9) / 10)
  /\ (10 * (totalPages st - 1) < Z.of_nat n <= 10 * totalPages st)%Z
  /\ (n = 0 -> totalPages st = 0%Z /\ pageData st = [])
  /\ pageData st = segment filtered ((p - 1) * 10) (p * 10)
  /\ (totalPages st < currentKnowledgePage st -> pageData st = [])%Z
  /\ (forall i,
        nth_error (pageData st) i
        = if i <? 10 then nth_error filtered ((p - 1) * 10 + i) else None)
  /\ (n = 25 ->
      totalPages st = 3%Z
      /\ pageData (changeKnowledgePage 1 st) = firstn 10 filtered
      /\ pageData (changeKnowledgePage 3 st) = skipn 20 filtered
      /\ length (pageData (changeKnowledgePage 1 st)) = 10
      /\ length (pageData (changeKnowledgePage 3 st)) = 5)
  /\ knowledgeTableBody (renderKnowledgeTable st) = bodyOf (pageData st)
  /\ (forall page,
        knowledgeTableBody (changeKnowledgePage page st)
        = bodyOf (pageData (changeKnowledgePage page st)))
  /\ (n = 25 ->
      knowledgeTableBody (changeKnowledgePage 1 st)
      = Rows (firstn 10 filtered)
      /\ knowledgeTableBody (changeKnowledgePage 3 st)
         = Rows (skipn 20 filtered))
  /\ ((totalPages st <= 1)%Z ->
      knowledgePagination (updateKnowledgePagination st) = [])
  /\ ((1 < totalPages st)%Z ->
      map label (knowledgePagination (updateKnowledgePagination st))
      = Previous :: map PageNumber (pagesOf st) ++ [Next]).
Proof.
  intros Hp filtered n p.
  destruct (totalPages_ceiling st) as (T & B). fold filtered n in T, B.
  assert (T' : totalPages st = Z.of_nat ((n + 9) / 10)).
  { rewrite T, Nat2Z.inj_div, Nat2Z.inj_add. reflexivity. }
  pose proof (pageData_segment st Hp) as S. fold filtered p in S.
  assert (P25 : n = 25 ->
                pageData (changeKnowledgePage 1 st) = firstn 10 filtered
                /\ pageData (changeKnowledgePage 3 st) = skipn 20 filtered
                /\ length (firstn 10 filtered) = 10
                /\ length (skipn 20 filtered) = 5).
  { intros N25.
    rewrite !pageData_changeKnowledgePage by lia. fold filtered.
    change (segment filtered ((Z.to_nat 1 - 1) * 10) (Z.to_nat 1 * 10))
      with (firstn 10 filtered).
    change (segment filtered ((Z.to_nat 3 - 1) * 10) (Z.to_nat 3 * 10))
      with (firstn 10 (skipn 20 filtered)).
    assert (E3 : firstn 10 (skipn 20 filtered) = skipn 20 filtered).
    { apply firstn_all2. rewrite length_skipn. fold n. lia. }
    rewrite E3. repeat split.
    - rewrite length_firstn. fold n. lia.
    - rewrite length_skipn. fold n. lia. }
  split; [exact T'|]. split; [exact B|].
  split; [|split; [exact S|split; [|split; [|split; [|split; [|split;
    [|split; [|exact (pagination_buttons st)]]]]]]]].
  - intros Z. split.
    + rewrite T', Z. reflexivity.
    + rewrite S. unfold segment.
      assert (E : filtered = []) by (now apply length_zero_iff_nil).
      rewrite E, skipn_nil. apply firstn_nil.
  - intros Hbeyond. rewrite S. unfold segment.
    rewrite skipn_all2; [apply firstn_nil|]. fold n. unfold p. lia.
  - intros i. rewrite S.
    replace (p * 10) with ((p - 1) * 10 + 10) by (unfold p; lia).
    apply nth_error_segment.
  - intros N25. split; [rewrite T', N25; reflexivity|].
    destruct (P25 N25) as (P1 & P3 & L1 & L3).
    rewrite P1, P3. auto.
  - apply rendered_page.
  - intros page. apply changed_page.
  - intros N25. destruct (P25 N25) as (P1 & P3 & L1 & L3).
    rewrite !changed_page, P1, P3.
    destruct (firstn 10 filtered); [discriminate|].
    destruct (skipn 20 filtered); [discriminate|].
    split; reflexivity.
Qed.

Lemma paginator_page_slice_witness :
  totalPages thirdPageOf25 = 3%Z
  /\ map id (pageData thirdPageOf25) = [21; 22; 23; 24; 25]%Z
  /\ map id (pageData (changeKnowledgePage 1 thirdPageOf25))
     = [1; 2; 3; 4; 5; 6; 7; 8; 9; 10]%Z
  /\ knowledgeTableBody (changeKnowledgePage 3 thirdPageOf25)
     = Rows (skipn 20 (numbered 25)).
Proof.
  destruct (@paginator_page_slice thirdPageOf25 ltac:(vm_compute; discriminate))
    as (_ & _ & _ & S & _ & _ & H & _ & _ & H' & _).
  destruct (H eq_refl) as (T & P1 & _).
  split; [exact T|]. split; [|split].
  - rewrite S. reflexivity.
  - rewrite P1. reflexivity.
  - exact (proj2 (H' eq_refl)).
Defined.
(** *** The filter and the page *)

Section FilterFacts.
Variable toLowerCase : jsstring -> jsstring.

Lemma renderKnowledgeTable_fields (st : state) :
  currentKnowledgePage (renderKnowledgeTable st) = currentKnowledgePage st
  /\ knowledgeData (renderKnowledgeTable st) = knowledgeData st
  /\ filteredKnowledgeData (renderKnowledgeTable st)
     = filteredKnowledgeData st
  /\ searchKnowledgeValue (renderKnowledgeTable st) = searchKnowledgeValue st
  /\ moduleFilterValue (renderKnowledgeTable st) = moduleFilterValue st
  /\ knowledgePagination (renderKnowledgeTable st) = knowledgePagination st.
Proof.
  unfold renderKnowledgeTable. destruct (pageData st); repeat split.
Qed.

Lemma updateKnowledgePagination_fields (st : state) :
  currentKnowledgePage (updateKnowledgePagination st)
  = currentKnowledgePage st
  /\ knowledgeData (updateKnowledgePagination st) = knowledgeData st
  /\ filteredKnowledgeData (updateKnowledgePagination st)
     = filteredKnowledgeData st
  /\ searchKnowledgeValue (updateKnowledgePagination st)
     = searchKnowledgeValue st
  /\ moduleFilterValue (updateKnowledgePagination st) = moduleFilterValue st.
Proof.
  unfold updateKnowledgePagination.
  destruct (totalPages st <=? 1)%Z; repeat split.
Qed.

Lemma searchKnowledge_fields (st : state) :
  currentKnowledgePage (Admin.searchKnowledge toLowerCase st) = 1%Z
  /\ knowledgeData (Admin.searchKnowledge toLowerCase st) = knowledgeData st
  /\ filteredKnowledgeData (Admin.searchKnowledge toLowerCase st)
     = filter (fun item =>
                 matchesSearch toLowerCase
                   (toLowerCase (searchKnowledgeValue st)) item
                 && matchesModule (moduleFilterValue st) item)
              (knowledgeData st)
  /\ searchKnowledgeValue (Admin.searchKnowledge toLowerCase st) = searchKnowledgeValue st
  /\ moduleFilterValue (Admin.searchKnowledge toLowerCase st) = moduleFilterValue st.
Proof.
  unfold Admin.searchKnowledge.
  match goal with
  | |- context [updateKnowledgePagination (renderKnowledgeTable ?x)] =>
      destruct (updateKnowledgePagination_fields (renderKnowledgeTable x))
        as (-> & -> & -> & -> & ->);
      destruct (renderKnowledgeTable_fields x) as (-> & -> & -> & -> & -> & _)
  end.
  repeat split.
Qed.

Lemma loadKnowledgeBase_fields (data : list KnowledgeItem) (st : state) :
  currentKnowledgePage (loadKnowledgeBase data st) = currentKnowledgePage st
  /\ knowledgeData (loadKnowledgeBase data st) = data
  /\ filteredKnowledgeData (loadKnowledgeBase data st) = data.
Proof.
  unfold loadKnowledgeBase.
  match goal with
  | |- context [updateKnowledgePagination (renderKnowledgeTable ?x)] =>
      destruct (updateKnowledgePagination_fields (renderKnowledgeTable x))
        as (-> & -> & -> & _);
      destruct (renderKnowledgeTable_fields x) as (-> & -> & -> & _)
  end.
  repeat split.
Qed.

Lemma clickPage_data (n : nat) (st : state) :
  knowledgeData (clickPage n st) = knowledgeData st
  /\ filteredKnowledgeData (clickPage n st) = filteredKnowledgeData st.
Proof.
  unfold clickPage.
  destruct (nth_error (knowledgePagination st) n) as [b|]; auto.
  destruct (disabled b); auto.
  destruct (changeKnowledgePage_fields (onclick b) st) as (_ & -> & -> & _).
  auto.
Qed.

Lemma updateKnowledgePagination_buttons (st : state) :
  (1 <= currentKnowledgePage st)%Z ->
  Forall (fun b => disabled b = false -> (1 <= onclick b)%Z)
         (knowledgePagination (updateKnowledgePagination st)).
Proof.
  intros Hp. unfold updateKnowledgePagination.
  destruct (totalPages st <=? 1)%Z; cbn [knowledgePagination setPagination].
  - constructor.
  - constructor; [|apply Forall_app; split].
    + cbn [disabled onclick]. intros D. apply Z.eqb_neq in D. lia.
    + apply Forall_forall. intros b Hb.
      apply in_map_iff in Hb as (i & <- & Hi).
      apply in_map_iff in Hi as (k & <- & Hk).
      apply in_seq in Hk. cbn [onclick]. lia.
    + constructor; [|constructor]. cbn [onclick]. lia.
Qed.

(** Clicks on the pagination never leave the pages from 1 upwards. *)
Lemma reachable_page_positive (st : state) :
  reachable toLowerCase st ->
  (1 <= currentKnowledgePage st)%Z
  /\ Forall (fun b => disabled b = false -> (1 <= onclick b)%Z)
            (knowledgePagination st).
Proof.
  assert (S : forall x,
             (1 <= currentKnowledgePage (Admin.searchKnowledge toLowerCase x))%Z
             /\ Forall (fun b => disabled b = false -> (1 <= onclick b)%Z)
                  (knowledgePagination (Admin.searchKnowledge toLowerCase x))).
  { intros x. split.
    - destruct (searchKnowledge_fields x) as (-> & _). lia.
    - unfold Admin.searchKnowledge. apply updateKnowledgePagination_buttons.
      match goal with |- context [renderKnowledgeTable ?y] =>
        destruct (renderKnowledgeTable_fields y) as (-> & _) end.
      simpl. lia. }
  induction 1 as [|a st _ (Hp & Hb)].
  - split; [simpl; lia | constructor].
  - destruct a; cbn [step].
    + apply S.
    + apply S.
    + unfold clickPage.
      destruct (nth_error (knowledgePagination st) n) as [b|] eqn:E; auto.
      destruct (disabled b) eqn:D; auto.
      destruct (changeKnowledgePage_fields (onclick b) st)
        as (-> & _ & _ & _ & _ & ->).
      split; [|exact Hb].
      apply nth_error_In in E.
      rewrite Forall_forall in Hb. exact (Hb b E D).
    + split.
      * destruct (loadKnowledgeBase_fields data st) as (-> & _). exact Hp.
      * unfold loadKnowledgeBase. apply updateKnowledgePagination_buttons.
        match goal with |- context [renderKnowledgeTable ?y] =>
          destruct (renderKnowledgeTable_fields y) as (-> & _) end.
        exact Hp.
Qed.

End FilterFacts.

(** *** The filter predicate *)

Section PredicateFacts.
Variable toLowerCase : jsstring -> jsstring.

(** Case mapping never empties a string nor fills an empty one. *)
Hypothesis toLowerCase_nil : forall s, toLowerCase s = [] <-> s = [].

Lemma truthy_false_iff (s : jsstring) : truthy s = false <-> s = [].
Proof. destruct s; simpl; split; (reflexivity || discriminate). Qed.

Lemma matchesSearch_iff (text : jsstring) (item : KnowledgeItem) :
  matchesSearch toLowerCase (toLowerCase text) item = true
  <-> textMatches toLowerCase text item.
Proof.
  unfold matchesSearch, textMatches, ciOccurs, keywordList.
  rewrite !orb_true_iff, negb_true_iff, truthy_false_iff, toLowerCase_nil,
    !includes_iff.
  assert (K : match keywords item with
              | Some kws =>
                  existsb (fun kw => includes (toLowerCase kw) (toLowerCase text))
                          kws
              | None => false
              end = true
              <-> exists kw,
                  In kw match keywords item with Some kws => kws | None => [] end
                  /\ occursIn (toLowerCase text) (toLowerCase kw)).
  { destruct (keywords item) as [kws|].
    - rewrite existsb_exists. split; intros (kw & I & H); exists kw;
        (split; [exact I|]); now apply includes_iff.
    - split; [discriminate|]. intros (kw & [] & _). }
  rewrite K. tauto.
Qed.

Lemma matchesModule_iff (moduleFilter : jsstring) (item : KnowledgeItem) :
  matchesModule moduleFilter item = true
  <-> moduleFilter = [] \/ module item = moduleFilter.
Proof.
  unfold matchesModule.
  rewrite orb_true_iff, negb_true_iff, truthy_false_iff, eqb_eq. tauto.
Qed.

Lemma filter_passes (st : state) (item : KnowledgeItem) :
  In item (filteredKnowledgeData (Admin.searchKnowledge toLowerCase st))
  <-> In item (knowledgeData st)
      /\ passes toLowerCase (searchKnowledgeValue st) (moduleFilterValue st)
                item.
Proof.
  destruct (searchKnowledge_fields toLowerCase st) as (_ & _ & -> & _).
  rewrite filter_In, andb_true_iff, matchesSearch_iff, matchesModule_iff.
  unfold passes. tauto.
Qed.

Lemma filter_single {A} (f : A -> bool) (before after : list A) (x : A) :
  f x = true ->
  (forall y, In y (before ++ after) -> f y = false) ->
  filter f (before ++ x :: after) = [x].
Proof.
  intros Hx Hn.
  assert (N : forall l, (forall y, In y l -> f y = false) -> filter f l = []).
  { induction l as [|y l IH]; simpl; intros H; [reflexivity|].
    rewrite (H y) by auto. apply IH. auto. }
  rewrite filter_app. simpl. rewrite Hx.
  rewrite !N; [reflexivity| |]; intros y Hy; apply Hn, in_or_app; auto.
Qed.

(** C2, as the script has it: an item is in the filtered collection exactly
    when it is in the fetched collection and (the text is empty, or occurs
    with case ignored in its question, its answer or one of its keywords) and
    (the module filter is empty or is its module).  So when the text occurs
    in a keyword of one item whose module the filter admits, and matches no
    other item of the collection in question, answer or keywords, the
    filtered collection is exactly that item. *)
Theorem filter_predicate (st : state) :
  (forall item,
     In item (filteredKnowledgeData (Admin.searchKnowledge toLowerCase st))
     <-> In item (knowledgeData st)
         /\ passes toLowerCase (searchKnowledgeValue st)
                   (moduleFilterValue st) item)
  /\ (forall before item after kw,
        knowledgeData st = before ++ item :: after ->
        In kw (keywordList item) ->
        ciOccurs toLowerCase (searchKnowledgeValue st) kw ->
        moduleFilterValue st = [] \/ module item = moduleFilterValue st ->
        (forall other, In other (before ++ after) ->
                       ~ textMatches toLowerCase (searchKnowledgeValue st) other) ->
        filteredKnowledgeData (Admin.searchKnowledge toLowerCase st) = [item]).
Proof.
  split; [apply filter_passes|].
  intros before item after kw E K C M O.
  destruct (searchKnowledge_fields toLowerCase st) as (_ & _ & -> & _).
  rewrite E. apply filter_single.
  - apply andb_true_iff. split.
    + apply matchesSearch_iff. right; right; right. eauto.
    + now apply matchesModule_iff.
  - intros other I. apply andb_false_iff. left.
    apply not_true_is_false. intros T.
    apply matchesSearch_iff in T. exact (O other I T).
Qed.

End PredicateFacts.

Lemma asciiLower_nil (s : jsstring) : asciiLower s = [] <-> s = [].
Proof. destruct s; simpl; split; (reflexivity || discriminate). Qed.

Lemma not_occurs (q s : jsstring) : includes s q = false -> ~ occursIn q s.
Proof.
  intros H O. apply includes_iff in O. congruence.
Qed.

Lemma filter_predicate_witness :
  filteredKnowledgeData (searchKnowledge asciiLower payrollSalaryQuery)
  = [payItem].
Proof.
  refine (proj2 (@filter_predicate asciiLower asciiLower_nil payrollSalaryQuery)
                [leaveItem] payItem [] (lit "Salary") eq_refl _ _ _ _).
  - left; reflexivity.
  - apply includes_iff. reflexivity.
  - right; reflexivity.
  - intros other [<-|[]] [T|[T|[T|(kw & [] & _)]]].
    + discriminate T.
    + revert T. apply not_occurs. reflexivity.
    + revert T. apply not_occurs. reflexivity.
Defined.

(** The text "salary" occurs in a keyword of exactly one item, the first, yet
    the search returns the second item as well, whose question holds it. *)
Lemma keyword_query_returns_other_items :
  (exists kw, In kw (keywordList payItem)
              /\ ciOccurs asciiLower (searchKnowledgeValue salaryQuery) kw)
  /\ (forall kw, In kw (keywordList slipItem) ->
                 ~ ciOccurs asciiLower (searchKnowledgeValue salaryQuery) kw)
  /\ filteredKnowledgeData (searchKnowledge asciiLower salaryQuery)
     = [payItem; slipItem]
  /\ filteredKnowledgeData (searchKnowledge asciiLower salaryQuery)
     <> [payItem].
Proof.
  split; [|split; [|split]].
  - exists (lit "Salary"). split; [left; reflexivity|].
    apply includes_iff. reflexivity.
  - intros kw [<-|[]]. apply not_occurs. reflexivity.
  - reflexivity.
  - discriminate.
Qed.

End TableFacts.

(** ** The knowledge table and the outcomes of a load *)

Section PageFacts.
Import Admin.
Variable toLowerCase : jsstring -> jsstring.

Lemma typeSearchOn_array (text : jsstring) (p : page) :
  knowledgeIsArray p = true ->
  typeSearchOn toLowerCase text p
  = mkPage (typeSearch toLowerCase text (vars p)) true (alert p).
Proof.
  intros A. unfold typeSearchOn, searchKnowledgeOn.
  cbn [knowledgeIsArray vars alert]. rewrite A. reflexivity.
Qed.

Lemma selectModuleOn_array (m : jsstring) (p : page) :
  knowledgeIsArray p = true ->
  selectModuleOn toLowerCase m p
  = mkPage (selectModule toLowerCase m (vars p)) true (alert p).
Proof.
  intros A. unfold selectModuleOn, searchKnowledgeOn.
  cbn [knowledgeIsArray vars alert]. rewrite A. reflexivity.
Qed.

Lemma typeSearchOn_broken (text : jsstring) (p : page) :
  knowledgeIsArray p = false ->
  typeSearchOn toLowerCase text p
  = mkPage (mkState (currentKnowledgePage (vars p)) (knowledgeData (vars p))
                    (filteredKnowledgeData (vars p)) text
                    (moduleFilterValue (vars p))
                    (knowledgeTableBody (vars p))
                    (knowledgePagination (vars p)))
           false (alert p).
Proof.
  intros A. unfold typeSearchOn, searchKnowledgeOn.
  cbn [knowledgeIsArray vars alert]. rewrite A. reflexivity.
Qed.

Lemma selectModuleOn_broken (m : jsstring) (p : page) :
  knowledgeIsArray p = false ->
  selectModuleOn toLowerCase m p
  = mkPage (mkState (currentKnowledgePage (vars p)) (knowledgeData (vars p))
                    (filteredKnowledgeData (vars p))
                    (searchKnowledgeValue (vars p)) m
                    (knowledgeTableBody (vars p))
                    (knowledgePagination (vars p)))
           false (alert p).
Proof.
  intros A. unfold selectModuleOn, searchKnowledgeOn.
  cbn [knowledgeIsArray vars alert]. rewrite A. reflexivity.
Qed.

(** The states reached while every load is answered with an array are
    states of the page. *)
Lemma reachable_on_arrays (st : state) :
  reachable toLowerCase st -> reachableOn toLowerCase (mkPage st true None).
Proof.
  induction 1 as [|a st _ IH]; [apply reachOn_initial|].
  destruct a as [query|m|n|data]; cbn [step].
  - exact (reachOn_step (SearchTyped query) IH).
  - exact (reachOn_step (ModuleSelected m) IH).
  - exact (reachOn_step (PageClicked n) IH).
  - exact (reachOn_step (LoadSettled (Answers (ItemArray data))) IH).
Qed.

Lemma reachableOn_filtered (p : page) :
  reachableOn toLowerCase p ->
  if knowledgeIsArray p then
    exists keep,
      filteredKnowledgeData (vars p) = filter keep (knowledgeData (vars p))
  else knowledgeData (vars p) = [].
Proof.
  induction 1 as [|e p _ IH].
  - exists (fun _ => true). reflexivity.
  - destruct e; cbn [stepOn].
    + destruct (knowledgeIsArray p) eqn:A.
      * rewrite typeSearchOn_array by exact A.
        cbn [knowledgeIsArray vars]. unfold typeSearch.
        match goal with |- context [Admin.searchKnowledge _ ?x] =>
          destruct (searchKnowledge_fields toLowerCase x)
            as (_ & -> & -> & _) end.
        eexists; reflexivity.
      * rewrite typeSearchOn_broken by exact A.
        cbn [knowledgeIsArray vars knowledgeData]. exact IH.
    + destruct (knowledgeIsArray p) eqn:A.
      * rewrite selectModuleOn_array by exact A.
        cbn [knowledgeIsArray vars]. unfold selectModule, filterByModule.
        match goal with |- context [Admin.searchKnowledge _ ?x] =>
          destruct (searchKnowledge_fields toLowerCase x)
            as (_ & -> & -> & _) end.
        eexists; reflexivity.
      * rewrite selectModuleOn_broken by exact A.
        cbn [knowledgeIsArray vars knowledgeData]. exact IH.
    + unfold clickPageOn. cbn [knowledgeIsArray vars].
      destruct (clickPage_data n (vars p)) as (-> & ->). exact IH.
    + destruct o as [|[data|]]; cbn [loadKnowledgeBaseOn knowledgeIsArray vars].
      * exact IH.
      * destruct (loadKnowledgeBase_fields data (vars p)) as (_ & -> & ->).
        exists (fun _ => true). clear. induction data; simpl; congruence.
      * reflexivity.
Qed.


(** X21: in every state the page can reach, whatever the loads were answered
    with: while [knowledgeData] holds an array the filtered collection is
    what some predicate keeps of it, and a change of the search text or of
    the module filter puts the page back to 1; once [knowledgeData] holds a
    value that cannot be spread, such a change leaves the page and the
    filtered collection as they are; a click on a pagination button never
    changes the inputs or the collections, and neither does any other
    change of page; a load that fails (the request
    is rejected, or the body cannot be spread) raises the alert and leaves
    the page, the inputs, the filtered collection, the table and the
    pagination as they are; and the next load that is answered with an
    array makes it the fetched and the filtered collection. *)
Theorem filter_kept_while_array (p : page) :
  reachableOn toLowerCase p ->
  (knowledgeIsArray p = true ->
     incl (filteredKnowledgeData (vars p)) (knowledgeData (vars p))
     /\ (exists keep, filteredKnowledgeData (vars p)
                      = filter keep (knowledgeData (vars p)))
     /\ (forall text,
           currentKnowledgePage (vars (typeSearchOn toLowerCase text p))
           = 1%Z)
     /\ (forall m,
           currentKnowledgePage (vars (selectModuleOn toLowerCase m p))
           = 1%Z))
  /\ (knowledgeIsArray p = false ->
      forall changed,
        (exists text, changed = typeSearchOn toLowerCase text p)
        \/ (exists m, changed = selectModuleOn toLowerCase m p) ->
        currentKnowledgePage (vars changed) = currentKnowledgePage (vars p)
        /\ filteredKnowledgeData (vars changed)
           = filteredKnowledgeData (vars p)
        /\ knowledgeTableBody (vars changed) = knowledgeTableBody (vars p)
        /\ knowledgeIsArray changed = false)
  /\ (forall n,
        searchKnowledgeValue (vars (clickPageOn n p))
        = searchKnowledgeValue (vars p)
        /\ moduleFilterValue (vars (clickPageOn n p))
           = moduleFilterValue (vars p)
        /\ knowledgeData (vars (clickPageOn n p)) = knowledgeData (vars p)
        /\ filteredKnowledgeData (vars (clickPageOn n p))
           = filteredKnowledgeData (vars p)
        /\ knowledgeIsArray (clickPageOn n p) = knowledgeIsArray p)
  /\ (forall page,
        let st' := changeKnowledgePage page (vars p) in
        currentKnowledgePage st' = page
        /\ searchKnowledgeValue st' = searchKnowledgeValue (vars p)
        /\ moduleFilterValue st' = moduleFilterValue (vars p)
        /\ knowledgeData st' = knowledgeData (vars p)
        /\ filteredKnowledgeData st' = filteredKnowledgeData (vars p))
  /\ (forall o,
        o = Rejects \/ o = Answers NotIterable ->
        let failed := loadKnowledgeBaseOn o p in
        currentKnowledgePage (vars failed) = currentKnowledgePage (vars p)
        /\ filteredKnowledgeData (vars failed)
           = filteredKnowledgeData (vars p)
        /\ searchKnowledgeValue (vars failed) = searchKnowledgeValue (vars p)
        /\ moduleFilterValue (vars failed) = moduleFilterValue (vars p)
        /\ knowledgeTableBody (vars failed) = knowledgeTableBody (vars p)
        /\ knowledgePagination (vars failed) = knowledgePagination (vars p)
        /\ alert failed = Some (lit "Failed to load knowledge base")
        /\ (o = Rejects ->
            knowledgeData (vars failed) = knowledgeData (vars p)
            /\ knowledgeIsArray failed = knowledgeIsArray p)
        /\ (o = Answers NotIterable -> knowledgeIsArray failed = false))
  /\ (forall data,
        let loaded := loadKnowledgeBaseOn (Answers (ItemArray data)) p in
        knowledgeIsArray loaded = true
        /\ knowledgeData (vars loaded) = data
        /\ filteredKnowledgeData (vars loaded) = data
        /\ currentKnowledgePage (vars loaded) = currentKnowledgePage (vars p)
        /\ alert loaded = alert p).
Proof.
  intros R. pose proof (reachableOn_filtered R) as F.
  split; [|split; [|split; [|split; [|split]]]].
  - intros A. rewrite A in F. destruct F as (keep & E).
    split; [|split; [eauto|split]].
    + rewrite E. intros x Hx. apply filter_In in Hx. tauto.
    + intros text. rewrite typeSearchOn_array by exact A.
      cbn [vars]. unfold typeSearch. apply searchKnowledge_fields.
    + intros m. rewrite selectModuleOn_array by exact A.
      cbn [vars]. unfold selectModule, filterByModule.
      apply searchKnowledge_fields.
  - intros A changed [(text & ->)|(m & ->)].
    + rewrite typeSearchOn_broken by exact A. repeat split.
    + rewrite selectModuleOn_broken by exact A. repeat split.
  - intros n. unfold clickPageOn. cbn [vars knowledgeIsArray].
    unfold clickPage.
    destruct (nth_error (knowledgePagination (vars p)) n) as [b|];
      [|repeat split].
    destruct (disabled b); [repeat split|].
    destruct (changeKnowledgePage_fields (onclick b) (vars p))
      as (_ & -> & -> & -> & -> & _).
    repeat split.
  - intros page st'. unfold st'.
    destruct (changeKnowledgePage_fields page (vars p))
      as (-> & -> & -> & -> & -> & _).
    repeat split.
  - intros o [->| ->] failed; unfold failed;
      cbn [loadKnowledgeBaseOn knowledgeIsArray vars alert
             currentKnowledgePage filteredKnowledgeData searchKnowledgeValue
             moduleFilterValue knowledgeTableBody knowledgePagination];
      repeat split; discriminate.
  - intros data loaded. unfold loaded.
    cbn [loadKnowledgeBaseOn knowledgeIsArray vars alert].
    destruct (loadKnowledgeBase_fields data (vars p)) as (-> & -> & ->).
    repeat split.
Qed.

End PageFacts.

Section FailedLoad.
Import Admin.


Lemma reachableOn_thirdPageOf25 :
  reachableOn asciiLower (mkPage thirdPageOf25 true None).
Proof.
  change (mkPage thirdPageOf25 true None)
    with (stepOn asciiLower (PageClicked 3)
            (stepOn asciiLower
               (LoadSettled (Answers (ItemArray (numbered 25))))
               initialPage)).
  repeat apply reachOn_step. apply reachOn_initial.
Qed.

Lemma filter_kept_while_array_witness :
  incl (filteredKnowledgeData thirdPageOf25) (knowledgeData thirdPageOf25)
  /\ currentKnowledgePage
       (vars (typeSearchOn asciiLower (lit "answer")
                (mkPage thirdPageOf25 true None))) = 1%Z.
Proof.
  destruct (@filter_kept_while_array asciiLower
              (mkPage thirdPageOf25 true None) reachableOn_thirdPageOf25)
    as (H & _).
  destruct (H eq_refl) as (I & _ & T & _).
  split; [exact I | exact (T (lit "answer"))].
Defined.

(** C3, where the script breaks it: 25 items are loaded and page 3 is open
    when a reload is answered with a JSON value that cannot be spread, such
    as the object of an error answer.  [knowledgeData] takes the value, the
    copy throws and the alert is raised: the filtered collection keeps the
    25 items of the first load, none of which is in what was fetched.  Then
    "leave" is typed into the search box: the handler throws at
    [knowledgeData.filter], and the page stays 3 with the last 5 of the old
    items in the table. *)
Theorem failed_reload_leaves_stale_items :
  reachableOn asciiLower (typeSearchOn asciiLower (lit "leave") reloadFailed)
  /\ knowledgeIsArray reloadFailed = false
  /\ knowledgeData (vars reloadFailed) = []
  /\ filteredKnowledgeData (vars reloadFailed) = numbered 25
  /\ ~ incl (filteredKnowledgeData (vars reloadFailed))
            (knowledgeData (vars reloadFailed))
  /\ alert reloadFailed = Some (lit "Failed to load knowledge base")
  /\ searchKnowledgeValue
       (vars (typeSearchOn asciiLower (lit "leave") reloadFailed))
     = lit "leave"
  /\ currentKnowledgePage
       (vars (typeSearchOn asciiLower (lit "leave") reloadFailed)) = 3%Z
  /\ filteredKnowledgeData
       (vars (typeSearchOn asciiLower (lit "leave") reloadFailed))
     = numbered 25
  /\ knowledgeTableBody
       (vars (typeSearchOn asciiLower (lit "leave") reloadFailed))
     = Rows (skipn 20 (numbered 25)).
Proof.
  split.
  { change (typeSearchOn asciiLower (lit "leave") reloadFailed)
      with (stepOn asciiLower (SearchTyped (lit "leave"))
              (stepOn asciiLower (LoadSettled (Answers NotIterable))
                 (mkPage thirdPageOf25 true None))).
    repeat apply reachOn_step. apply reachableOn_thirdPageOf25. }
  split; [reflexivity|]. split; [reflexivity|]. split; [reflexivity|].
  split.
  { intros I. apply (I (hd leaveItem (numbered 25))). left. reflexivity. }
  repeat split.
Qed.

End FailedLoad.

(** ** The matcher *)

Section RegexFacts.

Lemma run_mayStart (r : regex) (s : jsstring) (c : caps)
      (k : jsstring -> caps -> mresult) :
  mayStart r (hd_error s) = false -> run r s c k = None.
Proof.
  revert s c k.
  induction r as [l|p|g p|r1 IH1 r2 IH2|r1 IH1 r2 IH2|n r IH|r IH|];
    intros s c k H; simpl in *; try discriminate.
  - destruct l as [|a l]; [discriminate|].
    destruct s as [|x s]; simpl in *; [reflexivity|].
    rewrite H. reflexivity.
  - destruct s as [|x s]; simpl in *; [reflexivity|]. rewrite H. reflexivity.
  - apply IH1. exact H.
  - apply orb_false_iff in H as [H1 H2].
    rewrite IH1, IH2 by assumption. reflexivity.
  - apply IH. exact H.
Qed.

Lemma run_Lit (l s : jsstring) (c : caps) (k : jsstring -> caps -> mresult) :
  run (Lit l) (l ++ s) c k = k s c.
Proof. simpl. rewrite stripPrefix_app. reflexivity. Qed.

Lemma repGreedy_all (p : codeunit -> bool) (k : jsstring -> mresult)
      (xs rest : jsstring) (res : jsstring * caps) :
  forallb p xs = true -> stops p rest -> k rest = Some res ->
  repGreedy p k (xs ++ rest) = Some res.
Proof.
  intros Hp Hs Hk. induction xs as [|x xs IH]; simpl in *.
  - destruct rest as [|y rest]; simpl in *; [exact Hk|].
    rewrite Hs. exact Hk.
  - apply andb_prop in Hp as [Hx Hxs]. rewrite Hx, IH by assumption.
    reflexivity.
Qed.

Lemma repLazy_first (p : codeunit -> bool) (k : jsstring -> mresult)
      (xs rest : jsstring) (res : jsstring * caps) :
  forallb p xs = true ->
  (forall pre x suf, xs = pre ++ x :: suf -> k (x :: suf ++ rest) = None) ->
  k rest = Some res ->
  repLazy p k (xs ++ rest) = Some res.
Proof.
  intros Hp Hn Hk. induction xs as [|x xs IH]; simpl in *.
  - destruct rest; simpl; rewrite Hk; reflexivity.
  - apply andb_prop in Hp as [Hx Hxs].
    rewrite (Hn [] x xs eq_refl), Hx.
    apply IH; [assumption|].
    intros pre y suf E. apply (Hn (x :: pre) y suf). rewrite E. reflexivity.
Qed.

Lemma firstn_matched {A} (m rest : list A) :
  firstn (length (m ++ rest) - length rest) (m ++ rest) = m.
Proof.
  rewrite length_app, Nat.add_sub.
  rewrite firstn_app, Nat.sub_diag, firstn_all. simpl. apply app_nil_r.
Qed.

Variable r : regex.
Variable t : template.

Lemma replaceFrom_cons (x : codeunit) (s : jsstring) :
  replaceFrom r t (x :: s) 0 =
  match exec r (x :: s) with
  | Some (rest, c) =>
      expand t c ++
      match length (x :: s) - length rest with
      | O => x :: replaceFrom r t s 0
      | S n => replaceFrom r t s n
      end
  | None => x :: replaceFrom r t s 0
  end.
Proof. reflexivity. Qed.

Lemma replaceFrom_miss (x : codeunit) (s : jsstring) :
  exec r (x :: s) = None ->
  replaceFrom r t (x :: s) 0 = x :: replaceFrom r t s 0.
Proof. intros H. rewrite replaceFrom_cons, H. reflexivity. Qed.

Lemma replaceFrom_skip (m rest : jsstring) :
  replaceFrom r t (m ++ rest) (length m) = replaceFrom r t rest 0.
Proof.
  induction m as [|x m IH]; simpl; [|exact IH].
  destruct rest; reflexivity.
Qed.

Lemma replaceFrom_hit (x : codeunit) (m rest : jsstring) (c : caps) :
  exec r (x :: m ++ rest) = Some (rest, c) ->
  replaceFrom r t (x :: m ++ rest) 0 = expand t c ++ replaceFrom r t rest 0.
Proof.
  intros H. rewrite replaceFrom_cons, H.
  replace (length (x :: m ++ rest) - length rest) with (S (length m))
    by (change (length (x :: m ++ rest)) with (S (length (m ++ rest)));
        rewrite length_app; lia).
  rewrite replaceFrom_skip. reflexivity.
Qed.

(** Where no match can begin, [replace] copies. *)
Lemma replaceFrom_copy (pre rest : jsstring) :
  forallb (fun x => negb (mayStart r (Some x))) pre = true ->
  replaceFrom r t (pre ++ rest) 0 = pre ++ replaceFrom r t rest 0.
Proof.
  induction pre as [|x pre IH]; intros H; [reflexivity|].
  simpl in H. apply andb_prop in H as [Hx Hpre].
  apply negb_true_iff in Hx.
  change ((x :: pre) ++ rest) with (x :: pre ++ rest).
  rewrite replaceFrom_miss by (apply run_mayStart; exact Hx).
  rewrite IH by assumption. reflexivity.
Qed.

Lemma replaceAll_copy (s : jsstring) :
  mayStart r None = false ->
  forallb (fun x => negb (mayStart r (Some x))) s = true ->
  replaceAll r t s = s.
Proof.
  intros He Hs. unfold replaceAll.
  rewrite <- (app_nil_r s) at 1. rewrite replaceFrom_copy by assumption.
  simpl. unfold exec. rewrite run_mayStart by exact He.
  apply app_nil_r.
Qed.

Lemma replaceFirst_copy (s : jsstring) :
  mayStart r None = false ->
  forallb (fun x => negb (mayStart r (Some x))) s = true ->
  replaceFirst r t s = s.
Proof.
  intros He. induction s as [|x s IH]; intros Hs; simpl.
  - unfold exec. rewrite run_mayStart by exact He. reflexivity.
  - simpl in Hs. apply andb_prop in Hs as [Hx Hs].
    apply negb_true_iff in Hx.
    unfold exec. rewrite run_mayStart by exact Hx.
    rewrite IH by assumption. reflexivity.
Qed.

End RegexFacts.

(** ** The numbered step rule *)

Section FormatterFacts.
Import Formatter.

Lemma plain_facts (c : codeunit) :
  plain c = true ->
  quiet c = true /\ dot c = true /\ (60 =? c)%N = false.
Proof.
  unfold plain, dot. intros H.
  apply andb_prop in H as [H H3]. apply andb_prop in H as [H1 H2].
  apply negb_true_iff in H3. auto.
Qed.

Lemma forallb_impl {A} (f g : A -> bool) (l : list A) :
  (forall x, f x = true -> g x = true) ->
  forallb f l = true -> forallb g l = true.
Proof.
  intros H. induction l as [|x l IH]; simpl; auto.
  intros E. apply andb_prop in E as [E1 E2]. rewrite H, IH; auto.
Qed.

Lemma exec_stepRe (n : numberedText) (tail : jsstring) :
  wfNumbered n = true ->
  lineEnd tail ->
  exec stepRe (digits n ++ lit "." ++ spacing n ++ text n ++ tail)
  = Some (tail, [(2, text n); (1, digits n)]).
Proof.
  unfold wfNumbered. intros W T.
  apply andb_prop in W as [W Wh]. apply andb_prop in W as [W Wt].
  apply andb_prop in W as [W Ws]. apply andb_prop in W as [Wn Wd].
  destruct (digits n) as [|d0 ds] eqn:D; [discriminate|].
  simpl in Wd. apply andb_prop in Wd as [Wd0 Wds].
  unfold exec, stepRe, Plus.
  cbn [run]. 
  change ((d0 :: ds) ++ lit "." ++ spacing n ++ text n ++ tail) with (d0 :: ds ++ lit "." ++ spacing n ++ text n ++ tail).
  cbv beta iota. rewrite Wd0.
  apply repGreedy_all; [exact Wds | reflexivity |].
  rewrite stripPrefix_app.
  assert (Hstop : stops isWhiteSpace (text n ++ tail)).
  { destruct (text n) as [|c tx]; simpl.
    - destruct T as [->|(tail' & ->)]; simpl; auto.
    - now apply negb_true_iff. }
  apply repGreedy_all;
    [ revert Ws; apply forallb_impl; unfold gap; intros x Hx;
      apply andb_prop in Hx; tauto
    | exact Hstop |].
  apply repLazy_first.
  - revert Wt. apply forallb_impl. intros x Hx. now apply plain_facts.
  - intros pre x suf E.
    assert (Px : plain x = true).
    { rewrite E in Wt. rewrite forallb_app in Wt.
      apply andb_prop in Wt as [_ Wt]. simpl in Wt.
      apply andb_prop in Wt. tauto. }
    apply plain_facts in Px as (_ & _ & Px).
    change br with (60%N :: lit "br>"). cbn [stripPrefix].
    rewrite Px. reflexivity.
  - change (d0 :: ds ++ lit "." ++ spacing n ++ text n ++ tail)
      with ((d0 :: ds) ++ lit "." ++ spacing n ++ text n ++ tail).
    rewrite !firstn_matched.
    destruct T as [->|(tail' & ->)].
    + reflexivity.
    + rewrite stripPrefix_app. reflexivity.
Qed.


Ltac chars :=
  unfold plainProse, plain, gap, quiet, dot, isDigit, isWhiteSpace,
    isLineTerminator in *;
  repeat rewrite ?orb_true_iff, ?andb_true_iff, ?negb_true_iff,
    ?orb_false_iff, ?andb_false_iff, ?negb_false_iff,
    ?N.eqb_eq, ?N.eqb_neq, ?N.leb_le, ?N.leb_gt in *;
  lia.

Lemma digit_quiet (c : codeunit) : isDigit c = true -> quiet c = true.
Proof. intros H. chars. Qed.

Lemma space_quiet (c : codeunit) : isWhiteSpace c = true -> quiet c = true.
Proof. intros H. chars. Qed.

Lemma plain_not_newline (c : codeunit) : plain c = true -> (10 =? c)%N = false.
Proof. intros H. chars. Qed.

Lemma digit_not_newline (c : codeunit) :
  isDigit c = true -> (10 =? c)%N = false.
Proof. intros H. chars. Qed.


Lemma wfLine_parts (l : line) :
  wfLine l = true ->
  forallb plain (prose l) = true
  /\ dotless (prose l) = true
  /\ match numbered l with
     | Some n => wfNumbered n = true /\ endsWithDigit (prose l) = false
     | None => True
     end.
Proof.
  unfold wfLine. intros H. apply andb_prop in H as [H H3].
  apply andb_prop in H as [H1 H2].
  split; [exact H1|]. split; [exact H2|].
  destruct (numbered l); [|exact I].
  apply andb_prop in H3 as [H3 H4]. apply negb_true_iff in H4. auto.
Qed.

Lemma wfNumbered_parts (n : numberedText) :
  wfNumbered n = true ->
  digits n <> []
  /\ forallb isDigit (digits n) = true
  /\ forallb gap (spacing n) = true
  /\ forallb plain (text n) = true.
Proof.
  unfold wfNumbered. intros W.
  apply andb_prop in W as [W Wh]. apply andb_prop in W as [W Wt].
  apply andb_prop in W as [W Ws]. apply andb_prop in W as [Wn Wd].
  repeat split; auto. destruct (digits n); [discriminate|congruence].
Qed.

(** The digits and the dot of the step rule do not match where the digits
    are not followed by a dot. *)
Lemma digits_without_dot (k : jsstring -> mresult) (s : jsstring) :
  (forall z, stripPrefix (lit ".") z = None -> k z = None) ->
  afterDigits s = true ->
  repGreedy isDigit k s = None.
Proof.
  intros Hk. induction s as [|c s IH]; intros H.
  - apply Hk. reflexivity.
  - cbn [afterDigits] in H. cbn [repGreedy].
    assert (Hc : isDigit c = true \/ (46 =? c)%N = false ->
                 k (c :: s) = None).
    { intros D. apply Hk. change (lit ".") with [46%N]. cbn [stripPrefix].
      replace (46 =? c)%N with false; [reflexivity|].
      symmetry. destruct D as [D|D]; [clear - D; chars | exact D]. }
    destruct (isDigit c) eqn:D.
    + rewrite IH by exact H. apply Hc. now left.
    + apply Hc. right. now apply negb_true_iff.
Qed.

Lemma exec_stepRe_miss (x : codeunit) (s : jsstring) :
  afterDigits s = true -> exec stepRe (x :: s) = None.
Proof.
  intros H. unfold exec, stepRe, Plus. cbn [run].
  destruct (isDigit x); [|reflexivity].
  apply digits_without_dot; [|exact H].
  intros z Hz. rewrite Hz. reflexivity.
Qed.

Lemma afterDigits_dotless (x : codeunit) (p rest : jsstring) :
  isDigit x = true -> dotless (x :: p) = true ->
  (endsWithDigit (x :: p) = true -> afterDigits rest = true) ->
  afterDigits (p ++ rest) = true.
Proof.
  revert x. induction p as [|d p IH]; intros x Dx Hd He.
  - apply He. exact Dx.
  - cbn [dotless] in Hd. apply andb_prop in Hd as [H1 H2].
    rewrite Dx in H1. cbn [andb] in H1. apply negb_true_iff in H1.
    change ((d :: p) ++ rest) with (d :: p ++ rest). cbn [afterDigits].
    case_eq (isDigit d); intros Dd.
    + apply (IH d Dd H2). exact He.
    + rewrite H1. reflexivity.
Qed.

(** Prose in which no digit is followed by a dot is copied by the step
    rule. *)
Lemma steps_prose (p rest : jsstring) :
  dotless p = true ->
  (endsWithDigit p = true -> afterDigits rest = true) ->
  replaceFrom stepRe stepT (p ++ rest) 0
  = p ++ replaceFrom stepRe stepT rest 0.
Proof.
  induction p as [|x p IH]; intros Hd He; [reflexivity|].
  change ((x :: p) ++ rest) with (x :: p ++ rest).
  assert (Hp : dotless p = true).
  { cbn [dotless] in Hd. apply andb_prop in Hd. tauto. }
  assert (Hn : exec stepRe (x :: p ++ rest) = None).
  { destruct (isDigit x) eqn:Dx.
    - apply exec_stepRe_miss. now apply (@afterDigits_dotless x).
    - apply run_mayStart. exact Dx. }
  rewrite replaceFrom_miss by exact Hn.
  rewrite IH; [reflexivity | exact Hp |].
  intros E. apply He. destruct p; [discriminate|exact E].
Qed.

(** The step rule on one line: the prose is copied and the numbered text
    becomes a step item. *)
Lemma steps_line (l : line) (tail : jsstring) :
  wfLine l = true -> lineEnd tail ->
  replaceFrom stepRe stepT (raw l ++ tail) 0
  = shown l ++ replaceFrom stepRe stepT tail 0.
Proof.
  intros W T. apply wfLine_parts in W as (Wp & Wd & Wn).
  unfold raw, shown. rewrite <- !app_assoc.
  rewrite steps_prose; [| exact Wd |].
  2:{ destruct (numbered l) as [n|].
      - destruct Wn as (_ & E). congruence.
      - intros _. destruct T as [->|(tail' & ->)]; reflexivity. }
  f_equal. destruct (numbered l) as [n|]; [|reflexivity].
  destruct Wn as (Wn & _).
  pose proof (exec_stepRe n Wn T) as E.
  destruct (wfNumbered_parts n Wn) as (Hne & _).
  destruct (digits n) as [|d0 ds] eqn:D; [congruence|].
  unfold stepItem. rewrite D. rewrite <- !app_assoc.
  change (((d0 :: ds) ++ lit "." ++ spacing n ++ text n) ++ tail)
    with (d0 :: ds ++ lit "." ++ spacing n ++ text n ++ tail) in *.
  change ((d0 :: ds) ++ lit "." ++ spacing n ++ text n ++ tail)
    with (d0 :: ds ++ lit "." ++ spacing n ++ text n ++ tail) in *.
  replace (ds ++ lit "." ++ spacing n ++ text n ++ tail)
    with ((ds ++ lit "." ++ spacing n ++ text n) ++ tail) in *
    by (rewrite <- !app_assoc; reflexivity).
  erewrite replaceFrom_hit by exact E.
  cbn [expand stepT capture Nat.eqb]. rewrite <- !app_assoc. reflexivity.
Qed.


Lemma steps_join (lines : list line) :
  forallb wfLine lines = true ->
  replaceAll stepRe stepT (join br (map raw lines))
  = join br (map shown lines).
Proof.
  unfold replaceAll. induction lines as [|l ls IH]; [reflexivity|].
  intros W. cbn [forallb] in W. apply andb_prop in W as [Wl Wls].
  destruct ls as [|l2 ls2].
  - cbn [map join]. rewrite <- (app_nil_r (raw l)).
    rewrite steps_line by (auto; left; reflexivity).
    change (replaceFrom stepRe stepT [] 0) with (@nil codeunit).
    apply app_nil_r.
  - change (join br (map raw (l :: l2 :: ls2)))
      with (raw l ++ br ++ join br (map raw (l2 :: ls2))).
    change (join br (map shown (l :: l2 :: ls2)))
      with (shown l ++ br ++ join br (map shown (l2 :: ls2))).
    rewrite steps_line by (auto; right; eauto).
    rewrite replaceFrom_copy by reflexivity.
    rewrite IH by assumption. reflexivity.
Qed.

Lemma newlines_join (ls : list jsstring) :
  forallb (forallb (fun c => negb (10 =? c)%N)) ls = true ->
  replaceAll newlineRe newlineT (join [10%N] ls) = join br ls.
Proof.
  unfold replaceAll. induction ls as [|l ls IH]; [reflexivity|].
  intros W. cbn [forallb] in W. apply andb_prop in W as [Wl Wls].
  destruct ls as [|l2 ls2].
  - cbn [join]. rewrite <- (app_nil_r l) at 1.
    rewrite replaceFrom_copy by exact Wl. apply app_nil_r.
  - change (join [10%N] (l :: l2 :: ls2))
      with (l ++ 10%N :: [] ++ join [10%N] (l2 :: ls2)).
    change (join br (l :: l2 :: ls2)) with (l ++ br ++ join br (l2 :: ls2)).
    rewrite replaceFrom_copy by exact Wl.
    erewrite replaceFrom_hit by reflexivity.
    rewrite IH by assumption. reflexivity.
Qed.

Lemma join_forallb (f : codeunit -> bool) (sep : jsstring)
      (ls : list jsstring) :
  forallb f sep = true -> forallb (forallb f) ls = true ->
  forallb f (join sep ls) = true.
Proof.
  intros Hs. induction ls as [|l ls IH]; [reflexivity|].
  intros W. cbn [forallb] in W. apply andb_prop in W as [Wl Wls].
  destruct ls as [|l2 ls2]; [exact Wl|].
  change (join sep (l :: l2 :: ls2)) with (l ++ sep ++ join sep (l2 :: ls2)).
  rewrite !forallb_app, Wl, Hs, IH by assumption. reflexivity.
Qed.

Lemma forallb_map {A B} (f : B -> bool) (g : A -> B) (l : list A) :
  forallb f (map g l) = forallb (fun x => f (g x)) l.
Proof. induction l as [|x l IH]; simpl; congruence. Qed.

Lemma forallb_app_true {A} (f : A -> bool) (a b : list A) :
  forallb f a = true -> forallb f b = true -> forallb f (a ++ b) = true.
Proof. intros Ha Hb. rewrite forallb_app, Ha, Hb. reflexivity. Qed.

Ltac pieces :=
  repeat apply forallb_app_true;
  try reflexivity;
  (eapply forallb_impl; [|eassumption]); intros ? ?; chars.

Lemma raw_chars (l : line) :
  wfLine l = true ->
  forallb quiet (raw l) = true
  /\ forallb (fun c => negb (10 =? c)%N) (raw l) = true.
Proof.
  intros W. apply wfLine_parts in W as (Wp & _ & Wn). unfold raw.
  destruct (numbered l) as [n|].
  - destruct Wn as (Wn & _).
    destruct (wfNumbered_parts n Wn) as (_ & Wd & Ws & Wt).
    split; pieces.
  - split; pieces.
Qed.

Lemma shown_quiet (l : line) :
  wfLine l = true -> forallb quiet (shown l) = true.
Proof.
  intros W. apply wfLine_parts in W as (Wp & _ & Wn). unfold shown.
  destruct (numbered l) as [n|].
  - destruct Wn as (Wn & _).
    destruct (wfNumbered_parts n Wn) as (_ & Wd & _ & Wt).
    unfold stepItem. pieces.
  - pieces.
Qed.

(** A rule that cannot begin at a quiet character copies quiet text. *)
Lemma quiet_copy (r : regex) (t : template) (s : jsstring) :
  (forall c, quiet c = true -> mayStart r (Some c) = false) ->
  mayStart r None = false ->
  forallb quiet s = true ->
  replaceAll r t s = s /\ replaceFirst r t s = s.
Proof.
  intros Hq He Hs.
  assert (H : forallb (fun x => negb (mayStart r (Some x))) s = true).
  { revert Hs. apply forallb_impl. intros x Hx. rewrite Hq; auto. }
  split; [apply replaceAll_copy | apply replaceFirst_copy]; assumption.
Qed.

Lemma quiet_rules (c : codeunit) :
  quiet c = true ->
  mayStart boldRe (Some c) = false
  /\ mayStart headerRe (Some c) = false
  /\ mayStart tipRe (Some c) = false
  /\ mayStart (sectionRe proTips) (Some c) = false
  /\ mayStart (sectionRe important) (Some c) = false
  /\ mayStart footerRe (Some c) = false.
Proof.
  intros H.
  change (mayStart boldRe (Some c)) with (42 =? c)%N.
  change (mayStart headerRe (Some c))
    with ((55356 =? c) || ((55357 =? c) || ((55357 =? c) || ((55357 =? c)
          || ((55357 =? c) || (9200 =? c))))))%N.
  change (mayStart tipRe (Some c)) with (8226 =? c)%N.
  change (mayStart (sectionRe proTips) (Some c)) with (42 =? c)%N.
  change (mayStart (sectionRe important) (Some c)) with (42 =? c)%N.
  change (mayStart footerRe (Some c)) with (55357 =? c)%N.
  chars.
Qed.

Lemma formatMessage_pipeline (s : jsstring) :
  formatMessage (Some s) = pipeline s.
Proof. destruct s; reflexivity. Qed.

(** Plain text is some white space of its line and a text that does not
    begin with white space. *)
Lemma plain_spacing (s : jsstring) :
  forallb plain s = true ->
  exists ws t,
    s = ws ++ t /\ forallb gap ws = true /\ forallb plain t = true
    /\ match t with
       | [] => true
       | c :: _ => negb (isWhiteSpace c)
       end = true.
Proof.
  induction s as [|c s IH]; intros H.
  - exists [], []. repeat split.
  - cbn [forallb] in H. apply andb_prop in H as [Hc Hs].
    destruct (isWhiteSpace c) eqn:W.
    + destruct (IH Hs) as (ws & t & -> & Hw & Ht & Hh).
      exists (c :: ws), t. repeat split; auto.
      cbn [forallb]. rewrite Hw, andb_true_r.
      clear - Hc W. unfold gap. rewrite W. cbn [andb].
      apply negb_true_iff. chars.
    + exists [], (c :: s). repeat split.
      * cbn [forallb]. rewrite Hc, Hs. reflexivity.
      * cbn. rewrite W. reflexivity.
Qed.

(** A digit before a dot and plain text is a number with its text. *)
Lemma digit_dot_line (c : codeunit) (rest : jsstring) :
  isDigit c = true -> forallb plain rest = true ->
  exists l, wfLine l = true /\ raw l = c :: 46%N :: rest.
Proof.
  intros D R.
  destruct (plain_spacing rest R) as (ws & t & E & Hw & Ht & Hh).
  exists (mkLine [] (Some (mkNumbered [c] ws t))). split.
  - unfold wfLine, wfNumbered.
    cbn [prose numbered digits spacing text forallb dotless
           endsWithDigit truthy andb negb].
    rewrite D, Hw, Ht, Hh. reflexivity.
  - unfold raw. cbn [prose numbered digits spacing text app].
    rewrite <- E. reflexivity.
Qed.

(** Every line of plain characters is prose and, where a digit stands
    before a dot, the first number with its dot, its white space and its
    text. *)
Lemma plain_line (s : jsstring) :
  forallb plain s = true -> exists l, wfLine l = true /\ raw l = s.
Proof.
  induction s as [|c s IH]; intros H.
  - exists (mkLine [] None). split; reflexivity.
  - cbn [forallb] in H. apply andb_prop in H as [Hc Hs].
    destruct (IH Hs) as ([p o] & W & E).
    unfold wfLine in W; cbn [prose numbered] in W.
    apply andb_prop in W as [W W3]. apply andb_prop in W as [W1 W2].
    unfold raw in E. cbn [prose numbered] in E.
    destruct (isDigit c) eqn:D.
    + destruct p as [|d p].
      * destruct o as [n|].
        -- (* the digit joins the number *)
           apply andb_prop in W3 as [Wn We].
           exists (mkLine [] (Some (mkNumbered (c :: digits n) (spacing n)
                                               (text n)))).
           split; [|rewrite <- E; reflexivity].
           unfold wfLine, wfNumbered in *. cbn [prose numbered digits spacing
             text forallb dotless endsWithDigit truthy andb negb] in *.
           rewrite D. cbn [andb].
           apply andb_prop in Wn as [Wn Wh]. apply andb_prop in Wn as [Wn Wt].
           apply andb_prop in Wn as [Wn Ws]. apply andb_prop in Wn as [_ Wd].
           rewrite Wd, Ws, Wt, Wh. reflexivity.
        -- (* the line is one digit *)
           exists (mkLine [c] None). split; [|rewrite <- E; reflexivity].
           unfold wfLine. cbn [prose numbered forallb dotless].
           rewrite Hc, andb_false_r. reflexivity.
      * destruct (N.eqb_spec 46 d) as [<-|Nd].
        -- (* the digit is a number of its own *)
           rewrite <- E in Hs |- *.
           change ((46%N :: p) ++ match o with
                                  | Some n => digits n ++ lit "." ++ spacing n
                                                ++ text n
                                  | None => []
                                  end)
             with (46%N :: (p ++ match o with
                                 | Some n => digits n ++ lit "." ++ spacing n
                                               ++ text n
                                 | None => []
                                 end)) in *.
           apply (@digit_dot_line c _ D).
           cbn [forallb] in Hs. apply andb_prop in Hs. tauto.
        -- (* the digit stays in the prose *)
           exists (mkLine (c :: d :: p) o). split; [|rewrite <- E; reflexivity].
           unfold wfLine. cbn [prose numbered forallb dotless].
           cbn [forallb] in W1. rewrite Hc, W1.
           cbn [dotless] in W2. rewrite W2.
           apply N.eqb_neq in Nd. rewrite Nd, andb_false_r. cbn [negb andb].
           exact W3.
    + exists (mkLine (c :: p) o). split; [|rewrite <- E; reflexivity].
      unfold wfLine. cbn [prose numbered forallb dotless].
      rewrite Hc, W1, W2, D. cbn [andb negb].
      destruct o as [n|]; [|reflexivity].
      apply andb_prop in W3 as [Wn We]. rewrite Wn. cbn [andb].
      destruct p as [|d p]; [cbn; rewrite D; reflexivity|exact We].
Qed.
(** C5, as the script has it: in a text of plain lines, the first number
    of a line that a dot follows is shown, with the text behind the dot and
    its white space up to the end of the line, as a step item that holds
    the number and the text apart, whether the number opens the line or
    follows prose on it; the rule is tied to the end of the line only, so
    prose before the number is copied and the number behind it is wrapped
    all the same; numbers further on in the line stay in the text of the
    item.  Every line of plain characters is such a line. *)
Theorem step_items_wrapped (lines : list line) :
  (forallb wfLine lines = true ->
   formatMessage (Some (join [10%N] (map raw lines)))
   = join br (map shown lines))
  /\ (forall text, forallb plain text = true ->
        exists l, wfLine l = true /\ raw l = text).
Proof.
  split; [|exact plain_line].
  intros W. rewrite formatMessage_pipeline. unfold pipeline.
  assert (Wr : forall f, (forall l, wfLine l = true -> forallb f (raw l) = true) ->
                         forallb (forallb f) (map raw lines) = true).
  { intros f Hf. rewrite forallb_map. revert W. apply forallb_impl. exact Hf. }
  assert (Q0 : forallb quiet (join [10%N] (map raw lines)) = true).
  { apply join_forallb; [reflexivity|]. apply Wr. intros l Hl.
    now apply raw_chars. }
  assert (Q2 : forallb quiet (join br (map raw lines)) = true).
  { apply join_forallb; [reflexivity|]. apply Wr. intros l Hl.
    now apply raw_chars. }
  assert (Q4 : forallb quiet (join br (map shown lines)) = true).
  { apply join_forallb; [reflexivity|]. rewrite forallb_map.
    revert W. apply forallb_impl. exact shown_quiet. }
  rewrite (proj1 (quiet_copy boldRe boldT _
                    (fun c H => proj1 (quiet_rules c H)) eq_refl Q0)).
  rewrite newlines_join by (apply Wr; intros l Hl; now apply raw_chars).
  rewrite (proj1 (quiet_copy headerRe headerT _
                    (fun c H => proj1 (proj2 (quiet_rules c H))) eq_refl Q2)).
  rewrite steps_join by exact W.
  rewrite (proj1 (quiet_copy tipRe tipT _
           (fun c H => proj1 (proj2 (proj2 (quiet_rules c H)))) eq_refl Q4)).
  rewrite (proj1 (quiet_copy (sectionRe proTips) _ _
           (fun c H => proj1 (proj2 (proj2 (proj2 (quiet_rules c H)))))
           eq_refl Q4)).
  rewrite (proj1 (quiet_copy (sectionRe important) _ _
           (fun c H => proj1 (proj2 (proj2 (proj2 (proj2 (quiet_rules c H))))))
           eq_refl Q4)).
  apply (quiet_copy footerRe footerT _
           (fun c H => proj2 (proj2 (proj2 (proj2 (proj2 (quiet_rules c H))))))
           eq_refl Q4).
Qed.

End FormatterFacts.

Lemma step_items_wrapped_witness :
  formatMessage
    (Some (lit "Steps for 2 users:" ++ [10%N] ++ lit "1. Open form 7"
             ++ [10%N] ++ lit "then 2.  save 3. close"))
  = lit "Steps for 2 users:<br>" ++ divOpen "step-item"
      ++ lit "<strong>1.</strong> Open form 7</div><br>then "
      ++ divOpen "step-item"
      ++ lit "<strong>2.</strong> save 3. close</div>".
Proof.
  exact (proj1 (step_items_wrapped
                  [mkLine (lit "Steps for 2 users:") None;
                   mkLine [] (Some (mkNumbered (lit "1") (lit " ")
                                               (lit "Open form 7")));
                   mkLine (lit "then ")
                          (Some (mkNumbered (lit "2") (lit "  ")
                                            (lit "save 3. close")))])
               eq_refl).
Defined.

(** A number inside a sentence is wrapped as a step item, and so is the
    integer part of a decimal number. *)
Lemma step_rule_wraps_numbers_in_prose :
  formatMessage (Some (lit "See 3. now"))
  = lit "See " ++ divOpen "step-item" ++ lit "<strong>3.</strong> now</div>"
  /\ formatMessage (Some (lit "Version 2.5 is out"))
     = lit "Version " ++ divOpen "step-item"
         ++ lit "<strong>2.</strong> 5 is out</div>"
  /\ includes (formatMessage (Some (lit "See 3. now")))
              (divOpen "step-item") = true.
Proof. repeat split; vm_compute; reflexivity. Qed.

(** ** The formatter on missing input *)

(** C6: the formatter is total on missing input: a missing ([undefined] or
    [null]) argument and the empty string both give the empty string. *)
Theorem formatMessage_missing_input :
  formatMessage None = lit "" /\ formatMessage (Some (lit "")) = lit "".
Proof. split; reflexivity. Qed.

(** ** More on the knowledge table *)

Section TableMore.
Import Admin.

Lemma truncateText_fits (text : jsstring) (maxLength : Z) :
  (Z.of_nat (length text) <= maxLength)%Z -> truncateText text maxLength = text.
Proof.
  intros H. unfold truncateText.
  destruct (Z.leb_spec (Z.of_nat (length text)) maxLength); [reflexivity|lia].
Qed.

Lemma truncateText_cut (text : jsstring) (maxLength : Z) :
  (maxLength < Z.of_nat (length text))%Z ->
  truncateText text maxLength
  = firstn (Z.to_nat maxLength) text ++ lit "..."
  /\ length (firstn (Z.to_nat maxLength) text) = Z.to_nat maxLength.
Proof.
  intros H. unfold truncateText.
  destruct (Z.leb_spec (Z.of_nat (length text)) maxLength); [lia|].
  split; [reflexivity|]. rewrite length_firstn. lia.
Qed.

(** X1: [truncateText] gives back a text that fits.  For a [maxLength] that
    is not negative its result is never longer than [maxLength + 3]; for a
    negative [maxLength] it is the three dots, whatever the text.  The
    result agrees with the text on the first [maxLength] characters, and
    truncating it again changes nothing. *)
Theorem truncateText_bounds (text : jsstring) (maxLength : Z) :
  (Z.of_nat (length (truncateText text maxLength)) <= Z.max maxLength 0 + 3)%Z
  /\ ((maxLength < 0)%Z -> truncateText text maxLength = lit "...")
  /\ firstn (Z.to_nat maxLength) (truncateText text maxLength)
     = firstn (Z.to_nat maxLength) text
  /\ truncateText (truncateText text maxLength) maxLength
     = truncateText text maxLength
  /\ ((Z.of_nat (length text) <= maxLength)%Z ->
      truncateText text maxLength = text).
Proof.
  destruct (Z.le_gt_cases (Z.of_nat (length text)) maxLength) as [Hfit|Hcut].
  - rewrite !truncateText_fits by (rewrite ?truncateText_fits; assumption).
    repeat split; auto; lia.
  - destruct (@truncateText_cut text maxLength Hcut) as (E & L).
    rewrite E. split; [|split; [|split; [|split]]].
    + rewrite length_app, L. simpl. lia.
    + intros N. replace (Z.to_nat maxLength) with 0 by lia. reflexivity.
    + rewrite firstn_app, L, Nat.sub_diag, firstn_0, app_nil_r.
      rewrite firstn_firstn, Nat.min_id. reflexivity.
    + destruct (@truncateText_cut
                  (firstn (Z.to_nat maxLength) text ++ lit "...") maxLength)
        as (E' & _).
      { rewrite length_app, L. simpl. lia. }
      rewrite E'. f_equal.
      rewrite firstn_app, L, Nat.sub_diag, firstn_0, app_nil_r.
      rewrite firstn_firstn, Nat.min_id. reflexivity.
    + lia.
Qed.

Lemma truncateText_bounds_witness :
  truncateText (lit "payroll") 50 = lit "payroll"
  /\ truncateText (lit "abc") (-2) = lit "...".
Proof.
  split.
  - apply (proj2 (proj2 (proj2 (proj2
             (truncateText_bounds (lit "payroll") 50))))).
    vm_compute. discriminate.
  - apply (proj1 (proj2 (truncateText_bounds (lit "abc") (-2)))).
    reflexivity.
Defined.

Lemma sort_head (l : list (jsstring * Z)) :
  l <> [] ->
  exists before top after rest,
    l = before ++ top :: after
    /\ sort (fun a b => (snd b - snd a)%Z) l = top :: rest
    /\ (forall e, In e before -> (snd e < snd top)%Z)
    /\ (forall e, In e after -> (snd e <= snd top)%Z).
Proof.
  induction l as [|x l IH]; [congruence|]. intros _.
  destruct l as [|y l'].
  - exists [], x, [], []. repeat split; simpl; tauto.
  - destruct IH as (b & t & a & rest & E & S & Hb & Ha); [discriminate|].
    change (sort (fun a0 b0 => (snd b0 - snd a0)%Z) (x :: y :: l'))
      with (insertSorted (fun a0 b0 => (snd b0 - snd a0)%Z) x
              (sort (fun a0 b0 => (snd b0 - snd a0)%Z) (y :: l'))).
    rewrite S. cbn [insertSorted].
    destruct (Z.gtb_spec (snd t - snd x) 0) as [G|G].
    + exists (x :: b), t, a, (insertSorted (fun a0 b0 => (snd b0 - snd a0)%Z) x rest).
      rewrite E. repeat split; auto.
      intros e [<-|I]; [lia|auto].
    + exists [], x, (y :: l'), (t :: rest). repeat split; auto.
      * intros e [].
      * intros e I. rewrite E in I. apply in_app_or in I as [I|[<-|I]].
        -- specialize (Hb e I). lia.
        -- lia.
        -- specialize (Ha e I). lia.
Qed.

(** X2: [getTopModule] answers ["-"] for a missing or empty breakdown, and
    otherwise the module of the first entry whose count no entry exceeds:
    every entry before it has a smaller count and no entry after it a
    greater one. *)
Theorem getTopModule_first_maximum (modules : list (jsstring * Z)) :
  getTopModule None = lit "-"
  /\ getTopModule (Some []) = lit "-"
  /\ (modules <> [] ->
      exists before top after,
        modules = before ++ top :: after
        /\ getTopModule (Some modules) = fst top
        /\ (forall e, In e before -> (snd e < snd top)%Z)
        /\ (forall e, In e after -> (snd e <= snd top)%Z)).
Proof.
  split; [reflexivity|]. split; [reflexivity|]. intros NE.
  destruct (sort_head NE) as (b & t & a & rest & E & S & Hb & Ha).
  exists b, t, a. repeat split; auto.
  unfold getTopModule. destruct modules; [congruence|]. rewrite S. reflexivity.
Qed.

Lemma getTopModule_first_maximum_witness :
  getTopModule (Some [(lit "hr", 2%Z); (lit "payroll", 5%Z);
                      (lit "general", 5%Z); (lit "it", 1%Z)])
  = lit "payroll".
Proof.
  destruct (@getTopModule_first_maximum
              [(lit "hr", 2%Z); (lit "payroll", 5%Z);
               (lit "general", 5%Z); (lit "it", 1%Z)])
    as (_ & _ & H).
  destruct (H ltac:(discriminate)) as (b & t & a & E & G & _).
  reflexivity.
Defined.

Lemma firstn_add {A} (a b : nat) (l : list A) :
  firstn (a + b) l = firstn a l ++ firstn b (skipn a l).
Proof.
  revert l; induction a as [|a IH]; intros l; [reflexivity|].
  destruct l as [|x l]; simpl.
  - now rewrite firstn_nil.
  - now rewrite IH.
Qed.

Lemma concat_segments {A} (l : list A) (m : nat) :
  concat (map (fun i => segment l ((i - 1) * 10) (i * 10)) (seq 1 m))
  = firstn (m * 10) l.
Proof.
  induction m as [|m IH]; [reflexivity|].
  rewrite seq_S, map_app, concat_app, IH. cbn [map concat].
  rewrite app_nil_r. unfold segment.
  replace (S m * 10) with (m * 10 + 10) by lia.
  replace ((1 + m) * 10 - (1 + m - 1) * 10) with 10 by lia.
  replace ((1 + m - 1) * 10) with (m * 10) by lia.
  rewrite firstn_add. reflexivity.
Qed.

Lemma length_segment {A} (l : list A) (i p : nat) :
  length (segment l i (i + p)) = Nat.min p (length l - i).
Proof.
  unfold segment. rewrite length_firstn, length_skipn. f_equal. lia.
Qed.

(** X3: the pages 1 to [totalPages] cut the filtered collection into
    consecutive slices: put together in order they give it back, so every
    item is on exactly one page, and none of these pages is empty or holds
    more than 10 items. *)
Theorem pages_partition (st : state) :
  concat (map (fun page => pageData (changeKnowledgePage page st)) (pagesOf st))
  = filteredKnowledgeData st
  /\ (forall page, In page (pagesOf st) ->
        pageData (changeKnowledgePage page st) <> []
        /\ length (pageData (changeKnowledgePage page st)) <= 10).
Proof.
  destruct (totalPages_ceiling st) as (T & B). cbv zeta in T, B.
  set (n := length (filteredKnowledgeData st)) in *.
  assert (T0 : (0 <= totalPages st)%Z).
  { rewrite T. apply Z.div_pos; lia. }
  assert (P : forall i, 1 <= i ->
              pageData (changeKnowledgePage (Z.of_nat i) st)
              = segment (filteredKnowledgeData st) ((i - 1) * 10) (i * 10)).
  { intros i Hi. rewrite pageData_changeKnowledgePage by lia.
    rewrite Nat2Z.id. reflexivity. }
  split.
  - unfold pagesOf. rewrite map_map.
    rewrite (map_ext_in _ (fun i => segment (filteredKnowledgeData st)
                                             ((i - 1) * 10) (i * 10))).
    + rewrite concat_segments. apply firstn_all2. fold n. lia.
    + intros i Hi. apply in_seq in Hi. apply P. lia.
  - intros page Hp. unfold pagesOf in Hp.
    apply in_map_iff in Hp as (i & <- & Hi). apply in_seq in Hi.
    rewrite P by lia.
    replace (i * 10) with ((i - 1) * 10 + 10) by lia.
    assert (L := length_segment (filteredKnowledgeData st) ((i - 1) * 10) 10).
    fold n in L. split.
    + intros E. rewrite E in L. cbn [length] in L.
      assert (Z.of_nat i <= totalPages st)%Z by lia. lia.
    + rewrite L. lia.
Qed.

Section PageClicks.
Variable toLowerCase : jsstring -> jsstring.

Lemma pageData_ext (st st' : state) :
  currentKnowledgePage st = currentKnowledgePage st' ->
  filteredKnowledgeData st = filteredKnowledgeData st' ->
  pageData st = pageData st'.
Proof. unfold pageData. intros -> ->. reflexivity. Qed.

Lemma totalPages_ext (st st' : state) :
  filteredKnowledgeData st = filteredKnowledgeData st' ->
  totalPages st = totalPages st'.
Proof. unfold totalPages. intros ->. reflexivity. Qed.

Lemma rendered_body (st : state) :
  knowledgeTableBody (updateKnowledgePagination (renderKnowledgeTable st))
  = bodyOf (pageData st)
  /\ pageData (updateKnowledgePagination (renderKnowledgeTable st))
     = pageData st.
Proof.
  split.
  - unfold updateKnowledgePagination.
    destruct (totalPages (renderKnowledgeTable st) <=? 1)%Z;
      cbn [knowledgeTableBody setPagination];
      unfold renderKnowledgeTable; destruct (pageData st); reflexivity.
  - destruct (updateKnowledgePagination_fields (renderKnowledgeTable st))
      as (E1 & _ & E2 & _).
    destruct (renderKnowledgeTable_fields st) as (E3 & _ & E4 & _).
    apply pageData_ext; congruence.
Qed.



Lemma fresh_buttons (st : state) :
  currentKnowledgePage st = 1%Z ->
  Forall (fun b => disabled b = false ->
                   (1 <= onclick b <= Z.max 1 (totalPages st))%Z)
         (knowledgePagination (updateKnowledgePagination st)).
Proof.
  intros Hp. unfold updateKnowledgePagination. rewrite Hp.
  destruct (Z.leb_spec (totalPages st) 1);
    cbn [knowledgePagination setPagination]; [constructor|].
  constructor; [|apply Forall_app; split].
  - cbn [disabled]. discriminate.
  - apply Forall_forall. intros b Hb.
    apply in_map_iff in Hb as (i & <- & Hi).
    apply in_map_iff in Hi as (k & <- & Hk).
    apply in_seq in Hk. cbn [onclick]. lia.
  - constructor; [|constructor]. cbn [onclick]. lia.
Qed.

Lemma clickPage_within (n : nat) (st : state) (top : Z) :
  Forall (fun b => disabled b = false -> (1 <= onclick b <= top)%Z)
         (knowledgePagination st) ->
  (1 <= currentKnowledgePage st <= top)%Z ->
  knowledgePagination (clickPage n st) = knowledgePagination st
  /\ filteredKnowledgeData (clickPage n st) = filteredKnowledgeData st
  /\ (1 <= currentKnowledgePage (clickPage n st) <= top)%Z.
Proof.
  intros HB Hp. unfold clickPage.
  destruct (nth_error (knowledgePagination st) n) as [b|] eqn:E; auto.
  destruct (disabled b) eqn:D; auto.
  destruct (changeKnowledgePage_fields (onclick b) st)
    as (-> & _ & -> & _ & _ & ->).
  repeat split; rewrite Forall_forall in HB;
    apply (HB b (nth_error_In _ _ E) D).
Qed.

Lemma clicks_within (ns : list nat) (st : state) (top : Z) :
  Forall (fun b => disabled b = false -> (1 <= onclick b <= top)%Z)
         (knowledgePagination st) ->
  (1 <= currentKnowledgePage st <= top)%Z ->
  knowledgePagination (clicks ns st) = knowledgePagination st
  /\ filteredKnowledgeData (clicks ns st) = filteredKnowledgeData st
  /\ (1 <= currentKnowledgePage (clicks ns st) <= top)%Z.
Proof.
  revert st. induction ns as [|n ns IH]; intros st HB Hp; [auto|].
  cbn [clicks fold_left]. fold (clicks ns (clickPage n st)).
  destruct (@clickPage_within n st top HB Hp) as (E1 & E2 & E3).
  destruct (IH (clickPage n st)) as (F1 & F2 & F3);
    [rewrite E1; exact HB | exact E3 |].
  rewrite F1, F2, E1, E2. auto.
Qed.

(** X4: after a search, however the pagination buttons are clicked, the bar
    stays as the search drew it, the filtered collection stays the same, and
    the page stays between 1 and the number of pages (it stays 1 when
    nothing matched and there is no page); so the table is never empty as
    long as something matched. *)
Theorem clicks_after_search (st : state) (ns : list nat) :
  let found := searchKnowledge toLowerCase st in
  let shown := clicks ns found in
  knowledgePagination shown = knowledgePagination found
  /\ filteredKnowledgeData shown = filteredKnowledgeData found
  /\ (1 <= currentKnowledgePage shown <= Z.max 1 (totalPages found))%Z
  /\ (filteredKnowledgeData found <> [] -> pageData shown <> []).
Proof.
  intros found shown.
  assert (HB : Forall (fun b => disabled b = false ->
                         (1 <= onclick b <= Z.max 1 (totalPages found))%Z)
                      (knowledgePagination found)).
  { unfold found, searchKnowledge.
    match goal with |- context [renderKnowledgeTable ?z] => set (y := z) end.
    destruct (renderKnowledgeTable_fields y) as (E3 & _ & E4 & _).
    destruct (updateKnowledgePagination_fields (renderKnowledgeTable y))
      as (_ & _ & E5 & _).
    rewrite (totalPages_ext _ (renderKnowledgeTable y) E5).
    apply fresh_buttons. rewrite E3. reflexivity. }
  assert (Hp : (1 <= currentKnowledgePage found <= Z.max 1 (totalPages found))%Z).
  { unfold found. destruct (searchKnowledge_fields toLowerCase st) as (-> & _).
    lia. }
  destruct (@clicks_within ns found _ HB Hp) as (E1 & E2 & E3).
  fold shown in E1, E2, E3.
  repeat split; try assumption; try lia.
  intros NE.
  rewrite pageData_segment by lia. rewrite E2.
  destruct (totalPages_ceiling found) as (_ & B). cbv zeta in B.
  set (n := length (filteredKnowledgeData found)) in *.
  assert (0 < n).
  { unfold n. destruct (filteredKnowledgeData found); [congruence|simpl; lia]. }
  set (p := Z.to_nat (currentKnowledgePage shown)).
  replace (p * 10) with ((p - 1) * 10 + 10) by (unfold p; lia).
  intros E.
  assert (L := length_segment (filteredKnowledgeData found) ((p - 1) * 10) 10).
  rewrite E in L. cbn [length] in L. fold n in L. unfold p in L. lia.
Qed.

Lemma rendered_ext (page : Z) (data filtered : list KnowledgeItem)
      (text m : jsstring) (b b' : tableBody) (bs bs' : list pageButton) :
  updateKnowledgePagination
    (renderKnowledgeTable (mkState page data filtered text m b bs))
  = updateKnowledgePagination
      (renderKnowledgeTable (mkState page data filtered text m b' bs')).
Proof.
  unfold updateKnowledgePagination, renderKnowledgeTable, totalPages, pageData.
  cbn [currentKnowledgePage filteredKnowledgeData].
  destruct (slice filtered ((page - 1) * itemsPerPage)
                  ((page - 1) * itemsPerPage + itemsPerPage));
    cbn [setTableBody filteredKnowledgeData currentKnowledgePage knowledgeData
         searchKnowledgeValue moduleFilterValue knowledgePagination
         knowledgeTableBody];
    destruct (ceilDiv (Z.of_nat (length filtered)) itemsPerPage <=? 1)%Z;
    reflexivity.
Qed.

Lemma searchKnowledge_ext (st st' : state) :
  knowledgeData st = knowledgeData st' ->
  searchKnowledgeValue st = searchKnowledgeValue st' ->
  moduleFilterValue st = moduleFilterValue st' ->
  searchKnowledge toLowerCase st = searchKnowledge toLowerCase st'.
Proof.
  intros E1 E2 E3. unfold searchKnowledge. rewrite E1, E2, E3.
  apply rendered_ext.
Qed.

(** X6: a search looks at the fetched collection and the two inputs only:
    searching twice, or after any page change, gives the same state as
    searching once; and with both inputs empty it gives the whole fetched
    collection back, in its order. *)
Theorem search_depends_on_inputs (st : state) :
  searchKnowledge toLowerCase (searchKnowledge toLowerCase st)
  = searchKnowledge toLowerCase st
  /\ (forall page,
        searchKnowledge toLowerCase (changeKnowledgePage page st)
        = searchKnowledge toLowerCase st)
  /\ (toLowerCase [] = [] ->
      searchKnowledgeValue st = [] -> moduleFilterValue st = [] ->
      filteredKnowledgeData (searchKnowledge toLowerCase st)
      = knowledgeData st).
Proof.
  split; [|split].
  - destruct (searchKnowledge_fields toLowerCase st) as (_ & E1 & _ & E2 & E3).
    apply searchKnowledge_ext; assumption.
  - intros page.
    destruct (changeKnowledgePage_fields page st) as (_ & E1 & _ & E2 & E3 & _).
    apply searchKnowledge_ext; assumption.
  - intros L T M.
    destruct (searchKnowledge_fields toLowerCase st) as (_ & _ & -> & _).
    rewrite T, M, L.
    induction (knowledgeData st) as [|x l IH]; [reflexivity|].
    cbn [filter].
    change (matchesSearch toLowerCase [] x && matchesModule [] x) with true.
    cbv iota. rewrite IH. reflexivity.
Qed.

(** X7: a reload puts the whole fetched collection into the table whatever
    the inputs hold, and keeps the inputs and the page; when the kept page
    lies behind the reloaded collection the table shows the empty row. *)
Theorem reload_keeps_page_and_inputs (data : list KnowledgeItem) (st : state) :
  let loaded := loadKnowledgeBase data st in
  filteredKnowledgeData loaded = data
  /\ knowledgeData loaded = data
  /\ currentKnowledgePage loaded = currentKnowledgePage st
  /\ searchKnowledgeValue loaded = searchKnowledgeValue st
  /\ moduleFilterValue loaded = moduleFilterValue st
  /\ knowledgeTableBody loaded = bodyOf (pageData loaded)
  /\ ((1 <= currentKnowledgePage st)%Z ->
      (Z.of_nat (length data) <= (currentKnowledgePage st - 1) * 10)%Z ->
      knowledgeTableBody loaded = EmptyState).
Proof.
  intros loaded.
  destruct (loadKnowledgeBase_fields data st) as (Ep & Ed & Ef).
  fold loaded in Ep, Ed, Ef.
  assert (Eb : knowledgeTableBody loaded = bodyOf (pageData loaded)).
  { unfold loaded, loadKnowledgeBase.
    match goal with |- context [renderKnowledgeTable ?z] =>
      destruct (rendered_body z) as (-> & ->) end.
    reflexivity. }
  assert (Ei : searchKnowledgeValue loaded = searchKnowledgeValue st
               /\ moduleFilterValue loaded = moduleFilterValue st).
  { unfold loaded, loadKnowledgeBase.
    match goal with |- context [renderKnowledgeTable ?z] =>
      destruct (updateKnowledgePagination_fields (renderKnowledgeTable z))
        as (_ & _ & _ & -> & ->);
      destruct (renderKnowledgeTable_fields z) as (_ & _ & _ & -> & -> & _)
    end.
    split; reflexivity. }
  repeat split; try tauto.
  intros Hp Hn. rewrite Eb.
  rewrite pageData_segment by (rewrite Ep; exact Hp).
  rewrite Ep, Ef. unfold segment.
  rewrite skipn_all2 by lia. rewrite firstn_nil. reflexivity.
Qed.

End PageClicks.


Lemma pages_partition_witness :
  pageData (changeKnowledgePage 3 thirdPageOf25) <> []
  /\ length (pageData (changeKnowledgePage 3 thirdPageOf25)) <= 10.
Proof.
  apply (proj2 (pages_partition thirdPageOf25) 3%Z).
  right. right. left. reflexivity.
Defined.

Lemma clicks_after_search_witness :
  pageData (clicks [3; 0; 4] (searchKnowledge asciiLower thirdPageOf25))
  <> [].
Proof.
  apply (@clicks_after_search asciiLower thirdPageOf25 [3; 0; 4]).
  intros H. vm_compute in H. discriminate H.
Defined.

Lemma search_depends_on_inputs_witness :
  filteredKnowledgeData (searchKnowledge asciiLower thirdPageOf25)
  = knowledgeData thirdPageOf25.
Proof.
  apply (@search_depends_on_inputs asciiLower thirdPageOf25); reflexivity.
Defined.

Lemma reload_keeps_page_and_inputs_witness :
  knowledgeTableBody (loadKnowledgeBase (numbered 12) thirdPageOf25)
  = EmptyState.
Proof.
  apply (@reload_keeps_page_and_inputs (numbered 12) thirdPageOf25);
    vm_compute; discriminate.
Defined.

End TableMore.

(** ** More on the keyword editor *)

Section KeywordMore.
Import KeywordEditor.

Lemma trimStart_app_nonblank (s r : jsstring) :
  trimStart s <> [] -> trimStart (s ++ r) = trimStart s ++ r.
Proof.
  induction s as [|c s IH]; simpl; [congruence|].
  destruct (isWhiteSpace c); auto.
Qed.

Lemma trimEnd_pad (t r : jsstring) :
  forallb isWhiteSpace r = true -> trimEnd (t ++ r) = trimEnd t.
Proof.
  intros H. unfold trimEnd. rewrite rev_app_distr.
  rewrite trimStart_pad by (rewrite forallb_rev; exact H). reflexivity.
Qed.

(** White space around a string does not change what it trims to. *)
Lemma trim_pads (l s r : jsstring) :
  forallb isWhiteSpace l = true -> forallb isWhiteSpace r = true ->
  trim (l ++ s ++ r) = trim s.
Proof.
  intros Hl Hr. unfold trim. rewrite trimStart_pad by exact Hl.
  destruct (trimStart s) as [|c t] eqn:E.
  - assert (W : forallb isWhiteSpace (s ++ r) = true).
    { rewrite forallb_app, Hr. apply trimStart_nil_iff in E. rewrite E.
      reflexivity. }
    apply trimStart_nil_iff in W. rewrite W. reflexivity.
  - rewrite trimStart_app_nonblank by (rewrite E; discriminate).
    rewrite E. apply trimEnd_pad. exact Hr.
Qed.

Lemma trim_fixed (x : jsstring) :
  startsBlack x -> startsBlack (rev x) -> trim x = x.
Proof.
  intros H1 H2. unfold trim, trimEnd.
  destruct x as [|a x']; [reflexivity|].
  cbn [trimStart]. simpl in H1. rewrite H1.
  destruct (rev (a :: x')) as [|b y] eqn:E.
  - apply (f_equal (@length _)) in E. rewrite length_rev in E. discriminate.
  - cbn [trimStart]. simpl in H2. rewrite H2.
    rewrite <- E. apply rev_involutive.
Qed.

Lemma trim_ends (s : jsstring) :
  startsBlack (trim s) /\ startsBlack (rev (trim s)).
Proof.
  unfold trim, trimEnd. rewrite rev_involutive.
  split; [|apply trimStart_head].
  destruct (trimStart_suffix (rev (trimStart s))) as (r & Er & Wr).
  set (u := trimStart (rev (trimStart s))) in *.
  pose proof (trimStart_head s) as Hs.
  destruct (rev u) as [|x w] eqn:Eu; [exact I|].
  apply (f_equal (@rev _)) in Er.
  rewrite rev_involutive, rev_app_distr, Eu in Er.
  destruct (trimStart s) as [|a t]; [discriminate|].
  inversion Er; subst. exact Hs.
Qed.

Lemma trim_idempotent (s : jsstring) : trim (trim s) = trim s.
Proof. apply trim_fixed; apply trim_ends. Qed.

Lemma forallb_trimStart (f : codeunit -> bool) (s : jsstring) :
  forallb f s = true -> forallb f (trimStart s) = true.
Proof.
  induction s as [|c s IH]; simpl; auto.
  intros H. destruct (isWhiteSpace c); [apply IH|]; simpl.
  - apply andb_prop in H. tauto.
  - exact H.
Qed.

Lemma forallb_trim (f : codeunit -> bool) (s : jsstring) :
  forallb f s = true -> forallb f (trim s) = true.
Proof.
  intros H. unfold trim, trimEnd.
  rewrite forallb_rev. apply forallb_trimStart.
  rewrite forallb_rev. apply forallb_trimStart. exact H.
Qed.

Lemma removeFirst_app (c : codeunit) (a b : jsstring) :
  forallb (fun x => negb (x =? c)%N) a = true ->
  removeFirst c (a ++ c :: b) = a ++ b.
Proof.
  induction a as [|x a IH]; simpl.
  - rewrite N.eqb_refl. reflexivity.
  - intros H. apply andb_prop in H as [Hx Ha].
    apply negb_true_iff in Hx. rewrite Hx, IH by assumption. reflexivity.
Qed.

Lemma clean_parts (keyword : jsstring) :
  clean keyword = true ->
  htmlText keyword = true
  /\ forallb (fun c => negb (c =? times)%N) keyword = true.
Proof. unfold clean. intros H. apply andb_prop in H. exact H. Qed.

(** What is read back from the tag of a clean keyword. *)
Lemma read_clean (keyword : jsstring) :
  clean keyword = true ->
  exists t, textContent keyword = Some t
            /\ trim (removeFirst times t) = trim keyword.
Proof.
  intros C. apply clean_parts in C as (H & N).
  unfold textContent. rewrite H. eexists. split; [reflexivity|].
  replace (indent 8 ++ keyword ++ indent 8 ++ [times] ++ indent 4)
    with ((indent 8 ++ keyword ++ indent 8) ++ times :: indent 4)
    by (rewrite <- !app_assoc; reflexivity).
  rewrite removeFirst_app.
  - rewrite <- !app_assoc.
    replace (keyword ++ indent 8 ++ indent 4)
      with (keyword ++ (indent 8 ++ indent 4)) by reflexivity.
    apply trim_pads; reflexivity.
  - repeat apply forallb_app_true; try reflexivity. exact N.
Qed.

Lemma readTags_clean (tags : list jsstring) :
  forallb clean tags = true -> readTags tags = Some (map trim tags).
Proof.
  induction tags as [|k tags IH]; [reflexivity|].
  intros H. cbn [forallb] in H. apply andb_prop in H as [Hk Ht].
  destruct (read_clean k Hk) as (t & E1 & E2).
  cbn [readTags map]. rewrite E1, IH, E2 by assumption. reflexivity.
Qed.

Lemma clean_trim (keyword : jsstring) :
  clean keyword = true -> clean (trim keyword) = true.
Proof.
  intros C. apply clean_parts in C as (H & N). unfold clean, htmlText in *.
  rewrite !forallb_trim by assumption. reflexivity.
Qed.

Lemma enter_container (keywords : list jsstring) (e : editor) :
  keywordsContainer (enter keywords e)
  = keywordsContainer e
    ++ map trim (filter (fun k => negb (forallb isWhiteSpace k)) keywords).
Proof.
  revert e. induction keywords as [|k ks IH]; intros e.
  - simpl. now rewrite app_nil_r.
  - cbn [enter fold_left]. fold (enter ks (add k e)). rewrite IH.
    cbn [filter]. destruct (forallb isWhiteSpace k) eqn:B; cbn [negb].
    + rewrite add_blank by assumption. reflexivity.
    + rewrite add_keyword by assumption. cbn [keywordsContainer map].
      rewrite <- app_assoc. reflexivity.
Qed.

(** X8: the keywords that are read back from the editor are the keywords
    the user entered, trimmed, in the order of entry and without the blank
    ones, as long as each is text the HTML parser copies and holds no
    multiplication sign; tags that were put there untrimmed are read back
    trimmed. *)
Theorem keywords_read_back (keywords : list jsstring) (e : editor) :
  forallb clean keywords = true ->
  forallb clean (keywordsContainer e) = true ->
  getKeywordsFromContainer e = Some (map trim (keywordsContainer e))
  /\ getKeywordsFromContainer (enter keywords e)
     = Some (map trim (keywordsContainer e)
             ++ map trim (filter (fun k => negb (forallb isWhiteSpace k))
                                 keywords)).
Proof.
  intros Hk He. unfold getKeywordsFromContainer. split.
  - apply readTags_clean. exact He.
  - rewrite enter_container, readTags_clean.
    + rewrite map_app, map_map.
      rewrite (map_ext (fun x => trim (trim x)) trim trim_idempotent).
      reflexivity.
    + rewrite forallb_app, He. cbn [andb].
      rewrite forallb_map. clear He.
      induction keywords as [|k ks IH]; [reflexivity|].
      cbn [forallb] in Hk. apply andb_prop in Hk as [Ck Cks].
      cbn [filter]. destruct (negb (forallb isWhiteSpace k)); cbn [forallb].
      * rewrite clean_trim, IH by assumption. reflexivity.
      * apply IH. exact Cks.
Qed.

Lemma keywords_read_back_witness :
  getKeywordsFromContainer
    (enter [lit " pay roll "; lit "  "; lit "tax"] (mkEditor [] [lit " hr"]))
  = Some [lit "hr"; lit "pay roll"; lit "tax"].
Proof.
  exact (proj2 (@keywords_read_back
                  [lit " pay roll "; lit "  "; lit "tax"]
                  (mkEditor [] [lit " hr"]) eq_refl eq_refl)).
Defined.

(** X9: from the tag of a keyword that holds a multiplication sign, the
    keyword is read without its own first sign, and with the white space of
    the markup and the sign of the remove button behind it, trimmed.  In
    general this is not the keyword that was entered (the keyword that is
    one multiplication sign is read back as itself). *)
Theorem keyword_with_times_is_mangled (a b : jsstring) :
  htmlText (a ++ times :: b) = true ->
  forallb (fun c => negb (c =? times)%N) a = true ->
  getKeywordsFromContainer (mkEditor [] [a ++ times :: b])
  = Some [trim (a ++ b ++ indent 8 ++ [times])].
Proof.
  intros H N. unfold getKeywordsFromContainer. cbn [keywordsContainer readTags].
  unfold textContent. rewrite H. do 2 f_equal.
  replace (indent 8 ++ (a ++ times :: b) ++ indent 8 ++ [times] ++ indent 4)
    with ((indent 8 ++ a) ++ times :: (b ++ indent 8 ++ [times] ++ indent 4))
    by (rewrite <- !app_assoc; reflexivity).
  rewrite removeFirst_app
    by (repeat apply forallb_app_true; try reflexivity; exact N).
  rewrite <- app_assoc.
  replace (a ++ b ++ indent 8 ++ [times] ++ indent 4)
    with ((a ++ b ++ indent 8 ++ [times]) ++ indent 4)
    by (rewrite <- !app_assoc; reflexivity).
  apply trim_pads; reflexivity.
Qed.

Lemma keyword_with_times_is_mangled_witness :
  getKeywordsFromContainer (mkEditor [] [lit "2" ++ times :: lit "4"])
  = Some [lit "24" ++ indent 8 ++ [times]].
Proof.
  exact (@keyword_with_times_is_mangled (lit "2") (lit "4") eq_refl eq_refl).
Defined.

End KeywordMore.

(** ** The tags of the keyword editor *)

Section TagFacts.
Import KeywordEditor.
Import KeywordTags.

Lemma tokenize_text (s rest : jsstring) :
  htmlText s = true ->
  tokenize (s ++ rest) 0
  = option_map (app (map Character s)) (tokenize rest 0).
Proof.
  unfold htmlText. induction s as [|c s IH]; intros H.
  - change ([] ++ rest) with rest. destruct (tokenize rest 0); reflexivity.
  - cbn [forallb] in H. apply andb_prop in H as [Hc Hs].
    apply andb_prop in Hc as [Hc H0]. apply andb_prop in Hc as [Hc H13].
    apply andb_prop in Hc as [H60 H38].
    apply negb_true_iff in H60, H38, H13, H0.
    change ((c :: s) ++ rest) with (c :: s ++ rest). cbn [tokenize].
    rewrite !(N.eqb_sym c), H60, H38, H13, H0. cbn [orb].
    rewrite IH by exact Hs.
    destruct (tokenize rest 0); reflexivity.
Qed.

Lemma tokenize_markup (keyword : jsstring) :
  htmlText keyword = true ->
  tokenize (markup keyword) 0
  = Some (map Character (indent 8 ++ keyword ++ indent 8)
            ++ [StartTagButton; Character times; EndTagButton]
            ++ map Character (indent 4)).
Proof.
  intros H. unfold markup.
  replace (indent 8 ++ keyword ++ indent 8 ++ buttonOpen ++ lit "&times;"
             ++ lit "</button>" ++ indent 4)
    with ((indent 8 ++ keyword ++ indent 8)
            ++ buttonOpen ++ lit "&times;" ++ lit "</button>" ++ indent 4)
    by (rewrite <- !app_assoc; reflexivity).
  rewrite tokenize_text.
  - reflexivity.
  - unfold htmlText in *.
    repeat apply forallb_app_true; [reflexivity | exact H | reflexivity].
Qed.

Lemma construct_text (s : jsstring) (ts : list token) (top : frame)
      (below : list frame) :
  construct (map Character s ++ ts) top below
  = construct ts (fold_left (fun f c => insertCharacter c f) s top) below.
Proof.
  revert top. induction s as [|c s IH]; intros top; [reflexivity|].
  cbn [map app construct fold_left]. apply IH.
Qed.

Lemma insert_text_merge (s t : jsstring) (tag cls : string)
      (before : list node) :
  fold_left (fun f c => insertCharacter c f) s
            (mkFrame tag cls (TextNode t :: before))
  = mkFrame tag cls (TextNode (t ++ s) :: before).
Proof.
  revert t. induction s as [|c s IH]; intros t.
  - rewrite app_nil_r. reflexivity.
  - cbn [fold_left]. unfold insertCharacter at 2. cbn [built frameTag frameClass].
    rewrite IH, <- app_assoc. reflexivity.
Qed.

Lemma count_characters (s : jsstring) :
  filter isStartTagButton (map Character s) = [].
Proof. induction s as [|c s IH]; [reflexivity|exact IH]. Qed.

(** The markup of a keyword that is text gives the three children of its
    tag: the keyword between its white space, the button, and the white
    space behind it. *)
Lemma parse_text_keyword (keyword : jsstring) :
  htmlText keyword = true ->
  parseFragment (markup keyword)
  = Some [TextNode (indent 8 ++ keyword ++ indent 8);
          Element "button" "remove-keyword" [TextNode [times]];
          TextNode (indent 4)].
Proof.
  intros H. unfold parseFragment. rewrite tokenize_markup by exact H.
  rewrite filter_app, count_characters.
  change (length ([] ++ filter isStartTagButton
                     ([StartTagButton; Character times; EndTagButton]
                        ++ map Character (indent 4))) <=? 1)
    with true.
  cbv iota.
  change (indent 8 ++ keyword ++ indent 8)
    with (10%N :: (repeat 32%N 8 ++ keyword ++ indent 8)).
  cbn [map app]. cbn [construct].
  change (insertCharacter 10%N (mkFrame "div" "keyword-tag" []))
    with (mkFrame "div" "keyword-tag" [TextNode [10%N]]).
  change (fix app (l m : list token) {struct l} : list token :=
            match l with
            | [] => m
            | a :: l1 => a :: app l1 m
            end) with (@app token).
  rewrite construct_text, insert_text_merge.
  reflexivity.
Qed.

Lemma add_text_keyword (keyword : jsstring) (d : dom) :
  htmlText keyword = true ->
  addKeywordToContainer keyword d
  = Some (mkDom (inputValue d) (container d ++ [textTag keyword])).
Proof.
  intros H. unfold addKeywordToContainer.
  rewrite parse_text_keyword by exact H. reflexivity.
Qed.

Lemma press_textTag (keyword : jsstring) : press (textTag keyword) = ParentGoes.
Proof. reflexivity. Qed.

Lemma textContent_textTag (keyword : jsstring) :
  textContent (textTag keyword)
  = indent 8 ++ keyword ++ indent 8 ++ [times] ++ indent 4.
Proof.
  unfold textTag. cbn [textContent flat_map].
  rewrite app_nil_r, <- !app_assoc. reflexivity.
Qed.

Lemma byClassName_tags (keywords : list jsstring) :
  byClassName "keyword-tag"
    (Element "div" "keywords-container" (map textTag keywords))
  = map textTag keywords.
Proof.
  cbn [byClassName]. induction keywords as [|k ks IH]; [reflexivity|].
  cbn [map flat_map]. rewrite IH. reflexivity.
Qed.

Lemma nth_error_tags (keywords : list jsstring) (i : nat) :
  nth_error (map textTag keywords) i
  = option_map textTag (nth_error keywords i).
Proof. apply nth_error_map. Qed.

Lemma removeAt_map {A B} (f : A -> B) (i : nat) (l : list A) :
  removeAt i (map f l) = map f (removeAt i l).
Proof.
  revert i. induction l as [|x l IH]; intros [|i]; simpl; auto.
  rewrite IH. reflexivity.
Qed.

Lemma removeAt_beyond {A} (i : nat) (l : list A) :
  nth_error l i = None -> removeAt i l = l.
Proof.
  revert i. induction l as [|x l IH]; intros [|i]; simpl; auto.
  - discriminate.
  - intros H. rewrite IH by exact H. reflexivity.
Qed.


Lemma read_text_tags (keywords : list jsstring) :
  forallb htmlText keywords = true ->
  Some (map (fun tag => trim (removeFirst times (textContent tag)))
            (map textTag keywords))
  = readTags keywords.
Proof.
  induction keywords as [|k ks IH]; [reflexivity|].
  intros H. cbn [forallb] in H. apply andb_prop in H as [Hk Hks].
  cbn [map readTags]. rewrite <- IH by exact Hks.
  unfold KeywordEditor.textContent. rewrite Hk.
  rewrite textContent_textTag. reflexivity.
Qed.

(** X22: for keywords that the parser takes as text, the tags in the
    container follow the list of their keywords: Enter appends the tag of
    the trimmed keyword, whether or not it is there already, or nothing for
    a blank input; a click on the remove button of the tag at a position
    takes exactly that tag away; the keywords are read from the tags as from
    the list; and "x" entered into the empty editor and removed again
    leaves the empty editor. *)
Theorem text_tags_follow_keywords (e : editor) (keyword : jsstring) :
  forallb htmlText (keywordsContainer e) = true ->
  htmlText keyword = true ->
  KeywordTags.add keyword (shows e) = Some (shows (KeywordEditor.add keyword e))
  /\ (forallb isWhiteSpace keyword = true ->
      KeywordTags.add keyword (shows e)
      = Some (mkDom keyword (container (shows e))))
  /\ (forallb isWhiteSpace keyword = false ->
      KeywordTags.add keyword (shows e)
      = Some (mkDom [] (container (shows e) ++ [textTag (trim keyword)])))
  /\ (forall l r a mid b,
        forallb isWhiteSpace l = true -> forallb isWhiteSpace r = true ->
        last (a :: mid) a = b ->
        isWhiteSpace a = false -> isWhiteSpace b = false ->
        trim (l ++ (a :: mid) ++ r) = a :: mid)
  /\ (forall index,
        clickRemove index (shows e) = shows (remove index e)
        /\ container (clickRemove index (shows e))
           = firstn index (container (shows e))
             ++ skipn (S index) (container (shows e)))
  /\ Some (KeywordTags.getKeywordsFromContainer (shows e))
     = KeywordEditor.getKeywordsFromContainer e
  /\ option_map (clickRemove 0) (KeywordTags.add (lit "x") (shows empty))
     = Some (shows empty)
  /\ keypress OtherKey (shows e) = Some (shows e).
Proof.
  intros He Hk.
  assert (A : KeywordTags.add keyword (shows e)
              = Some (shows (KeywordEditor.add keyword e))).
  { unfold KeywordTags.add, KeywordEditor.add, keypress, KeywordEditor.keypress.
    cbn [inputValue keywordInput container shows keywordsContainer].
    destruct (truthy (trim keyword)); [|reflexivity].
    rewrite add_text_keyword by (apply forallb_trim; exact Hk).
    unfold shows, KeywordEditor.addKeywordToContainer.
    cbn [container inputValue keywordInput keywordsContainer].
    rewrite map_app. reflexivity. }
  split; [exact A|]. split; [|split; [|split; [|split; [|split; [|split]]]]].
  - intros B. rewrite A, add_blank by exact B. reflexivity.
  - intros B. rewrite A, add_keyword by exact B. unfold shows.
    cbn [keywordInput keywordsContainer container]. rewrite map_app.
    reflexivity.
  - intros l r a mid b Hl Hr Hb Ha Hb'. eapply trim_core; eauto.
  - intros index.
    assert (C : clickRemove index (shows e) = shows (remove index e)).
    { unfold clickRemove, shows, remove.
      cbn [container inputValue keywordInput keywordsContainer].
      rewrite nth_error_tags.
      destruct (nth_error (keywordsContainer e) index) as [k|] eqn:N;
        cbn [option_map].
      - rewrite press_textTag, removeAt_map. reflexivity.
      - rewrite removeAt_beyond by exact N. reflexivity. }
    split; [exact C|]. rewrite C. unfold shows, remove.
    cbn [container keywordsContainer].
    rewrite removeAt_firstn_skipn, map_app, firstn_map, skipn_map.
    reflexivity.
  - unfold KeywordTags.getKeywordsFromContainer,
      KeywordEditor.getKeywordsFromContainer, shows.
    cbn [container]. rewrite byClassName_tags.
    apply read_text_tags. exact He.
  - reflexivity.
  - reflexivity.
Qed.

Lemma text_tags_follow_keywords_witness :
  KeywordTags.add (lit " pay roll ") (shows (mkEditor [] [lit "tax"]))
  = Some (mkDom [] [textTag (lit "tax"); textTag (lit "pay roll")])
  /\ container (clickRemove 0 (shows (mkEditor [] [lit "tax"; lit "pay"])))
     = [textTag (lit "pay")].
Proof.
  destruct (@text_tags_follow_keywords (mkEditor [] [lit "tax"])
              (lit " pay roll ") eq_refl eq_refl) as (_ & _ & H & _).
  destruct (@text_tags_follow_keywords (mkEditor [] [lit "tax"; lit "pay"])
              (lit "x") eq_refl eq_refl) as (_ & _ & _ & _ & R & _).
  split.
  - exact (H eq_refl).
  - exact (proj2 (R 0)).
Defined.

(** C7, where the script breaks it: the keyword "<b>x" is typed into the
    empty editor and Enter is pressed, then the remove button of its tag is
    clicked.  The parser opens a [b] element for the keyword and puts the
    rest of the template, the button with it, inside: the keyword that is
    read from the tag is "x", and the parent of the button is the [b]
    element and not the tag.  The click takes the [b] element away, and the
    tag stays in the container, which is not empty: an empty keyword is
    read from it. *)
Theorem keyword_with_markup_not_removed :
  boldEntered
  = Some (mkDom []
            [Element "div" "keyword-tag"
               [TextNode (indent 8);
                Element "b" ""
                  [TextNode (lit "x" ++ indent 8);
                   Element "button" "remove-keyword" [TextNode [times]];
                   TextNode (indent 4)]]])
  /\ option_map KeywordTags.getKeywordsFromContainer boldEntered
     = Some [lit "x"]
  /\ boldRemoved
     = Some (mkDom [] [Element "div" "keyword-tag" [TextNode (indent 8)]])
  /\ option_map container boldRemoved <> Some []
  /\ option_map KeywordTags.getKeywordsFromContainer boldRemoved
     = Some [lit ""].
Proof.
  split; [reflexivity|]. split; [reflexivity|]. split; [reflexivity|].
  split; [|reflexivity]. discriminate.
Qed.

End TagFacts.

(** ** The knowledge form *)

Section FormFacts.
Import KeywordEditor KnowledgeForm.

(** X10: the form has two submit listeners.  For a new item (no id) a
    submit sends the same [POST /knowledge] twice; for an existing item it
    raises the "coming soon" alert and sends one [PUT /knowledge/id].  The
    body holds the inputs and the trimmed keywords of the editor, whose tags
    hold keywords of text without a multiplication sign. *)
Theorem submit_runs_both_listeners (f : form) :
  forallb clean (keywordsContainer (tags f)) = true ->
  let body :=
    mkFormData (knowledgeModule f) (knowledgeQuestion f) (knowledgeAnswer f)
               (map trim (keywordsContainer (tags f))) in
  (knowledgeId f = [] ->
     submit f = Some [Fetch POST (API_BASE ++ lit "/knowledge") body;
                      Fetch POST (API_BASE ++ lit "/knowledge") body])
  /\ (knowledgeId f <> [] ->
        submit f
        = Some [ShowAlert (lit "Update functionality coming soon!") error;
                Fetch PUT (API_BASE ++ lit "/knowledge/" ++ knowledgeId f)
                      body])
  /\ (forall effects, submit f = Some effects ->
        length (filter (isFetch POST) effects)
        = if truthy (knowledgeId f) then 0 else 2).
Proof.
  intros C body.
  assert (R : readForm f = Some body).
  { unfold readForm, getKeywordsFromContainer.
    rewrite readTags_clean by exact C. reflexivity. }
  unfold submit, submitListener1, submitListener2. rewrite R.
  destruct (knowledgeId f) as [|c id] eqn:E; cbn [truthy].
  - repeat split; try congruence.
    intros effects H. inversion H. reflexivity.
  - repeat split; try congruence.
    intros effects H. inversion H. reflexivity.
Qed.

Lemma submit_runs_both_listeners_witness :
  submit (mkForm [] (lit "payroll") (lit "How?") (lit "So.")
                 (mkEditor [] [lit "pay"; lit "tax"]))
  = Some [Fetch POST (lit "http://localhost:8000/knowledge")
                (mkFormData (lit "payroll") (lit "How?") (lit "So.")
                            [lit "pay"; lit "tax"]);
          Fetch POST (lit "http://localhost:8000/knowledge")
                (mkFormData (lit "payroll") (lit "How?") (lit "So.")
                            [lit "pay"; lit "tax"])].
Proof.
  exact (proj1 (@submit_runs_both_listeners
                  (mkForm [] (lit "payroll") (lit "How?") (lit "So.")
                          (mkEditor [] [lit "pay"; lit "tax"]))
                  eq_refl) eq_refl).
Defined.

End FormFacts.

(** ** More on the Vue application *)

Section DashboardMore.
Import Dashboard.

Lemma split_free (sep : codeunit) (p : jsstring) :
  forallb (fun c => negb (c =? sep)%N) p = true -> split sep p = [p].
Proof.
  induction p as [|c p IH]; [reflexivity|].
  intros H. cbn [forallb] in H. apply andb_prop in H as [Hc Hp].
  apply negb_true_iff in Hc. cbn [split]. rewrite Hc, IH by assumption.
  reflexivity.
Qed.

Lemma split_app (sep : codeunit) (p rest : jsstring) :
  forallb (fun c => negb (c =? sep)%N) p = true ->
  split sep (p ++ sep :: rest) = p :: split sep rest.
Proof.
  induction p as [|c p IH]; intros H.
  - change ([] ++ sep :: rest) with (sep :: rest). cbn [split].
    rewrite N.eqb_refl. reflexivity.
  - cbn [forallb] in H. apply andb_prop in H as [Hc Hp].
    apply negb_true_iff in Hc.
    change ((c :: p) ++ sep :: rest) with (c :: (p ++ sep :: rest)).
    cbn [split]. rewrite Hc, IH by assumption. reflexivity.
Qed.

Lemma split_join (sep : codeunit) (pieces : list jsstring) :
  pieces <> [] ->
  forallb (forallb (fun c => negb (c =? sep)%N)) pieces = true ->
  split sep (join [sep] pieces) = pieces.
Proof.
  induction pieces as [|p ps IH]; [congruence|]. intros _ H.
  cbn [forallb] in H. apply andb_prop in H as [Hp Hps].
  destruct ps as [|q ps'].
  - cbn [join]. apply split_free. exact Hp.
  - change (join [sep] (p :: q :: ps'))
      with (p ++ sep :: join [sep] (q :: ps')).
    rewrite split_app by exact Hp. rewrite IH; [reflexivity|discriminate|].
    exact Hps.
Qed.

Lemma split_pieces (sep : codeunit) (s : jsstring) :
  split sep s <> []
  /\ forallb (forallb (fun c => negb (c =? sep)%N)) (split sep s) = true
  /\ join [sep] (split sep s) = s.
Proof.
  induction s as [|c s (NE & F & J)]; [repeat split; discriminate|].
  cbn [split]. destruct (N.eqb_spec c sep) as [->|D].
  - repeat split; [discriminate|exact F|].
    destruct (split sep s) as [|q qs]; [congruence|].
    change (join [sep] ([] :: q :: qs)) with (sep :: join [sep] (q :: qs)).
    rewrite J. reflexivity.
  - destruct (split sep s) as [|q qs]; [congruence|].
    repeat split; [discriminate| |].
    + cbn [forallb] in *. apply andb_prop in F as [Fq Fqs].
      rewrite Fq, Fqs. apply N.eqb_neq in D. rewrite D. reflexivity.
    + destruct qs as [|q' qs'].
      * cbn [join] in *. rewrite J. reflexivity.
      * change (join [sep] ((c :: q) :: q' :: qs'))
          with (c :: join [sep] (q :: q' :: qs')).
        rewrite J. reflexivity.
Qed.

(** X11: [addKnowledgeItem] posts no keywords for an empty input; otherwise
    it cuts the input at its commas and trims the pieces: pieces joined by
    commas come back trimmed and in order (blank ones as empty keywords),
    and every posted keyword is free of commas and of white space at its
    ends. *)
Theorem posted_keywords (k : newKnowledge) :
  (newKeywords k = [] -> postedKeywords (addKnowledgeItemPayload k) = [])
  /\ (forall pieces,
        pieces <> [] ->
        forallb (forallb (fun c => negb (c =? comma)%N)) pieces = true ->
        newKeywords k = join [comma] pieces ->
        newKeywords k <> [] ->
        postedKeywords (addKnowledgeItemPayload k) = map trim pieces)
  /\ (forall keyword,
        In keyword (postedKeywords (addKnowledgeItemPayload k)) ->
        trim keyword = keyword
        /\ forallb (fun c => negb (c =? comma)%N) keyword = true).
Proof.
  unfold addKnowledgeItemPayload. cbn [postedKeywords].
  split; [|split].
  - intros ->. reflexivity.
  - intros pieces NE F E N.
    destruct (newKeywords k) as [|c s] eqn:K; [congruence|].
    cbn [truthy]. rewrite E, split_join by assumption. reflexivity.
  - intros keyword I.
    destruct (truthy (newKeywords k)); [|destruct I].
    apply in_map_iff in I as (piece & <- & I).
    split; [apply trim_idempotent|].
    apply forallb_trim.
    destruct (split_pieces comma (newKeywords k)) as (_ & F & _).
    rewrite forallb_forall in F. exact (F piece I).
Qed.

Lemma posted_keywords_witness :
  postedKeywords
    (addKnowledgeItemPayload
       (mkNewKnowledge (lit "payroll") (lit "How?") (lit "So.")
                       (lit "a, b,,c ")))
  = [lit "a"; lit "b"; lit ""; lit "c"].
Proof.
  exact (proj1 (proj2 (@posted_keywords
                         (mkNewKnowledge (lit "payroll") (lit "How?")
                                         (lit "So.") (lit "a, b,,c "))))
               [lit "a"; lit " b"; lit ""; lit "c "]
               ltac:(discriminate) eq_refl eq_refl ltac:(discriminate)).
Defined.

Lemma eqb_refl (k : jsstring) : JS.eqb k k = true.
Proof. now apply eqb_eq. Qed.

Lemma eqb_neq (k k' : jsstring) : k <> k' -> JS.eqb k k' = false.
Proof.
  intros H. destruct (JS.eqb k k') eqn:E; [|reflexivity].
  apply eqb_eq in E. contradiction.
Qed.

Lemma objGet_objSet_same (k : jsstring) (v : Z) (o : object) :
  objGet k (objSet k v o) = Some v.
Proof.
  induction o as [|[k' v'] o IH]; cbn [objSet objGet].
  - rewrite eqb_refl. reflexivity.
  - destruct (JS.eqb k' k) eqn:E; cbn [objGet]; rewrite E; auto.
Qed.

Lemma objGet_objSet_other (k m : jsstring) (v : Z) (o : object) :
  k <> m -> objGet m (objSet k v o) = objGet m o.
Proof.
  intros D. induction o as [|[k' v'] o IH]; cbn [objSet objGet].
  - rewrite eqb_neq by exact D. reflexivity.
  - destruct (JS.eqb k' k) eqn:E; cbn [objGet].
    + apply eqb_eq in E. subst k'. rewrite eqb_neq by exact D. reflexivity.
    + rewrite IH. reflexivity.
Qed.

Lemma objTotal_objSet (k : jsstring) (v : Z) (o : object) :
  objTotal (objSet k v o) = (objTotal o - orZero (objGet k o) + v)%Z.
Proof.
  induction o as [|[k' v'] o IH]; cbn [objSet objGet objTotal fold_right].
  - simpl. lia.
  - destruct (JS.eqb k' k); cbn [objTotal fold_right snd orZero].
    + fold (objTotal o). lia.
    + fold (objTotal o) (objTotal (objSet k v o)). rewrite IH. lia.
Qed.

Lemma objGet_None (k : jsstring) (o : object) :
  objGet k o = None -> ~ In k (map fst o).
Proof.
  induction o as [|[k' v'] o IH]; cbn [objGet map fst]; [tauto|].
  destruct (JS.eqb k' k) eqn:E; [discriminate|].
  intros H [->|I]; [rewrite eqb_refl in E; discriminate|].
  exact (IH H I).
Qed.

Lemma objSet_keys (k : jsstring) (v : Z) (o : object) :
  map fst (objSet k v o)
  = match objGet k o with
    | Some _ => map fst o
    | None => map fst o ++ [k]
    end.
Proof.
  induction o as [|[k' v'] o IH]; cbn [objSet objGet]; [reflexivity|].
  destruct (JS.eqb k' k); [reflexivity|].
  cbn [map fst]. rewrite IH. destruct (objGet k o); reflexivity.
Qed.

Section BreakdownFacts.
Variable item : Type.
Variable itemModule : item -> jsstring.

Lemma itemsOf_snoc (m : jsstring) (l : list item) (it : item) :
  itemsOf itemModule m (l ++ [it])
  = (itemsOf itemModule m l
     + if JS.eqb (itemModule it) m then 1 else 0)%Z.
Proof.
  unfold itemsOf. rewrite filter_app, length_app. cbn [filter].
  destruct (JS.eqb (itemModule it) m); simpl; lia.
Qed.

Lemma counted_step (o : object) (l : list item) (it : item) :
  counted itemModule o l ->
  counted itemModule (countItem itemModule o it) (l ++ [it]).
Proof.
  unfold counted. intros (G & T & D). unfold countItem.
  assert (Z : forall m, (0 <= itemsOf itemModule m l)%Z)
    by (intros m; unfold itemsOf; lia).
  assert (O : orZero (objGet (itemModule it) o)
              = itemsOf itemModule (itemModule it) l).
  { rewrite G. destruct (Z.eqb_spec (itemsOf itemModule (itemModule it) l) 0);
      simpl; lia. }
  split; [|split].
  - intros m. rewrite itemsOf_snoc.
    destruct (JS.eqb (itemModule it) m) eqn:E.
    + apply eqb_eq in E. subst m. rewrite objGet_objSet_same, O.
      specialize (Z (itemModule it)).
      destruct (Z.eqb_spec (itemsOf itemModule (itemModule it) l + 1) 0);
        [lia|reflexivity].
    + rewrite objGet_objSet_other, G, Z.add_0_r; [reflexivity|].
      intros H. rewrite H, eqb_refl in E. discriminate.
  - rewrite objTotal_objSet, O, T, length_app. simpl. lia.
  - rewrite objSet_keys.
    destruct (objGet (itemModule it) o) eqn:E; [exact D|].
    apply NoDup_app; [exact D|repeat constructor; tauto|].
    intros x I [<-|[]]. exact (objGet_None _ _ E I).
Qed.

Lemma counted_fold (items : list item) (o : object) (l : list item) :
  counted itemModule o l ->
  counted itemModule (fold_left (countItem itemModule) items o) (l ++ items).
Proof.
  revert o l. induction items as [|it items IH]; intros o l C.
  - rewrite app_nil_r. exact C.
  - cbn [fold_left].
    replace (l ++ it :: items) with ((l ++ [it]) ++ items)
      by (rewrite <- app_assoc; reflexivity).
    apply IH, counted_step, C.
Qed.

(** X12: when no module is the name of an inherited property, the computed
    [moduleBreakdown] holds for every module of an item the number of items
    of that module and nothing for other modules, each module once, and its
    counts add up to the number of items. *)
Theorem moduleBreakdown_counts (knowledgeItems : list item) (o : object) :
  moduleBreakdown itemModule knowledgeItems = Some o ->
  (forall m, objGet m o
             = if (itemsOf itemModule m knowledgeItems =? 0)%Z then None
               else Some (itemsOf itemModule m knowledgeItems))
  /\ objTotal o = Z.of_nat (length knowledgeItems)
  /\ NoDup (map fst o).
Proof.
  unfold moduleBreakdown.
  destruct (existsb _ knowledgeItems); [discriminate|].
  intros E. inversion E; subst.
  apply (@counted_fold knowledgeItems [] []).
  split; [|split]; [reflexivity|reflexivity|constructor].
Qed.

End BreakdownFacts.

Lemma moduleBreakdown_counts_witness :
  objGet (lit "hr")
         (fold_left (countItem (fun m => m))
                    [lit "hr"; lit "payroll"; lit "hr"] [])
  = Some 2%Z.
Proof.
  exact (proj1 (@moduleBreakdown_counts jsstring (fun m => m)
                  [lit "hr"; lit "payroll"; lit "hr"] _ eq_refl) (lit "hr")).
Defined.

Lemma checkOllamaStatus_cases
      (network : Api.exn + Api.response ollamaStatus) :
  let url := API_BASE ++ lit "/ollama/status" in
  let label := lit "Error checking Ollama status:" in
  checkOllamaStatus network =
  match network with
  | inl e => ([Api.CallFetch url; Api.ConsoleError label e],
              inr ollamaUnreachable)
  | inr r =>
      if negb (Api.ok r) then
        ([Api.CallFetch url;
          Api.ConsoleError label
            (Api.Error (lit "HTTP error! status: "
                          ++ Api.numberToString (Api.status r)))],
         inr ollamaUnreachable)
      else
        match Api.body r with
        | inl e => ([Api.CallFetch url; Api.ParseJson;
                     Api.ConsoleError label e], inr ollamaUnreachable)
        | inr o => ([Api.CallFetch url; Api.ParseJson], inr o)
        end
  end.
Proof.
  cbv zeta. unfold checkOllamaStatus.
  destruct network as [e|r]; [reflexivity|].
  unfold Api.settle, Api.bind at 1 2; cbn [Api.tell].
  destruct (Api.ok r); cbn [negb]; [|reflexivity].
  destruct (Api.body r); reflexivity.
Qed.

(** X13: [loadStats] changes the stats and nothing else.  When the stats
    request fails in any way (network, status, content type, body) all
    counts become 0, the AI status becomes false and the Ollama service is
    not asked.  When it succeeds the counts are those of the answer, 0 for
    a missing one, and the AI status is true exactly when the Ollama
    request succeeds too and answers "running" with the model available.
    (The bodies are JSON objects of the shapes the server sends.) *)
Theorem loadStats_outcome
        (statsNetwork : Api.exn + Api.response statsData)
        (ollamaNetwork : Api.exn + Api.response ollamaStatus) (a : app) :
  let trace := fst (runLoadStats statsNetwork ollamaNetwork a) in
  let a' := snd (runLoadStats statsNetwork ollamaNetwork a) in
  let answered d :=
    exists r, statsNetwork = inr r /\ Api.ok r = true
              /\ Api.declaresJson r = true /\ Api.body r = inr d in
  a' = setStats (appStats a') a
  /\ ((forall d, ~ answered d) ->
      appStats a' = mkStats 0 0 0 false
      /\ ~ In (Api.CallFetch (API_BASE ++ lit "/ollama/status")) trace)
  /\ (forall d, answered d ->
        knowledgeCount (appStats a') = orZero (knowledge_count d)
        /\ trainingCount (appStats a') = orZero (training_count d)
        /\ conversationCount (appStats a') = orZero (conversation_count d)
        /\ (aiStatus (appStats a') = true
            <-> exists r o, ollamaNetwork = inr r /\ Api.ok r = true
                            /\ Api.body r = inr o
                            /\ ollamaState o = lit "running"
                            /\ deepseek_available o = true)).
Proof.
  cbv zeta. unfold runLoadStats.
  rewrite safeFetch_cases, checkOllamaStatus_cases. cbv zeta.
  assert (AI : forall o, (JS.eqb (ollamaState o) (lit "running")
                          && deepseek_available o = true)
                         <-> (ollamaState o = lit "running"
                              /\ deepseek_available o = true)).
  { intros o. rewrite andb_true_iff, eqb_eq. tauto. }
  destruct statsNetwork as [e|r].
  { cbn. split; [reflexivity|]. split.
    - intros _. split; [reflexivity|].
      intros [H|[H|[H|[]]]]; discriminate.
    - intros d (r & E & _). discriminate. }
  destruct (Api.ok r) eqn:O; cbn [negb].
  2:{ cbn. split; [reflexivity|]. split.
      - intros _. split; [reflexivity|].
        intros [H|[H|[H|[]]]]; discriminate.
      - intros d (r' & E & O' & _). inversion E; subst. congruence. }
  destruct (Api.declaresJson r) eqn:J.
  2:{ cbn. split; [reflexivity|]. split.
      - intros _. split; [reflexivity|].
        intros [H|[H|[H|[H|[]]]]]; discriminate.
      - intros d (r' & E & _ & J' & _). inversion E; subst. congruence. }
  destruct (Api.body r) as [e|d] eqn:B.
  { cbn. split; [reflexivity|]. split.
    - intros _. split; [reflexivity|].
      intros [H|[H|[H|[H|[H|[]]]]]]; discriminate.
    - intros d (r' & E & _ & _ & B'). inversion E; subst. congruence. }
  assert (Ans : forall d', (exists r', @inr Api.exn _ r = inr r'
                              /\ Api.ok r' = true
                              /\ Api.declaresJson r' = true
                              /\ Api.body r' = inr d') -> d' = d).
  { intros d' (r' & E & _ & _ & B'). inversion E; subst. congruence. }
  assert (Yes : exists r', @inr Api.exn _ r = inr r' /\ Api.ok r' = true
                           /\ Api.declaresJson r' = true
                           /\ Api.body r' = inr d) by eauto.
  destruct ollamaNetwork as [e|ro];
    [|destruct (Api.ok ro) eqn:Oo; cbn [negb];
      [destruct (Api.body ro) as [e|o] eqn:Bo|]];
    cbn [fst snd loadStats setStats appStats knowledgeCount trainingCount
         conversationCount aiStatus ollamaUnreachable ollamaState
         deepseek_available];
    (split; [reflexivity|]);
    (split; [intros No; exfalso; exact (No d Yes)|]);
    intros d' Hd'; rewrite (Ans d' Hd');
    (split; [reflexivity|]); (split; [reflexivity|]);
    (split; [reflexivity|]).
  - split; [intros H; discriminate H|].
    intros (r' & o & E & _). discriminate.
  - split; [intros H; discriminate H|].
    intros (r' & o & E & _ & Bo' & _). inversion E; subst. congruence.
  - rewrite AI. split.
    + intros H. exists ro, o. tauto.
    + intros (r' & o' & E & _ & Bo' & H). inversion E; subst.
      rewrite Bo in Bo'. inversion Bo'; subst. exact H.
  - split; [intros H; discriminate H|].
    intros (r' & o & E & Oo' & _). inversion E; subst. congruence.
Qed.

Lemma loadStats_outcome_witness :
  appStats
    (snd (runLoadStats
            (inr (Api.mkResponse 200 (Some (lit "application/json"))
                    (inr (mkStatsData (Some 4%Z) None (Some 9%Z)))))
            (inr (Api.mkResponse 503 None (inl (Api.SyntaxError []))))
            data))
  = mkStats 4 0 9 false.
Proof.
  destruct (@loadStats_outcome
              (inr (Api.mkResponse 200 (Some (lit "application/json"))
                      (inr (mkStatsData (Some 4%Z) None (Some 9%Z)))))
              (inr (Api.mkResponse 503 None (inl (Api.SyntaxError []))))
              data)
    as (_ & _ & H).
  destruct (H (mkStatsData (Some 4%Z) None (Some 9%Z))) as (_ & _ & _ & _).
  - eexists. repeat split; reflexivity.
  - reflexivity.
Defined.

Lemma dialogue_ask (n : nat) : dialogue n false ++ [user] = dialogue n true.
Proof. induction n as [|n IH]; simpl; congruence. Qed.

Lemma dialogue_answer (n : nat) :
  dialogue n true ++ [ai] = dialogue (S n) false.
Proof. induction n as [|n IH]; simpl in *; congruence. Qed.

Lemma step_while_idle (e : event) (a : app) :
  loading a = false -> running a = [] ->
  (loading (step e a) = false
   /\ chatRequests (step e a) = chatRequests a
   /\ messages (step e a) = messages a)
  \/ (loading (step e a) = true
      /\ exists m p, isUser m = true
                     /\ messages (step e a) = messages a ++ [m]
                     /\ chatRequests (step e a) = chatRequests a ++ [p]).
Proof.
  intros L R. destruct e; cbn [step].
  - left. simpl. auto.
  - left. simpl. auto.
  - destruct (truthy (trim (userInput a))) eqn:T.
    + right. rewrite sendMessage_idle by assumption. simpl.
      split; [reflexivity|]. eexists _, _. repeat split; reflexivity.
    + left. unfold sendMessage. rewrite T. simpl. auto.
  - left. unfold fetchResolved. rewrite R. destruct i; simpl; auto.
  - left. unfold jsonResolved. rewrite R. destruct i; simpl; auto.
  - left. unfold rejected. rewrite R. destruct i; simpl; auto.
  - left. destruct fetched; simpl; auto.
Qed.

(** X14: in every state the application can reach, the conversation
    alternates: each question is followed by exactly one answer (of the
    assistant or the canned error) before the next question, the last
    message is an unanswered question exactly while loading, and one chat
    request was sent per question. *)
Theorem conversation_alternates (a : app) :
  reachable a ->
  exists n,
    map type (messages a) = dialogue n (loading a)
    /\ length (chatRequests a) = n + (if loading a then 1 else 0)
    /\ length (filter isUser (messages a)) = length (chatRequests a).
Proof.
  induction 1 as [|e a R (n & M & C & U)].
  - exists 0. repeat split.
  - destruct (reachable_oneAtATime R) as [(L & ph & P)|(L & P)].
    + destruct (@step_while_loading e a ph L P)
        as [(_ & L1 & C1 & M1)|[(_ & E)|(_ & m & k & Um & E)]].
      * exists n. rewrite L1, C1, M1. rewrite L in M, C. auto.
      * exists n. rewrite E. auto.
      * exists (S n). rewrite E.
        cbn [finish messages loading chatRequests].
        rewrite L in M, C. rewrite map_app, M. cbn [map].
        assert (Tm : type m = ai).
        { unfold isUser in Um. destruct (type m); congruence. }
        rewrite Tm, dialogue_answer, filter_app. cbn [filter].
        rewrite Um, app_nil_r. repeat split; lia.
    + destruct (@step_while_idle e a L P)
        as [(L1 & C1 & M1)|(L1 & m & p & Um & M1 & C1)].
      * exists n. rewrite L1, C1, M1. rewrite L in M, C. auto.
      * exists n. rewrite L1, C1, M1. rewrite L in M, C.
        rewrite map_app, M. cbn [map].
        assert (Tm : type m = user).
        { unfold isUser in Um. destruct (type m); congruence. }
        rewrite Tm, dialogue_ask, filter_app, !length_app. cbn [filter].
        rewrite Um. simpl. repeat split; lia.
Qed.

Lemma conversation_alternates_witness :
  map type (messages (step (Rejected 0 7) helloSent)) = [user; ai].
Proof.
  destruct (@conversation_alternates (step (Rejected 0 7) helloSent))
    as (n & M & _).
  - unfold helloSent. repeat apply reach_step. apply reach_data.
  - reflexivity.
Defined.

End DashboardMore.

(** ** More on the formatter *)

Section FormatterMore.

Section WithinFacts.
Variable P : codeunit -> bool.

Lemma forallb_firstn {A} (f : A -> bool) (n : nat) (l : list A) :
  forallb f l = true -> forallb f (firstn n l) = true.
Proof.
  revert n; induction l as [|x l IH]; intros [|n]; simpl; auto.
  intros H. apply andb_prop in H as [Hx Hl]. rewrite Hx, IH; auto.
Qed.

Lemma rep_within (g : bool) (p : codeunit -> bool)
      (k : jsstring -> mresult) (s : jsstring) :
  forallb P s = true ->
  (forall s', forallb P s' = true -> resultWithin P (k s')) ->
  resultWithin P (if g then repGreedy p k s else repLazy p k s).
Proof.
  intros Hs Hk. induction s as [|x s IH].
  - destruct g; simpl.
    + apply Hk. reflexivity.
    + specialize (Hk [] eq_refl). destruct (k []); simpl; auto.
  - simpl in Hs. apply andb_prop in Hs as [Hx Hs'].
    assert (Kx : resultWithin P (k (x :: s)))
      by (apply Hk; simpl; rewrite Hx, Hs'; reflexivity).
    specialize (IH Hs').
    destruct g; cbn [repGreedy repLazy].
    + destruct (p x); [|exact Kx].
      destruct (repGreedy p k s); [exact IH|exact Kx].
    + destruct (k (x :: s)); [exact Kx|].
      destruct (p x); [exact IH|exact I].
Qed.

Lemma run_within (r : regex) :
  forall (s : jsstring) (c : caps) (k : jsstring -> caps -> mresult),
    forallb P s = true -> capsWithin P c = true ->
    (forall s' c', forallb P s' = true -> capsWithin P c' = true ->
                   resultWithin P (k s' c')) ->
    resultWithin P (run r s c k).
Proof.
  induction r as [l|p|g p|r1 IH1 r2 IH2|r1 IH1 r2 IH2|n r IH|r IH|];
    intros s c k Hs Hc Hk; cbn [run].
  - destruct (stripPrefix l s) as [s'|] eqn:E; [|exact I].
    apply stripPrefix_Some in E. subst s. rewrite forallb_app in Hs.
    apply andb_prop in Hs as [_ Hs]. now apply Hk.
  - destruct s as [|x s]; [exact I|]. destruct (p x); [|exact I].
    simpl in Hs. apply andb_prop in Hs as [_ Hs]. now apply Hk.
  - generalize (@rep_within g p (fun s' => k s' c) s Hs
                  (fun s' H => Hk s' c H Hc)).
    destruct g; auto.
  - apply IH1; auto.
  - pose proof (IH1 s c k Hs Hc Hk) as H1.
    destruct (run r1 s c k); [exact H1|]. now apply IH2.
  - apply IH; auto. intros s' c' Hs' Hc'. apply Hk; auto.
    unfold capsWithin in *. cbn [forallb snd].
    rewrite forallb_firstn, Hc' by assumption. reflexivity.
  - pose proof (IH s c (fun s' c' => Some (s', c')) Hs Hc
                   (fun s' c' H1 H2 => conj H1 H2)) as H.
    destruct (run r s c (fun s' c' => Some (s', c'))) as [[s' c']|];
      [|exact I].
    apply Hk; [exact Hs|apply H].
  - destruct s; [|exact I]. now apply Hk.
Qed.

Lemma expand_within (t : template) (c : caps) :
  templateWithin P t = true -> capsWithin P c = true ->
  forallb P (expand t c) = true.
Proof.
  intros Ht Hc. induction t as [|x t IH]; [reflexivity|].
  unfold templateWithin in Ht. cbn [forallb] in Ht.
  apply andb_prop in Ht as [Hx Ht]. specialize (IH Ht).
  destruct x as [txt|n]; cbn [expand].
  - rewrite forallb_app, Hx, IH. reflexivity.
  - assert (G : forall v, capture n c = Some v -> forallb P v = true).
    { clear -Hc. induction c as [|[i w] c IHc]; simpl; [discriminate|].
      unfold capsWithin in Hc. cbn [forallb snd] in Hc.
      apply andb_prop in Hc as [Hw Hc].
      destruct (Nat.eqb i n); [intros v E; inversion E; subst; exact Hw|].
      now apply IHc. }
    destruct (capture n c) as [v|]; [|exact IH].
    rewrite forallb_app, (G v eq_refl), IH. reflexivity.
Qed.

Lemma exec_within (r : regex) (s : jsstring) :
  forallb P s = true -> resultWithin P (exec r s).
Proof.
  intros Hs. unfold exec. apply run_within; auto.
  intros s' c' H1 H2. split; assumption.
Qed.

(** A replacement keeps a property of all characters that the text and the
    template have. *)
Lemma replace_within (r : regex) (t : template) (s : jsstring) :
  templateWithin P t = true -> forallb P s = true ->
  forallb P (replaceAll r t s) = true
  /\ forallb P (replaceFirst r t s) = true.
Proof.
  intros Ht Hs. split.
  - unfold replaceAll. generalize 0 as skip. revert Hs.
    induction s as [|x s IH]; intros Hs skip.
    + destruct skip; [|reflexivity]. cbn [replaceFrom].
      pose proof (exec_within r [] eq_refl) as E.
      destruct (exec r []) as [[rest c]|]; [|reflexivity].
      destruct E as (_ & Ec).
      rewrite forallb_app, expand_within by assumption.
      destruct (length (@nil codeunit) - length rest); reflexivity.
    + pose proof Hs as Hs0.
      simpl in Hs. apply andb_prop in Hs as [Hx Hs'].
      destruct skip as [|n]; [|cbn [replaceFrom]; now apply IH].
      rewrite replaceFrom_cons.
      pose proof (exec_within r (x :: s) Hs0) as E.
      destruct (exec r (x :: s)) as [[rest c]|].
      * destruct E as (_ & Ec).
        rewrite forallb_app, expand_within by assumption.
        destruct (length (x :: s) - length rest); cbn [andb forallb].
        -- rewrite Hx, IH by assumption. reflexivity.
        -- now apply IH.
      * cbn [forallb]. rewrite Hx, IH by assumption. reflexivity.
  - induction s as [|x s IH]; cbn [replaceFirst].
    + pose proof (exec_within r [] eq_refl) as E.
      destruct (exec r []) as [[rest c]|]; [|reflexivity].
      destruct E as (Er & Ec).
      rewrite forallb_app, expand_within, Er by assumption. reflexivity.
    + pose proof (exec_within r (x :: s) Hs) as E.
      simpl in Hs. apply andb_prop in Hs as [Hx Hs'].
      destruct (exec r (x :: s)) as [[rest c]|].
      * destruct E as (Er & Ec).
        rewrite forallb_app, expand_within, Er by assumption. reflexivity.
      * cbn [forallb]. rewrite Hx, IH by assumption. reflexivity.
Qed.

End WithinFacts.

Lemma newlines_gone (s : jsstring) :
  replaceAll newlineRe newlineT s = withBreaks s
  /\ forallb notLineFeed (withBreaks s) = true.
Proof.
  unfold replaceAll. induction s as [|x s (IH1 & IH2)]; [split; reflexivity|].
  cbn [withBreaks flat_map]. fold (withBreaks s).
  destruct (N.eqb_spec 10 x) as [<-|D].
  - split.
    + change (10%N :: s) with (10%N :: [] ++ s).
      erewrite replaceFrom_hit by reflexivity. rewrite IH1. reflexivity.
    + rewrite forallb_app, IH2. reflexivity.
  - split.
    + rewrite replaceFrom_miss, IH1; [reflexivity|].
      apply run_mayStart.
      change (mayStart newlineRe (hd_error (x :: s))) with (10 =? x)%N.
      now apply N.eqb_neq.
    + cbn [List.app forallb]. rewrite IH2. unfold notLineFeed.
      apply N.eqb_neq in D. rewrite D. reflexivity.
Qed.

(** X15: whatever the message, its formatted form holds no line feed:
    every line feed of the message has become a line-break marker, and no
    later rule brings one back. *)
Theorem formatMessage_no_line_feed (content : option jsstring) :
  forallb notLineFeed (formatMessage content) = true.
Proof.
  destruct content as [s|]; [|reflexivity].
  rewrite formatMessage_pipeline. unfold pipeline.
  destruct (newlines_gone (replaceAll boldRe boldT s)) as (-> & H).
  repeat (apply replace_within; [reflexivity|]).
  exact H.
Qed.

Ltac starts_of :=
  repeat match goal with
  | |- context [mayStart boldRe (Some ?c)] =>
      change (mayStart boldRe (Some c)) with (42 =? c)%N
  | |- context [mayStart newlineRe (Some ?c)] =>
      change (mayStart newlineRe (Some c)) with (10 =? c)%N
  | |- context [mayStart headerRe (Some ?c)] =>
      change (mayStart headerRe (Some c))
        with ((55356 =? c) || ((55357 =? c) || ((55357 =? c) || ((55357 =? c)
              || ((55357 =? c) || (9200 =? c))))))%N
  | |- context [mayStart stepRe (Some ?c)] =>
      change (mayStart stepRe (Some c)) with (isDigit c)
  | |- context [mayStart tipRe (Some ?c)] =>
      change (mayStart tipRe (Some c)) with (8226 =? c)%N
  | |- context [mayStart (sectionRe proTips) (Some ?c)] =>
      change (mayStart (sectionRe proTips) (Some c)) with (42 =? c)%N
  | |- context [mayStart (sectionRe important) (Some ?c)] =>
      change (mayStart (sectionRe important) (Some c)) with (42 =? c)%N
  | |- context [mayStart footerRe (Some ?c)] =>
      change (mayStart footerRe (Some c)) with (55357 =? c)%N
  end.

Ltac classes :=
  unfold inert, mild, notLineFeed, plainProse, plain, gap, quiet, dot,
    isDigit, isWhiteSpace, isLineTerminator in *;
  repeat rewrite ?orb_true_iff, ?andb_true_iff, ?negb_true_iff,
    ?orb_false_iff, ?andb_false_iff, ?negb_false_iff,
    ?N.eqb_eq, ?N.eqb_neq, ?N.leb_le, ?N.leb_gt in *;
  lia.

(** Splits a text into its pieces and shows of each that no match of the
    rule at hand begins in it: by evaluation for markup, and from the class
    of its characters for a piece of the message. *)
Ltac starts :=
  repeat apply forallb_app_true;
  first
    [ reflexivity
    | assumption
    | (eapply forallb_impl; [|eassumption]); intros ? ?; starts_of; classes ].

Lemma inert_start (r : regex) (c : codeunit) :
  In r rules -> inert c = true -> mayStart r (Some c) = false.
Proof.
  intros I H.
  repeat (destruct I as [<-|I]; [starts_of; classes|]). destruct I.
Qed.

Lemma rules_end (r : regex) : In r rules -> mayStart r None = false.
Proof.
  intros I. repeat (destruct I as [<-|I]; [reflexivity|]). destruct I.
Qed.

(** No rule changes a text of inert characters. *)
Lemma rule_inert (r : regex) (t : template) (s : jsstring) :
  In r rules -> forallb inert s = true ->
  replaceAll r t s = s /\ replaceFirst r t s = s.
Proof.
  intros I H.
  assert (F : forallb (fun x => negb (mayStart r (Some x))) s = true).
  { revert H. apply forallb_impl. intros x Hx.
    rewrite (@inert_start r x I Hx). reflexivity. }
  split; [apply replaceAll_copy | apply replaceFirst_copy];
    auto using rules_end.
Qed.

Ltac rule_in := unfold rules; repeat (first [left; reflexivity | right]).

(** After its first rule the pipeline leaves a text of inert characters as
    it is. *)
Lemma pipeline_inert (s : jsstring) :
  forallb inert (replaceAll boldRe boldT s) = true ->
  pipeline s = replaceAll boldRe boldT s.
Proof.
  intros H. unfold pipeline.
  rewrite (proj1 (@rule_inert newlineRe newlineT _ ltac:(rule_in) H)).
  rewrite (proj1 (@rule_inert headerRe headerT _ ltac:(rule_in) H)).
  rewrite (proj1 (@rule_inert stepRe stepT _ ltac:(rule_in) H)).
  rewrite (proj1 (@rule_inert tipRe tipT _ ltac:(rule_in) H)).
  rewrite (proj1 (@rule_inert (sectionRe proTips) (sectionT "tips-section" proTips) _ ltac:(rule_in) H)).
  rewrite (proj1 (@rule_inert (sectionRe important) (sectionT "important-section" important) _ ltac:(rule_in) H)).
  exact (proj2 (@rule_inert footerRe footerT _ ltac:(rule_in) H)).
Qed.

Lemma replaceFrom_end (r : regex) (t : template) :
  mayStart r None = false -> replaceFrom r t [] 0 = [].
Proof.
  intros H. cbn [replaceFrom]. unfold exec. rewrite run_mayStart by exact H.
  reflexivity.
Qed.

Lemma replaceFrom_match (r : regex) (t : template) (m rest : jsstring)
      (c : caps) :
  exec r (m ++ rest) = Some (rest, c) -> m <> [] ->
  replaceFrom r t (m ++ rest) 0 = expand t c ++ replaceFrom r t rest 0.
Proof.
  intros E NE. destruct m as [|x m]; [congruence|].
  apply replaceFrom_hit. exact E.
Qed.

Lemma exec_boldRe (x rest : jsstring) :
  forallb plainProse x = true ->
  exec boldRe (lit "**" ++ x ++ lit "**" ++ rest) = Some (rest, [(1, x)]).
Proof.
  intros Hx. unfold exec, boldRe. cbn [run].
  rewrite stripPrefix_app.
  apply repLazy_first.
  - revert Hx. apply forallb_impl. intros c Hc. classes.
  - intros pre c suf E.
    assert (Pc : plainProse c = true).
    { rewrite E, forallb_app in Hx. apply andb_prop in Hx as [_ Hx].
      simpl in Hx. apply andb_prop in Hx. tauto. }
    assert (N42 : (42 =? c)%N = false) by classes.
    change (lit "**") with (42%N :: lit "*"). cbn [stripPrefix].
    rewrite N42. reflexivity.
  - rewrite stripPrefix_app, firstn_matched. reflexivity.
Qed.

Lemma bold_spans (spans : list emphasized) (tail : jsstring) :
  forallb wfEmphasized spans = true -> forallb plainProse tail = true ->
  replaceFrom boldRe boldT (concat (map starred spans) ++ tail) 0
  = concat (map strengthened spans) ++ tail.
Proof.
  intros W T. induction spans as [|e spans IH].
  - cbn [map concat]. change ([] ++ tail) with tail.
    rewrite <- (app_nil_r tail) at 1.
    rewrite replaceFrom_copy by starts.
    rewrite replaceFrom_end by reflexivity. apply app_nil_r.
  - cbn [forallb] in W. apply andb_prop in W as [We Ws].
    unfold wfEmphasized in We. apply andb_prop in We as [Wb Wx].
    cbn [map concat]. unfold starred at 1, strengthened at 1.
    rewrite <- !app_assoc.
    rewrite replaceFrom_copy by starts.
    replace (lit "**" ++ strong e ++ lit "**"
               ++ concat (map starred spans) ++ tail)
      with ((lit "**" ++ strong e ++ lit "**")
              ++ concat (map starred spans) ++ tail)
      by (rewrite <- !app_assoc; reflexivity).
    erewrite replaceFrom_match;
      [| rewrite <- !app_assoc; apply exec_boldRe; exact Wx | discriminate].
    rewrite IH by exact Ws.
    cbn [expand boldT capture Nat.eqb]. rewrite <- !app_assoc. reflexivity.
Qed.

Lemma forallb_concat_map {A} (f : codeunit -> bool) (g : A -> jsstring)
      (l : list A) :
  forallb (fun x => forallb f (g x)) l = true ->
  forallb f (concat (map g l)) = true.
Proof.
  induction l as [|x l IH]; [reflexivity|].
  intros H. cbn [forallb] in H. apply andb_prop in H as [Hx Hl].
  cbn [map concat]. rewrite forallb_app, Hx, IH by assumption. reflexivity.
Qed.

(** X16: in prose of plain characters every [**text**] becomes an
    emphasized span around the text, the surrounding prose is copied, and
    no other rule touches the result. *)
Theorem bold_spans_emphasized (spans : list emphasized) (tail : jsstring) :
  forallb wfEmphasized spans = true -> forallb plainProse tail = true ->
  formatMessage (Some (concat (map starred spans) ++ tail))
  = concat (map strengthened spans) ++ tail.
Proof.
  intros W T. rewrite formatMessage_pipeline.
  assert (B := bold_spans spans tail W T). unfold replaceAll in *.
  assert (I : forallb inert (concat (map strengthened spans) ++ tail) = true).
  { apply forallb_app_true; [|starts].
    apply forallb_concat_map. revert W. apply forallb_impl. intros e We.
    unfold wfEmphasized in We. apply andb_prop in We as [Wb Wx].
    unfold strengthened. starts. }
  rewrite pipeline_inert; unfold replaceAll; rewrite B; [reflexivity|exact I].
Qed.

Lemma bold_spans_emphasized_witness :
  formatMessage (Some (lit "Press **Save** and then **Close** please"))
  = lit "Press <strong>Save</strong> and then <strong>Close</strong> please".
Proof.
  exact (@bold_spans_emphasized
           [mkEmphasized (lit "Press ") (lit "Save");
            mkEmphasized (lit " and then ") (lit "Close")]
           (lit " please") eq_refl eq_refl).
Defined.

Lemma copy_join (r : regex) (t : template) (sep : jsstring)
      (ls : list jsstring) :
  mayStart r None = false ->
  forallb (fun x => negb (mayStart r (Some x))) sep = true ->
  forallb (forallb (fun x => negb (mayStart r (Some x)))) ls = true ->
  replaceAll r t (join sep ls) = join sep ls
  /\ replaceFirst r t (join sep ls) = join sep ls.
Proof.
  intros He Hs Hl.
  assert (F := join_forallb _ sep ls Hs Hl).
  split; [apply replaceAll_copy | apply replaceFirst_copy]; assumption.
Qed.

Lemma wfBulletLine_parts (l : bulletLine) :
  wfBulletLine l = true ->
  forallb plainProse (lead l) = true
  /\ match bulleted l with
     | Some b =>
         forallb gap (bulletSpacing b) = true
         /\ forallb plainProse (bulletBody b) = true
         /\ stops isWhiteSpace (bulletBody b)
     | None => True
     end.
Proof.
  unfold wfBulletLine, wfBullet. intros H. apply andb_prop in H as [H1 H2].
  split; [exact H1|]. destruct (bulleted l) as [b|]; [|exact I].
  apply andb_prop in H2 as [H2 H4]. apply andb_prop in H2 as [H2 H3].
  repeat split; auto.
  destruct (bulletBody b); simpl; [exact I|]. now apply negb_true_iff.
Qed.

Lemma exec_tipRe (b : bulletText) (tail : jsstring) :
  forallb gap (bulletSpacing b) = true ->
  forallb plainProse (bulletBody b) = true ->
  stops isWhiteSpace (bulletBody b) ->
  lineEnd tail ->
  exec tipRe (bullet ++ bulletSpacing b ++ bulletBody b ++ tail)
  = Some (tail, [(1, bulletBody b)]).
Proof.
  intros Ws Wt Wh T. unfold exec, tipRe. cbn [run].
  rewrite stripPrefix_app.
  assert (Hstop : stops isWhiteSpace (bulletBody b ++ tail)).
  { destruct (bulletBody b) as [|c tx]; [|exact Wh].
    destruct T as [->|(tail' & ->)]; simpl; auto. }
  apply repGreedy_all;
    [ revert Ws; apply forallb_impl; intros x Hx; classes | exact Hstop |].
  apply repLazy_first.
  - revert Wt. apply forallb_impl. intros x Hx. classes.
  - intros pre x suf E.
    assert (Px : plainProse x = true).
    { rewrite E, forallb_app in Wt. apply andb_prop in Wt as [_ Wt].
      simpl in Wt. apply andb_prop in Wt. tauto. }
    assert (N60 : (60 =? x)%N = false) by classes.
    change br with (60%N :: lit "br>"). cbn [stripPrefix].
    rewrite N60. reflexivity.
  - rewrite firstn_matched.
    destruct T as [->|(tail' & ->)].
    + reflexivity.
    + rewrite stripPrefix_app. reflexivity.
Qed.

Lemma tips_line (l : bulletLine) (tail : jsstring) :
  wfBulletLine l = true -> lineEnd tail ->
  replaceFrom tipRe tipT (rawBullet l ++ tail) 0
  = shownBullet l ++ replaceFrom tipRe tipT tail 0.
Proof.
  intros W T. apply wfBulletLine_parts in W as (Wp & Wb).
  unfold rawBullet, shownBullet. rewrite <- !app_assoc.
  rewrite replaceFrom_copy by starts.
  f_equal. destruct (bulleted l) as [b|]; [|reflexivity].
  destruct Wb as (Ws & Wt & Wh).
  erewrite replaceFrom_match;
    [| rewrite <- !app_assoc; apply exec_tipRe; assumption | discriminate].
  cbn [expand tipT capture Nat.eqb]. rewrite <- !app_assoc. reflexivity.
Qed.

Lemma tips_join (lines : list bulletLine) :
  forallb wfBulletLine lines = true ->
  replaceAll tipRe tipT (join br (map rawBullet lines))
  = join br (map shownBullet lines).
Proof.
  unfold replaceAll. induction lines as [|l ls IH]; [reflexivity|].
  intros W. cbn [forallb] in W. apply andb_prop in W as [Wl Wls].
  destruct ls as [|l2 ls2].
  - cbn [map join]. rewrite <- (app_nil_r (rawBullet l)).
    rewrite tips_line by (auto; left; reflexivity).
    change (replaceFrom tipRe tipT [] 0) with (@nil codeunit).
    apply app_nil_r.
  - change (join br (map rawBullet (l :: l2 :: ls2)))
      with (rawBullet l ++ br ++ join br (map rawBullet (l2 :: ls2))).
    change (join br (map shownBullet (l :: l2 :: ls2)))
      with (shownBullet l ++ br ++ join br (map shownBullet (l2 :: ls2))).
    rewrite tips_line by (auto; right; eauto).
    rewrite replaceFrom_copy by reflexivity.
    rewrite IH by assumption. reflexivity.
Qed.

Lemma bullet_lines_raw (r : regex) (lines : list bulletLine) :
  In r [boldRe; headerRe; stepRe] ->
  forallb wfBulletLine lines = true ->
  forallb (forallb (fun x => negb (mayStart r (Some x))))
          (map rawBullet lines) = true
  /\ forallb (forallb (fun c => negb (10 =? c)%N)) (map rawBullet lines)
     = true.
Proof.
  intros I W. rewrite !forallb_map.
  split; (revert W; apply forallb_impl; intros l Wl;
          apply wfBulletLine_parts in Wl as (Wp & Wb);
          unfold rawBullet; destruct (bulleted l) as [b|];
          [destruct Wb as (Ws & Wt & _)|]).
  - repeat (destruct I as [<-|I]; [starts|]). destruct I.
  - repeat (destruct I as [<-|I]; [starts|]). destruct I.
  - repeat apply forallb_app_true; try reflexivity;
      (eapply forallb_impl; [|eassumption]); intros ? ?; classes.
  - repeat apply forallb_app_true; try reflexivity;
      (eapply forallb_impl; [|eassumption]); intros ? ?; classes.
Qed.

Lemma bullet_lines_shown (r : regex) (lines : list bulletLine) :
  In r [sectionRe proTips; sectionRe important; footerRe] ->
  forallb wfBulletLine lines = true ->
  forallb (forallb (fun x => negb (mayStart r (Some x))))
          (map shownBullet lines) = true.
Proof.
  intros I W. rewrite !forallb_map.
  revert W; apply forallb_impl; intros l Wl.
  apply wfBulletLine_parts in Wl as (Wp & Wb).
  unfold shownBullet; destruct (bulleted l) as [b|];
    [destruct Wb as (Ws & Wt & _)|];
    repeat (destruct I as [<-|I]; [starts|]); destruct I.
Qed.

(** X17: in a text of plain lines, a bullet followed by white space and a
    text up to the end of its line is shown as a tip item that holds the
    text, wherever on the line the bullet stands; prose before it and lines
    without a bullet are copied, and the lines are joined by line-break
    markers. *)
Theorem bullet_items_wrapped (lines : list bulletLine) :
  forallb wfBulletLine lines = true ->
  formatMessage (Some (join [10%N] (map rawBullet lines)))
  = join br (map shownBullet lines).
Proof.
  intros W. rewrite formatMessage_pipeline. unfold pipeline.
  destruct (@bullet_lines_raw boldRe lines ltac:(simpl; auto) W) as (B1 & N1).
  destruct (@bullet_lines_raw headerRe lines ltac:(simpl; auto) W) as (B3 & _).
  destruct (@bullet_lines_raw stepRe lines ltac:(simpl; auto) W) as (B4 & _).
  rewrite (proj1 (@copy_join boldRe boldT [10%N] _ eq_refl eq_refl B1)).
  rewrite newlines_join by exact N1.
  rewrite (proj1 (@copy_join headerRe headerT br _ eq_refl eq_refl B3)).
  rewrite (proj1 (@copy_join stepRe stepT br _ eq_refl eq_refl B4)).
  rewrite tips_join by exact W.
  rewrite (proj1 (@copy_join (sectionRe proTips)
                    (sectionT "tips-section" proTips) br _ eq_refl eq_refl
                    (@bullet_lines_shown (sectionRe proTips) lines
                       ltac:(simpl; auto) W))).
  rewrite (proj1 (@copy_join (sectionRe important)
                    (sectionT "important-section" important) br _ eq_refl
                    eq_refl
                    (@bullet_lines_shown (sectionRe important) lines
                       ltac:(simpl; auto) W))).
  exact (proj2 (@copy_join footerRe footerT br _ eq_refl eq_refl
                  (@bullet_lines_shown footerRe lines
                     ltac:(simpl; auto) W))).
Qed.

Lemma bullet_items_wrapped_witness :
  formatMessage
    (Some (lit "Tips" ++ [10%N] ++ bullet ++ lit " Save often" ++ [10%N]
             ++ lit "and " ++ bullet ++ lit "back up"))
  = lit "Tips<br>" ++ divOpen "tip-item" ++ lit "Save often</div><br>and "
      ++ divOpen "tip-item" ++ lit "back up</div>".
Proof.
  exact (@bullet_items_wrapped
           [mkBulletLine (lit "Tips") None;
            mkBulletLine [] (Some (mkBullet (lit " ") (lit "Save often")));
            mkBulletLine (lit "and ") (Some (mkBullet [] (lit "back up")))]
           eq_refl).
Defined.

Lemma replaceFirst_prefix (r : regex) (t : template) (pre rest : jsstring) :
  forallb (fun x => negb (mayStart r (Some x))) pre = true ->
  replaceFirst r t (pre ++ rest) = pre ++ replaceFirst r t rest.
Proof.
  induction pre as [|x pre IH]; intros H; [reflexivity|].
  simpl in H. apply andb_prop in H as [Hx Hpre].
  apply negb_true_iff in Hx.
  change ((x :: pre) ++ rest) with (x :: pre ++ rest).
  cbn [replaceFirst]. unfold exec at 1. rewrite run_mayStart by exact Hx.
  rewrite IH by assumption. reflexivity.
Qed.

(** A rule copies a text in which it can begin at one place only, where it
    does not match. *)
Lemma copy_around (r : regex) (t : template) (a : jsstring) (x : codeunit)
      (b : jsstring) :
  mayStart r None = false ->
  forallb (fun y => negb (mayStart r (Some y))) a = true ->
  exec r (x :: b) = None ->
  forallb (fun y => negb (mayStart r (Some y))) b = true ->
  replaceAll r t (a ++ x :: b) = a ++ x :: b
  /\ replaceFirst r t (a ++ x :: b) = a ++ x :: b.
Proof.
  intros He Ha Hx Hb. split.
  - unfold replaceAll. rewrite replaceFrom_copy by exact Ha.
    rewrite replaceFrom_miss by exact Hx.
    fold (replaceAll r t b). rewrite replaceAll_copy by assumption.
    reflexivity.
  - rewrite replaceFirst_prefix by exact Ha.
    cbn [replaceFirst]. rewrite Hx.
    rewrite replaceFirst_copy by assumption. reflexivity.
Qed.

Lemma withBreaks_app (a b : jsstring) :
  withBreaks (a ++ b) = withBreaks a ++ withBreaks b.
Proof. unfold withBreaks. apply flat_map_app. Qed.

Lemma withBreaks_free (s : jsstring) :
  forallb notLineFeed s = true -> withBreaks s = s.
Proof.
  induction s as [|c s IH]; [reflexivity|].
  intros H. cbn [forallb] in H. apply andb_prop in H as [Hc Hs].
  cbn [withBreaks flat_map]. fold (withBreaks s). rewrite IH by exact Hs.
  unfold notLineFeed in Hc. apply negb_true_iff in Hc. rewrite Hc.
  reflexivity.
Qed.

Lemma withBreaks_inert (s : jsstring) :
  forallb mild s = true -> forallb inert (withBreaks s) = true.
Proof.
  induction s as [|c s IH]; [reflexivity|].
  intros H. cbn [forallb] in H. apply andb_prop in H as [Hc Hs].
  cbn [withBreaks flat_map]. fold (withBreaks s).
  rewrite forallb_app, IH by exact Hs.
  destruct (N.eqb_spec 10 c) as [E|D]; [reflexivity|].
  cbn [forallb]. rewrite andb_true_r, andb_true_r. classes.
Qed.

Lemma exec_footerRe (note : jsstring) :
  forallb plainProse note = true ->
  exec footerRe (pin ++ note) = Some ([], [(1, note)]).
Proof.
  intros Hn. unfold exec, footerRe. cbn [run].
  rewrite stripPrefix_app.
  match goal with |- repLazy dot ?K note = _ =>
    assert (H : repLazy dot K (note ++ []) = Some ([], [(1, note)]))
  end.
  { apply repLazy_first.
    - revert Hn. apply forallb_impl. intros x Hx. classes.
    - intros pre x suf E. reflexivity.
    - cbn [length]. rewrite Nat.sub_0_r, firstn_all. reflexivity. }
  rewrite app_nil_r in H. exact H.
Qed.

Lemma header_not_at_pin (note : jsstring) :
  exec headerRe (55357%N :: [56525%N] ++ note) = None.
Proof. reflexivity. Qed.

(** X18: a pin glyph and the plain text behind it, up to the end of the
    message, become one footer note that holds the text; the message before
    the pin, in which no other rule finds a character to begin at, keeps
    its characters, with its line feeds turned into line-break markers. *)
Theorem footer_note_wrapped (head note : jsstring) :
  forallb mild head = true -> forallb plainProse note = true ->
  formatMessage (Some (head ++ pin ++ note))
  = withBreaks head ++ divOpen "footer-note" ++ pin ++ lit " " ++ note
      ++ lit "</div>".
Proof.
  intros Hh Hn. rewrite formatMessage_pipeline. unfold pipeline.
  pose proof (withBreaks_inert head Hh) as Hi.
  rewrite (@replaceAll_copy boldRe boldT) by (try reflexivity; starts).
  rewrite (proj1 (newlines_gone _)), withBreaks_app.
  rewrite (withBreaks_free (pin ++ note))
    by (apply forallb_app_true; [reflexivity|];
        revert Hn; apply forallb_impl; intros x Hx; classes).
  change (withBreaks head ++ pin ++ note)
    with (withBreaks head ++ 55357%N :: [56525%N] ++ note).
  match goal with |- context [replaceAll headerRe headerT ?s] =>
    replace (replaceAll headerRe headerT s) with s
      by (symmetry;
          apply (@copy_around headerRe headerT (withBreaks head) 55357%N
                   ([56525%N] ++ note));
          [reflexivity | starts | apply header_not_at_pin | starts])
  end.
  change (withBreaks head ++ 55357%N :: [56525%N] ++ note)
    with (withBreaks head ++ pin ++ note).
  rewrite (@replaceAll_copy stepRe stepT) by (try reflexivity; starts).
  rewrite (@replaceAll_copy tipRe tipT) by (try reflexivity; starts).
  rewrite (@replaceAll_copy (sectionRe proTips))
    by (try reflexivity; starts).
  rewrite (@replaceAll_copy (sectionRe important))
    by (try reflexivity; starts).
  rewrite replaceFirst_prefix by starts.
  f_equal.
  destruct (pin ++ note) as [|x rest] eqn:E; [discriminate|].
  cbn [replaceFirst]. rewrite <- E, exec_footerRe by exact Hn.
  cbn [expand footerT capture Nat.eqb]. rewrite <- !app_assoc.
  rewrite app_nil_r. reflexivity.
Qed.

Lemma footer_note_wrapped_witness :
  formatMessage (Some (lit "Done" ++ [10%N; 10%N] ++ pin ++ lit " note"))
  = lit "Done<br><br>" ++ divOpen "footer-note" ++ pin ++ lit "  note</div>".
Proof.
  exact (@footer_note_wrapped (lit "Done" ++ [10%N; 10%N]) (lit " note")
           eq_refl eq_refl).
Defined.

Lemma run_Alt_None (r1 r2 : regex) (s : jsstring) (c : caps)
      (k : jsstring -> caps -> mresult) :
  run r1 s c k = None -> run (Alt r1 r2) s c k = run r2 s c k.
Proof. intros H. cbn [run]. rewrite H. reflexivity. Qed.

Lemma run_Alt_Some (r1 r2 : regex) (s : jsstring) (c : caps)
      (k : jsstring -> caps -> mresult) (res : jsstring * caps) :
  run r1 s c k = Some res -> run (Alt r1 r2) s c k = Some res.
Proof. intros H. cbn [run]. rewrite H. reflexivity. Qed.

Lemma run_Seq (r1 r2 : regex) (s : jsstring) (c : caps)
      (k : jsstring -> caps -> mresult) :
  run (Seq r1 r2) s c k = run r1 s c (fun s' c' => run r2 s' c' k).
Proof. reflexivity. Qed.

Lemma run_Group (n : nat) (r : regex) (s : jsstring) (c : caps)
      (k : jsstring -> caps -> mresult) :
  run (Group n r) s c k
  = run r s c (fun s' c' => k s' ((n, firstn (length s - length s') s) :: c')).
Proof. reflexivity. Qed.

Lemma header_rest (ws title rest : jsstring) (c : caps) :
  forallb gap ws = true -> forallb plainProse title = true ->
  run (Rep true isWhiteSpace >> Lit (lit "<strong>")
       >> Group 2 (Rep false dot) >> Lit (lit "</strong>"))
      (ws ++ lit "<strong>" ++ title ++ lit "</strong>" ++ rest) c
      (fun s' c' => Some (s', c'))
  = Some (rest, (2, title) :: c).
Proof.
  intros Ws Wt. cbn [run].
  apply repGreedy_all;
    [ revert Ws; apply forallb_impl; intros x Hx; classes | reflexivity |].
  rewrite stripPrefix_app.
  apply repLazy_first.
  - revert Wt. apply forallb_impl. intros x Hx. classes.
  - intros pre x suf E.
    assert (Px : plainProse x = true).
    { rewrite E, forallb_app in Wt. apply andb_prop in Wt as [_ Wt].
      simpl in Wt. apply andb_prop in Wt. tauto. }
    assert (N60 : (60 =? x)%N = false) by classes.
    change (lit "</strong>") with (60%N :: lit "/strong>").
    cbn [stripPrefix]. rewrite N60. reflexivity.
  - rewrite stripPrefix_app, firstn_matched. reflexivity.
Qed.

Lemma exec_headerRe (g ws title rest : jsstring) :
  In g headerGlyphs ->
  forallb gap ws = true -> forallb plainProse title = true ->
  exec headerRe (g ++ ws ++ lit "<strong>" ++ title ++ lit "</strong>" ++ rest)
  = Some (rest, [(2, title); (1, g)]).
Proof.
  intros G Ws Wt. unfold exec, headerRe.
  rewrite run_Seq, run_Group.
  pose proof (fun c => @header_rest ws title rest c Ws Wt) as R.
  repeat (destruct G as [<-|G];
          [ repeat (rewrite run_Alt_None by reflexivity);
            try apply run_Alt_Some;
            rewrite run_Lit, firstn_matched; apply R |]).
  destruct G.
Qed.

Lemma glyph_starts (g : jsstring) (r : regex) :
  In g headerGlyphs ->
  In r [boldRe; newlineRe; stepRe; tipRe; sectionRe proTips;
        sectionRe important] ->
  forallb (fun x => negb (mayStart r (Some x))) g = true.
Proof.
  intros G R.
  repeat (destruct G as [<-|G];
          [repeat (destruct R as [<-|R]; [reflexivity|]); destruct R|]).
  destruct G.
Qed.

Lemma glyph_footer (g : jsstring) :
  In g headerGlyphs ->
  exists x g',
    g = x :: g'
    /\ (forall rest, exec footerRe (x :: g' ++ rest) = None)
    /\ forallb (fun y => negb (mayStart footerRe (Some y))) g' = true.
Proof.
  intros G.
  repeat (destruct G as [<-|G];
          [eexists _, _; split; [reflexivity|]; split;
           [intros rest; reflexivity | reflexivity]|]).
  destruct G.
Qed.

(** X19: a header glyph, white space and an emphasized title become one
    section header that holds the glyph and the title; the first rule turns
    the stars into the emphasized span that the header rule then looks for,
    and the prose around the header is copied. *)
Theorem section_header_wrapped (pre g ws title post : jsstring) :
  In g headerGlyphs ->
  forallb plainProse pre = true -> forallb gap ws = true ->
  forallb plainProse title = true -> forallb plainProse post = true ->
  formatMessage
    (Some (pre ++ g ++ ws ++ lit "**" ++ title ++ lit "**" ++ post))
  = pre ++ divOpen "section-header" ++ g ++ lit " <strong>" ++ title
      ++ lit "</strong></div>" ++ post.
Proof.
  intros G Hp Hw Ht Hq.
  pose proof (@glyph_starts g boldRe G ltac:(simpl; auto)) as G1.
  pose proof (@glyph_starts g newlineRe G ltac:(simpl; auto)) as G2.
  pose proof (@glyph_starts g stepRe G ltac:(simpl; auto)) as G4.
  pose proof (@glyph_starts g tipRe G ltac:(simpl; auto)) as G5.
  pose proof (@glyph_starts g (sectionRe proTips) G ltac:(simpl; auto 10))
    as G6.
  pose proof (@glyph_starts g (sectionRe important) G ltac:(simpl; auto 10))
    as G7.
  destruct (glyph_footer G) as (x & g' & Eg & Fx & Fg).
  rewrite formatMessage_pipeline. unfold pipeline.
  assert (R1 : replaceAll boldRe boldT
                 (pre ++ g ++ ws ++ lit "**" ++ title ++ lit "**" ++ post)
               = pre ++ g ++ ws ++ lit "<strong>" ++ title
                   ++ lit "</strong>" ++ post).
  { unfold replaceAll.
    replace (pre ++ g ++ ws ++ lit "**" ++ title ++ lit "**" ++ post)
      with ((pre ++ g ++ ws) ++ (lit "**" ++ title ++ lit "**") ++ post)
      by (rewrite <- !app_assoc; reflexivity).
    rewrite replaceFrom_copy by starts.
    erewrite replaceFrom_match;
      [| rewrite <- !app_assoc; apply exec_boldRe; exact Ht | discriminate].
    fold (replaceAll boldRe boldT post).
    rewrite replaceAll_copy by (try reflexivity; starts).
    cbn [expand boldT capture Nat.eqb]. rewrite <- !app_assoc. reflexivity. }
  rewrite R1.
  rewrite (@replaceAll_copy newlineRe newlineT) by (try reflexivity; starts).
  assert (R3 : replaceAll headerRe headerT
                 (pre ++ g ++ ws ++ lit "<strong>" ++ title
                    ++ lit "</strong>" ++ post)
               = pre ++ divOpen "section-header" ++ g ++ lit " <strong>"
                   ++ title ++ lit "</strong></div>" ++ post).
  { unfold replaceAll. rewrite replaceFrom_copy by starts.
    replace (g ++ ws ++ lit "<strong>" ++ title ++ lit "</strong>" ++ post)
      with ((g ++ ws ++ lit "<strong>" ++ title ++ lit "</strong>") ++ post)
      by (rewrite <- !app_assoc; reflexivity).
    erewrite replaceFrom_match;
      [| rewrite <- !app_assoc; apply exec_headerRe; assumption
       | rewrite Eg; discriminate].
    fold (replaceAll headerRe headerT post).
    rewrite replaceAll_copy by (try reflexivity; starts).
    cbn [expand headerT capture Nat.eqb]. rewrite <- !app_assoc.
    reflexivity. }
  rewrite R3.
  rewrite (@replaceAll_copy stepRe stepT) by (try reflexivity; starts).
  rewrite (@replaceAll_copy tipRe tipT) by (try reflexivity; starts).
  rewrite (@replaceAll_copy (sectionRe proTips))
    by (try reflexivity; starts).
  rewrite (@replaceAll_copy (sectionRe important))
    by (try reflexivity; starts).
  rewrite Eg.
  replace (pre ++ divOpen "section-header" ++ (x :: g') ++ lit " <strong>"
             ++ title ++ lit "</strong></div>" ++ post)
    with ((pre ++ divOpen "section-header")
            ++ x :: g' ++ (lit " <strong>" ++ title
                             ++ lit "</strong></div>" ++ post))
    by (rewrite <- !app_assoc; reflexivity).
  apply copy_around; [reflexivity | starts | apply Fx | starts].
Qed.

Lemma section_header_wrapped_witness :
  formatMessage (Some (bulb ++ lit " **Pro tip** for you"))
  = divOpen "section-header" ++ bulb
      ++ lit " <strong>Pro tip</strong></div> for you".
Proof.
  exact (@section_header_wrapped [] bulb (lit " ") (lit "Pro tip")
           (lit " for you") ltac:(simpl; auto 10)
           eq_refl eq_refl eq_refl eq_refl).
Defined.

Lemma exec_boldRe_free (x rest : jsstring) :
  forallb (fun c => dot c && negb (42 =? c)%N) x = true ->
  exec boldRe (lit "**" ++ x ++ lit "**" ++ rest) = Some (rest, [(1, x)]).
Proof.
  intros Hx. unfold exec, boldRe. cbn [run].
  rewrite stripPrefix_app.
  apply repLazy_first.
  - revert Hx. apply forallb_impl. intros c Hc.
    apply andb_prop in Hc. tauto.
  - intros pre c suf E.
    assert (N42 : (42 =? c)%N = false).
    { rewrite E, forallb_app in Hx. apply andb_prop in Hx as [_ Hx].
      simpl in Hx. apply andb_prop in Hx as [Hc _].
      apply andb_prop in Hc as [_ Hc]. now apply negb_true_iff in Hc. }
    change (lit "**") with (42%N :: lit "*"). cbn [stripPrefix].
    rewrite N42. reflexivity.
  - rewrite stripPrefix_app, firstn_matched. reflexivity.
Qed.

Lemma starred_head (head text : jsstring) :
  In head [proTips; important] -> forallb mild text = true ->
  replaceAll newlineRe newlineT
    (replaceAll boldRe boldT (lit "**" ++ head ++ lit "**" ++ [10%N] ++ text))
  = lit "<strong>" ++ head ++ lit "</strong>" ++ br ++ withBreaks text.
Proof.
  intros H Ht.
  assert (R1 : replaceAll boldRe boldT
                 (lit "**" ++ head ++ lit "**" ++ [10%N] ++ text)
               = lit "<strong>" ++ head ++ lit "</strong>" ++ [10%N] ++ text).
  { unfold replaceAll.
    replace (lit "**" ++ head ++ lit "**" ++ [10%N] ++ text)
      with ((lit "**" ++ head ++ lit "**") ++ [10%N] ++ text)
      by (rewrite <- !app_assoc; reflexivity).
    erewrite replaceFrom_match;
      [| rewrite <- !app_assoc; apply exec_boldRe_free;
         destruct H as [<-|[<-|[]]]; reflexivity
       | discriminate].
    fold (replaceAll boldRe boldT ([10%N] ++ text)).
    rewrite replaceAll_copy by (try reflexivity; starts).
    cbn [expand boldT capture Nat.eqb]. rewrite <- !app_assoc. reflexivity. }
  rewrite R1, (proj1 (newlines_gone _)).
  replace (lit "<strong>" ++ head ++ lit "</strong>" ++ [10%N] ++ text)
    with ((lit "<strong>" ++ head ++ lit "</strong>") ++ [10%N] ++ text)
    by (rewrite <- !app_assoc; reflexivity).
  rewrite (@withBreaks_app (lit "<strong>" ++ head ++ lit "</strong>")
             ([10%N] ++ text)).
  replace (withBreaks (lit "<strong>" ++ head ++ lit "</strong>"))
    with (lit "<strong>" ++ head ++ lit "</strong>")
    by (destruct H as [<-|[<-|[]]]; reflexivity).
  rewrite <- !app_assoc. reflexivity.
Qed.

(** X20: the two section rules come too late for their own headers: when a
    message opens with the starred "Pro Tips:" or "Important:" header and a
    line feed, the first rule has already turned the stars into an
    emphasized span, so the header is shown as that span and a line-break
    marker, and no tips or important section is made. *)
Theorem section_headers_shadowed (head text : jsstring) :
  In head [proTips; important] -> forallb mild text = true ->
  formatMessage (Some (lit "**" ++ head ++ lit "**" ++ [10%N] ++ text))
  = lit "<strong>" ++ head ++ lit "</strong>" ++ br ++ withBreaks text.
Proof.
  intros H Ht. rewrite formatMessage_pipeline. unfold pipeline.
  rewrite (@starred_head head text H Ht).
  pose proof (withBreaks_inert text Ht) as Hi.
  destruct H as [<-|[<-|[]]].
  - assert (Hh : forall (r : regex) (t : template),
               mayStart r None = false ->
               forallb (fun y => negb (mayStart r (Some y)))
                 (lit "<strong>") = true ->
               exec r (55357%N :: [56481%N] ++ lit " Pro Tips:"
                         ++ lit "</strong>" ++ br ++ withBreaks text) = None ->
               forallb (fun y => negb (mayStart r (Some y)))
                 ([56481%N] ++ lit " Pro Tips:" ++ lit "</strong>" ++ br
                    ++ withBreaks text) = true ->
               replaceAll r t (lit "<strong>" ++ proTips ++ lit "</strong>"
                                 ++ br ++ withBreaks text)
               = lit "<strong>" ++ proTips ++ lit "</strong>" ++ br
                   ++ withBreaks text
               /\ replaceFirst r t (lit "<strong>" ++ proTips
                                      ++ lit "</strong>" ++ br
                                      ++ withBreaks text)
                  = lit "<strong>" ++ proTips ++ lit "</strong>" ++ br
                      ++ withBreaks text).
    { intros r t H1 H2 H3 H4.
      exact (@copy_around r t (lit "<strong>") 55357%N _ H1 H2 H3 H4). }
    rewrite (proj1 (Hh headerRe headerT eq_refl eq_refl eq_refl
                      ltac:(starts))).
    rewrite (@replaceAll_copy stepRe stepT) by (try reflexivity; starts).
    rewrite (@replaceAll_copy tipRe tipT) by (try reflexivity; starts).
    rewrite (@replaceAll_copy (sectionRe proTips))
      by (try reflexivity; starts).
    rewrite (@replaceAll_copy (sectionRe important))
      by (try reflexivity; starts).
    exact (proj2 (Hh footerRe footerT eq_refl eq_refl eq_refl
                    ltac:(starts))).
  - rewrite (@replaceAll_copy headerRe headerT) by (try reflexivity; starts).
    rewrite (@replaceAll_copy stepRe stepT) by (try reflexivity; starts).
    rewrite (@replaceAll_copy tipRe tipT) by (try reflexivity; starts).
    rewrite (@replaceAll_copy (sectionRe proTips))
      by (try reflexivity; starts).
    rewrite (@replaceAll_copy (sectionRe important))
      by (try reflexivity; starts).
    apply replaceFirst_copy; [reflexivity | starts].
Qed.

Lemma section_headers_shadowed_witness :
  formatMessage
    (Some (lit "**" ++ proTips ++ lit "**" ++ [10%N] ++ lit "Save often"))
  = lit "<strong>" ++ proTips ++ lit "</strong><br>Save often".
Proof.
  exact (@section_headers_shadowed proTips (lit "Save often")
           ltac:(simpl; auto) eq_refl).
Defined.

End FormatterMore.
